(** * Kismet alert tracker (alertracker.cc): rate limiting, backlog, queries

    A shallow embedding of [Alertracker] and of the properties its
    specification states about it.  The class keeps its alert definitions
    behind shared pointers (the same object is reachable from
    [alert_ref_map] and from [alert_defs_vec]); the embedding keeps them in
    an explicit store and lets both containers hold indices into it. *)

From stdpp Require Import gmap strings list fin_maps sorting.
From Stdlib Require Import ZArith Ascii Lia.

Local Open Scope Z_scope.

(** ** Machine integers *)

(** Value of a [uint64_t] after a store. *)
Definition uint64_wrap (z : Z) : Z := z mod 2 ^ 64.

(** Value of an [(unsigned int)] cast. *)
Definition uint_cast (z : Z) : Z := z mod 2 ^ 32.

(** Value of an [int] after an increment that leaves the 32-bit range
    (two's complement, as the compilers Kismet is built with behave). *)
Definition int_wrap (z : Z) : Z := (z + 2 ^ 31) mod 2 ^ 32 - 2 ^ 31.

(** ** Time *)

Record timeval := Timeval { tv_sec : Z; tv_usec : Z }.

(** Modelled from the spec: the enumeration [alert_time_unit] and the table
    [alert_time_unit_conv] are declared in alertracker.h, which is not
    among the sources.  The spec gives the granularities, finest first, and
    their durations: second=1, minute=60, hour=3600, day=86400. *)
Definition sat_second : Z := 0.
Definition sat_minute : Z := 1.
Definition sat_hour : Z := 2.
Definition sat_day : Z := 3.

Definition alert_time_unit_conv : list Z := [1; 60; 3600; 86400].

(** [alert_time_unit_conv[u]].  RegisterAlert clamps every unit into the
    table; an index outside of it (never stored) reads as 0 here. *)
Definition conv_at (u : Z) : Z :=
  if u <? 0 then 0 else default 0 (alert_time_unit_conv !! Z.to_nat u).

(** ** Strings *)

(** Modelled from the spec: [StrUpper] (util.cc, not among the sources)
    brings a header to its normalized, uppercase form. *)
Definition toupper (c : ascii) : ascii :=
  let n := nat_of_ascii c in
  if ((97 <=? n)%nat && (n <=? 122)%nat)%bool then ascii_of_nat (n - 32) else c.

Fixpoint StrUpper (s : string) : string :=
  match s with
  | EmptyString => EmptyString
  | String c r => String (toupper c) (StrUpper r)
  end.

(** ** Data model *)

(** Modelled from the spec: [tracked_alert_definition] is declared in
    alertracker.h, which is not among the sources; its fields are the ones
    the accessors used in alertracker.cc name.  The limits and the two
    counters are event counts, held as unsigned 64-bit values, so a store
    wraps at 2^64. *)
Record tracked_alert_definition := Build_def {
  alert_ref : Z;
  header : string;
  description : string;
  phy : Z;
  limit_unit : Z;
  limit_rate : Z;
  burst_unit : Z;
  limit_burst : Z;
  burst_sent : Z;
  total_sent : Z;
  time_last : Z
}.

(** A fresh instance, as [GetTrackedInstance(alert_def_id)] hands it out. *)
Definition new_alert_definition : tracked_alert_definition :=
  Build_def 0 "" "" 0 0 0 0 0 0 0 0.

Definition set_alert_ref (v : Z) (d : tracked_alert_definition) :=
  Build_def v (header d) (description d) (phy d) (limit_unit d) (limit_rate d)
    (burst_unit d) (limit_burst d) (burst_sent d) (total_sent d) (time_last d).
Definition set_header (v : string) (d : tracked_alert_definition) :=
  Build_def (alert_ref d) v (description d) (phy d) (limit_unit d) (limit_rate d)
    (burst_unit d) (limit_burst d) (burst_sent d) (total_sent d) (time_last d).
Definition set_description (v : string) (d : tracked_alert_definition) :=
  Build_def (alert_ref d) (header d) v (phy d) (limit_unit d) (limit_rate d)
    (burst_unit d) (limit_burst d) (burst_sent d) (total_sent d) (time_last d).
Definition set_phy (v : Z) (d : tracked_alert_definition) :=
  Build_def (alert_ref d) (header d) (description d) v (limit_unit d) (limit_rate d)
    (burst_unit d) (limit_burst d) (burst_sent d) (total_sent d) (time_last d).
Definition set_limit_unit (v : Z) (d : tracked_alert_definition) :=
  Build_def (alert_ref d) (header d) (description d) (phy d) v (limit_rate d)
    (burst_unit d) (limit_burst d) (burst_sent d) (total_sent d) (time_last d).
Definition set_limit_rate (v : Z) (d : tracked_alert_definition) :=
  Build_def (alert_ref d) (header d) (description d) (phy d) (limit_unit d)
    (uint64_wrap v)
    (burst_unit d) (limit_burst d) (burst_sent d) (total_sent d) (time_last d).
Definition set_burst_unit (v : Z) (d : tracked_alert_definition) :=
  Build_def (alert_ref d) (header d) (description d) (phy d) (limit_unit d) (limit_rate d)
    v (limit_burst d) (burst_sent d) (total_sent d) (time_last d).
Definition set_limit_burst (v : Z) (d : tracked_alert_definition) :=
  Build_def (alert_ref d) (header d) (description d) (phy d) (limit_unit d) (limit_rate d)
    (burst_unit d) (uint64_wrap v) (burst_sent d) (total_sent d) (time_last d).
Definition set_burst_sent (v : Z) (d : tracked_alert_definition) :=
  Build_def (alert_ref d) (header d) (description d) (phy d) (limit_unit d) (limit_rate d)
    (burst_unit d) (limit_burst d) (uint64_wrap v) (total_sent d) (time_last d).
Definition set_total_sent (v : Z) (d : tracked_alert_definition) :=
  Build_def (alert_ref d) (header d) (description d) (phy d) (limit_unit d) (limit_rate d)
    (burst_unit d) (limit_burst d) (burst_sent d) (uint64_wrap v) (time_last d).
Definition set_time_last (v : Z) (d : tracked_alert_definition) :=
  Build_def (alert_ref d) (header d) (description d) (phy d) (limit_unit d) (limit_rate d)
    (burst_unit d) (limit_burst d) (burst_sent d) (total_sent d) v.
Definition inc_burst_sent (n : Z) (d : tracked_alert_definition) :=
  set_burst_sent (burst_sent d + n) d.
Definition inc_total_sent (n : Z) (d : tracked_alert_definition) :=
  set_total_sent (total_sent d + n) d.

(** The four addresses of an alert are opaque tokens to the tracker. *)
Definition mac_addr := Z.

Record kis_alert_info := Build_info {
  info_header : string;
  info_phy : Z;
  tm : timeval;
  bssid : mac_addr;
  source : mac_addr;
  dest : mac_addr;
  other : mac_addr;
  channel : string;
  text : string
}.

(** A packet, as far as the tracker looks at it: the slot of its alert
    component ([None] when the packet has none yet) and the alerts the
    component lists. *)
Record kis_packet := Build_packet {
  alert_vec : option (list kis_alert_info)
}.

Inductive msgflag := MSGFLAG_INFO | MSGFLAG_ERROR | MSGFLAG_ALERT | MSGFLAG_FATAL.

(** The tracker.  [arec_store] holds the definition objects in the order
    they were allocated; a shared pointer is an index into it.
    [freed_alert_used] is no member of the class: it records that a call
    has gone on to use an alert after it had deleted it, which RaiseAlert
    does when the backlog has no room for a single alert; the behaviour of
    the program is undefined from there. *)
Record Alertracker := Build_tracker {
  next_alert_id : Z;
  num_backlog : Z;
  arec_store : list tracked_alert_definition;
  alert_name_map : gmap string Z;
  alert_ref_map : gmap Z nat;
  alert_defs_vec : list nat;
  alert_backlog : list kis_alert_info;
  messagebus : list (string * msgflag);
  freed_alert_used : bool
}.

(** [_MSG(text, flag)] *)
Definition MSG (m : string) (f : msgflag) (t : Alertracker) : Alertracker :=
  Build_tracker (next_alert_id t) (num_backlog t) (arec_store t)
    (alert_name_map t) (alert_ref_map t) (alert_defs_vec t) (alert_backlog t)
    (messagebus t ++ [(m, f)]) (freed_alert_used t).

Definition set_arec (p : nat) (d : tracked_alert_definition) (t : Alertracker) :=
  Build_tracker (next_alert_id t) (num_backlog t) (<[p := d]> (arec_store t))
    (alert_name_map t) (alert_ref_map t) (alert_defs_vec t) (alert_backlog t)
    (messagebus t) (freed_alert_used t).

Definition set_backlog (b : list kis_alert_info) (t : Alertracker) :=
  Build_tracker (next_alert_id t) (num_backlog t) (arec_store t)
    (alert_name_map t) (alert_ref_map t) (alert_defs_vec t) b (messagebus t)
    (freed_alert_used t).

(** The tracker once a call has used an alert it had deleted. *)
Definition use_freed_alert (t : Alertracker) : Alertracker :=
  Build_tracker (next_alert_id t) (num_backlog t) (arec_store t)
    (alert_name_map t) (alert_ref_map t) (alert_defs_vec t) (alert_backlog t)
    (messagebus t) true.

(** The tracker before any alert is registered, with backlog capacity [n]. *)
Definition empty_tracker (n : Z) : Alertracker :=
  Build_tracker 0 n [] ∅ ∅ [] [] [] false.

(** ** Alertracker::RegisterAlert

    The header is looked up as the caller gives it and stored in upper
    case.  The new definition is allocated at the end of the store. *)

(** [if ((unsigned int) u > sat_day) u = sat_day;] *)
Definition clamp_unit (u : Z) : Z :=
  if uint_cast u >? sat_day then sat_day else u.

Definition RegisterAlert (in_header in_description : string)
    (in_unit in_rate in_burstunit in_burst in_phy : Z)
    (t : Alertracker) : Z * Alertracker :=
  match alert_name_map t !! in_header with
  | Some _ =>
      (-1, MSG ("Tried to re-register duplicate alert " +:+ in_header) MSGFLAG_ERROR t)
  | None =>
      let in_burstunit := clamp_unit in_burstunit in
      let in_unit := clamp_unit in_unit in
      if in_burstunit >? in_unit then
        (-1, MSG ("Failed to register alert " +:+ in_header +:+ ", time unit for "
                  +:+ "burst rate must be less than or equal to the time unit "
                  +:+ "for the max rate") MSGFLAG_ERROR t)
      else
        let arec :=
          set_time_last 0
            (set_phy in_phy
              (set_limit_burst in_burst
                (set_burst_unit in_burstunit
                  (set_limit_rate in_rate
                    (set_limit_unit in_unit
                      (set_description in_description
                        (set_header (StrUpper in_header)
                          (set_alert_ref (next_alert_id t)
                            new_alert_definition)))))))) in
        let p := length (arec_store t) in
        (alert_ref arec,
         Build_tracker (int_wrap (next_alert_id t + 1)) (num_backlog t)
           (arec_store t ++ [arec])
           (<[header arec := alert_ref arec]> (alert_name_map t))
           (<[alert_ref arec := p]> (alert_ref_map t))
           (alert_defs_vec t ++ [p])
           (alert_backlog t) (messagebus t) (freed_alert_used t))
  end.

(** ** Alertracker::FetchAlertRef *)

Definition FetchAlertRef (in_header : string) (t : Alertracker) : Z :=
  match alert_name_map t !! in_header with
  | Some r => r
  | None => -1
  end.

(** The last test of CheckTimes: under the limit on both counters. *)
Definition under_limits (arec : tracked_alert_definition) : bool :=
  ((burst_sent arec <? limit_burst arec)
   && (total_sent arec <? limit_rate arec))%bool.

(** ** Alertracker::CheckTimes

    [now] is what [gettimeofday] answers.  The definition is changed in
    place in the source; here the changed definition is returned next to
    the verdict. *)
Definition CheckTimes (arec : tracked_alert_definition) (now : timeval)
    : Z * tracked_alert_definition :=
  if limit_rate arec =? 0 then (1, arec)
  else if time_last arec <? tv_sec now - conv_at (limit_unit arec) then
    (1, set_burst_sent 0 (set_total_sent 0 arec))
  else
    let arec :=
      if time_last arec <? tv_sec now - conv_at (burst_unit arec)
      then set_burst_sent 0 arec else arec in
    if under_limits arec then (1, arec) else (0, arec).

(** ** Alertracker::PotentialAlert

    A shared pointer always leads to its object: the branch for an index
    outside of the store is there for totality only, here and in
    RaiseAlert. *)

Definition PotentialAlert (in_ref : Z) (now : timeval) (t : Alertracker)
    : Z * Alertracker :=
  match alert_ref_map t !! in_ref with
  | None => (0, t)
  | Some p =>
      match arec_store t !! p with
      | None => (0, t)
      | Some arec =>
          let '(r, arec') := CheckTimes arec now in (r, set_arec p arec' t)
      end
  end.

(** ** Alertracker::RaiseAlert

    The call reads the clock three times: [now] in CheckTimes, [tm_now] for
    the time stamp of the alert, and [time0] ([time(0)]) for the time of the
    last alert of the definition.  Next to the return value and the tracker
    it yields the caller's packet, to which the alert is attached.

    When the backlog has outgrown [num_backlog] after the push, the alert
    at its front is deleted and erased.  With nothing else in the backlog
    this is the alert just built, and the call then goes on with the
    deleted alert: it files the pointer with the packet and reads header
    and text for the message.  What that does is undefined; the model sets
    [freed_alert_used] and goes no further, with nothing attached and
    nothing announced, and with the 1 that the last line would return. *)
Definition attach_alert (info : kis_alert_info) (pack : kis_packet) : kis_packet :=
  match alert_vec pack with
  | None => Build_packet (Some [info])
  | Some v => Build_packet (Some (v ++ [info]))
  end.

Definition push_backlog (info : kis_alert_info) (t : Alertracker) : Alertracker :=
  let b := alert_backlog t ++ [info] in
  if Z.of_nat (length b) >? num_backlog t then set_backlog (drop 1 b) t
  else set_backlog b t.

(** Whether the alert that is deleted after the push onto the backlog of
    [t] is the pushed one: the backlog has outgrown [num_backlog], and the
    alert at its front is the new one. *)
Definition deletes_pushed (t : Alertracker) : bool :=
  let size := S (length (alert_backlog t)) in
  ((Z.of_nat size >? num_backlog t) && (size =? 1)%nat)%bool.

Definition RaiseAlert (in_ref : Z) (in_pack : option kis_packet)
    (in_bssid in_source in_dest in_other : mac_addr)
    (in_channel in_text : string)
    (now tm_now : timeval) (time0 : Z) (t : Alertracker)
    : Z * Alertracker * option kis_packet :=
  match alert_ref_map t !! in_ref with
  | None => (-1, t, in_pack)
  | Some p =>
      match arec_store t !! p with
      | None => (-1, t, in_pack)
      | Some arec =>
          let '(r, arec) := CheckTimes arec now in
          if negb (r =? 1) then (0, set_arec p arec t, in_pack)
          else
            let info :=
              Build_info (header arec) (phy arec) tm_now
                in_bssid in_source in_dest in_other in_channel in_text in
            let arec := set_time_last time0 (inc_total_sent 1 (inc_burst_sent 1 arec)) in
            let t := set_arec p arec t in
            let deleted := deletes_pushed t in
            let t := push_backlog info t in
            if deleted then (1, use_freed_alert t, in_pack)
            else
              let in_pack := attach_alert info <$> in_pack in
              let t := MSG (info_header info +:+ " " +:+ text info) MSGFLAG_ALERT t in
              (1, t, in_pack)
      end
  end.

(** ** Alertracker::Httpd_CreateStreamResponse

    The HTTP layer and the serializers are not part of the tracker: the
    helpers the handler calls are parameters, and what the handler hands to
    [Httpd_Serialize] is the response. *)

Inductive TrackerElement :=
| TE_definitions (defs : list tracked_alert_definition)
| TE_vector (msgvec : list kis_alert_info)
| TE_map (msgvec : list kis_alert_info) (ts : Z).

(** The loop over [alert_backlog] that fills [msgvec]. *)
Definition collect_since (since_time : Z) (backlog : list kis_alert_info)
    : list kis_alert_info :=
  foldl (fun msgvec i =>
           if since_time <? tv_sec (tm i) then msgvec ++ [i] else msgvec)
        [] backlog.

Section Httpd.
Variable Httpd_CanSerialize : string -> bool.
Variable Httpd_StripSuffix : string -> string.
Variable StrTokenize : string -> string -> list string.
Variable sscanf_ld : string -> option Z.

(** Where the URL sends the request: the handler has answered already
    ([Route_done]), or it goes on to the backlog with a cursor. *)
Inductive route :=
| Route_done (out : option TrackerElement)
| Route_backlog (since_time : Z) (wrap : bool).

Definition token (tokenurl : list string) (n : nat) : string :=
  default "" (tokenurl !! n).

Definition route_of (tokenurl : list string) (t : Alertracker) : route :=
  if String.eqb (token tokenurl 1) "alerts" then
    if String.eqb (Httpd_StripSuffix (token tokenurl 2)) "definitions" then
      Route_done
        (Some (TE_definitions
                 (omap (fun p => arec_store t !! p) (alert_defs_vec t))))
    else if String.eqb (token tokenurl 2) "last-time" then
      if (length tokenurl <? 5)%nat then Route_done None
      else
        match sscanf_ld (token tokenurl 3) with
        | None => Route_done None
        | Some lastts => Route_backlog lastts true
        end
    else Route_backlog 0 false
  else Route_backlog 0 false.

Definition Httpd_CreateStreamResponse (path method : string)
    (timestamp : timeval) (t : Alertracker) : option TrackerElement :=
  if negb (String.eqb method "GET") then None
  else if negb (Httpd_CanSerialize path) then None
  else
    let tokenurl := StrTokenize path "/" in
    if (length tokenurl <? 3)%nat then None
    else
      match route_of tokenurl t with
      | Route_done out => out
      | Route_backlog since_time wrap =>
          let msgvec := collect_since since_time (alert_backlog t) in
          if wrap then Some (TE_map msgvec (uint64_wrap (tv_sec timestamp)))
          else Some (TE_vector msgvec)
      end.
End Httpd.

(** ** Sequences of public operations *)

Record raise_call := Build_call {
  rc_pack : option kis_packet;
  rc_bssid : mac_addr;
  rc_source : mac_addr;
  rc_dest : mac_addr;
  rc_other : mac_addr;
  rc_channel : string;
  rc_text : string;
  rc_now : timeval;
  rc_tm : timeval;
  rc_time0 : Z
}.

Definition RaiseAlert_call (in_ref : Z) (c : raise_call) (t : Alertracker) :=
  RaiseAlert in_ref (rc_pack c) (rc_bssid c) (rc_source c) (rc_dest c)
    (rc_other c) (rc_channel c) (rc_text c) (rc_now c) (rc_tm c) (rc_time0 c) t.

Inductive op :=
| Op_RegisterAlert (in_header in_description : string)
    (in_unit in_rate in_burstunit in_burst in_phy : Z)
| Op_FetchAlertRef (in_header : string)
| Op_PotentialAlert (in_ref : Z) (now : timeval)
| Op_RaiseAlert (in_ref : Z) (c : raise_call)
| Op_Query (path method : string) (timestamp : timeval).

(** The tracker after one operation.  A query and a lookup read only. *)
Definition step (t : Alertracker) (o : op) : Alertracker :=
  match o with
  | Op_RegisterAlert h d u r bu b ph => (RegisterAlert h d u r bu b ph t).2
  | Op_FetchAlertRef _ => t
  | Op_PotentialAlert r now => (PotentialAlert r now t).2
  | Op_RaiseAlert r c => (RaiseAlert_call r c t).1.2
  | Op_Query _ _ _ => t
  end.

Definition run (t : Alertracker) (ops : list op) : Alertracker :=
  foldl step t ops.

(** The alert a call of RaiseAlert builds once the definition is found. *)
Definition raised_info (in_ref : Z) (c : raise_call) (t : Alertracker)
    : option kis_alert_info :=
  p ← alert_ref_map t !! in_ref;
  arec ← arec_store t !! p;
  Some (Build_info (header arec) (phy arec) (rc_tm c) (rc_bssid c)
          (rc_source c) (rc_dest c) (rc_other c) (rc_channel c) (rc_text c)).

(** The alert that operation [o] adds to the backlog of [t]: the one a call
    of RaiseAlert builds when it returns 1. *)
Definition accepted_by (t : Alertracker) (o : op) : list kis_alert_info :=
  match o with
  | Op_RaiseAlert r c =>
      if (RaiseAlert_call r c t).1.1 =? 1
      then option_list (raised_info r c t) else []
  | _ => []
  end.

(** The alerts of the calls that returned 1, in the order of the calls. *)
Fixpoint accepted (t : Alertracker) (ops : list op) : list kis_alert_info :=
  match ops with
  | [] => []
  | o :: ops => accepted_by t o ++ accepted (step t o) ops
  end.

(** ** Predicates of the properties *)

(** The verdict of the last test of CheckTimes. *)
Definition verdict (arec : tracked_alert_definition) : Z :=
  if under_limits arec then 1 else 0.

Definition is_uint64 (z : Z) : Prop := 0 <= z < 2 ^ 64.

(** [d'] is [d] but for counters that were reset to 0. *)
Definition counters_kept_or_reset (d d' : tracked_alert_definition) : Prop :=
  alert_ref d' = alert_ref d /\ header d' = header d /\
  description d' = description d /\ phy d' = phy d /\
  limit_unit d' = limit_unit d /\ limit_rate d' = limit_rate d /\
  burst_unit d' = burst_unit d /\ limit_burst d' = limit_burst d /\
  time_last d' = time_last d /\
  (total_sent d' = total_sent d \/ total_sent d' = 0) /\
  (burst_sent d' = burst_sent d \/ burst_sent d' = 0).

(** The sustained window of [d] has passed at the clock reading [now], for
    a definition that is rate-limited at all. *)
Definition sustained_passed (d : tracked_alert_definition) (now : timeval)
    : bool :=
  (negb (limit_rate d =? 0)
   && (time_last d <? tv_sec now - conv_at (limit_unit d)))%bool.

(** The sustained or the burst window of [d] has passed. *)
Definition burst_passed (d : tracked_alert_definition) (now : timeval)
    : bool :=
  (negb (limit_rate d =? 0)
   && ((time_last d <? tv_sec now - conv_at (limit_unit d))
       || (time_last d <? tv_sec now - conv_at (burst_unit d))))%bool.

(** The clock readings of those probes whose ref leads to the definition
    at index [q] of the store. *)
Definition probes_of (t : Alertracker) (q : nat) (calls : list (Z * timeval))
    : list timeval :=
  omap (fun c : Z * timeval =>
          if decide (alert_ref_map t !! c.1 = Some q) then Some c.2 else None)
       calls.

(** [d] with [total_sent] at 0 if its sustained window has passed at one of
    the clock readings, and with [burst_sent] at 0 if one of its two
    windows has. *)
Definition reset_by (nows : list timeval) (d : tracked_alert_definition)
    : tracked_alert_definition :=
  let d1 :=
    if existsb (sustained_passed d) nows then set_total_sent 0 d else d in
  if existsb (burst_passed d) nows then set_burst_sent 0 d1 else d1.

(** Successive probes, each with its ref and its clock reading. *)
Definition probes (t : Alertracker) (calls : list (Z * timeval)) : Alertracker :=
  foldl (fun t c => (PotentialAlert c.1 c.2 t).2) t calls.

(** Successive calls of RaiseAlert for one ref: the values they return and
    the tracker after the last of them. *)
Fixpoint raise_all (in_ref : Z) (calls : list raise_call) (t : Alertracker)
    : list Z * Alertracker :=
  match calls with
  | [] => ([], t)
  | c :: calls =>
      let r := RaiseAlert_call in_ref c t in
      let rest := raise_all in_ref calls r.1.2 in
      (r.1.1 :: rest.1, rest.2)
  end.

(** [t'] has the definitions, the maps and the next ref of [t]. *)
Definition registry_unchanged (t t' : Alertracker) : Prop :=
  arec_store t' = arec_store t /\
  alert_defs_vec t' = alert_defs_vec t /\
  alert_name_map t' = alert_name_map t /\
  alert_ref_map t' = alert_ref_map t /\
  next_alert_id t' = next_alert_id t /\
  num_backlog t' = num_backlog t /\
  alert_backlog t' = alert_backlog t.

(** The counters of [d] are within its limits, if both limits are set. *)
Definition within_limits (d : tracked_alert_definition) : Prop :=
  limit_rate d <> 0 -> limit_burst d <> 0 ->
  total_sent d <= limit_rate d /\ burst_sent d <= limit_burst d.

(** What every stored definition satisfies: its counts are unsigned 64-bit
    values and its counters are within the limits. *)
Definition def_inv (d : tracked_alert_definition) : Prop :=
  is_uint64 (limit_rate d) /\ is_uint64 (limit_burst d) /\
  0 <= total_sent d /\ 0 <= burst_sent d /\ within_limits d.

(** The time stamps of a backlog grow strictly from each alert to the next. *)
Definition timestamps_increasing (b : list kis_alert_info) : Prop :=
  StronglySorted (fun x y => tv_sec (tm x) < tv_sec (tm y)) b.

(** ** Worked inputs *)

(** A call of RaiseAlert without packet whose three clock readings agree
    on second [sec]. *)
Definition call_at (sec : Z) : raise_call :=
  Build_call None 0 0 0 0 "6" "probe flood" (Timeval sec 0) (Timeval sec 0) sec.

(** A tracker with one alert type limited to 5 per minute and 2 per
    second, then after one and after two alerts at second 1000. *)
Definition tracker_5m_2s : Alertracker :=
  (RegisterAlert "PROBEFLOOD" "Probe flood" sat_minute 5 sat_second 2 0
     (empty_tracker 50)).2.

Definition tracker_raised_once : Alertracker :=
  (RaiseAlert_call 0 (call_at 1000) tracker_5m_2s).1.2.

Definition tracker_raised_twice : Alertracker :=
  (RaiseAlert_call 0 (call_at 1000) tracker_raised_once).1.2.

(** The definition of [tracker_raised_twice]: two alerts sent at second
    1000. *)
Definition def_5m_2s_twice : tracked_alert_definition :=
  Build_def 0 "PROBEFLOOD" "Probe flood" 0 sat_minute 5 sat_second 2 2 2 1000.

(** A tracker with one alert type limited to 1 per minute and 1 per
    second, after one alert at second 1000. *)
Definition tracker_1m_1s_raised : Alertracker :=
  (RaiseAlert_call 0 (call_at 1000)
     (RegisterAlert "DEAUTHFLOOD" "Deauth flood" sat_minute 1 sat_second 1 0
        (empty_tracker 50)).2).1.2.

(** A tracker with one alert type without rate limit, as the constructor
    registers it for the server's own alerts (with 0 for the phy, a constant
    of another header). *)
Definition tracker_unlimited : Alertracker :=
  (RegisterAlert "KISMET" "Server events" sat_day 0 sat_day 0 0
     (empty_tracker 50)).2.

(** The first registration of a header given in lower case, on a tracker
    without definitions. *)
Definition tracker_lowercase : Z * Alertracker :=
  RegisterAlert "probeflood" "Probe flood" sat_minute 5 sat_second 2 0
    (empty_tracker 50).

(** A tracker with one alert type limited to 3 per minute and with a
    burst limit of 0. *)
Definition tracker_3m_0s : Alertracker :=
  (RegisterAlert "NULLBURST" "No burst" sat_minute 3 sat_second 0 0
     (empty_tracker 50)).2.

(** A tracker with room for two alerts and one alert type without limit,
    and three calls of RaiseAlert for it. *)
Definition tracker_small : Alertracker :=
  (RegisterAlert "KISMET" "Server events" sat_day 0 sat_day 0 0
     (empty_tracker 2)).2.

(** The tracker as the constructor leaves it for [alertbacklog=0]: no room
    in the backlog, and the alert type of the server registered. *)
Definition tracker_no_room : Alertracker :=
  (RegisterAlert "KISMET" "Server events" sat_day 0 sat_day 0 0
     (empty_tracker 0)).2.

Definition three_raises : list op :=
  [Op_RaiseAlert 0 (call_at 1000); Op_RaiseAlert 0 (call_at 1001);
   Op_RaiseAlert 0 (call_at 1002)].

(** Four calls of RaiseAlert, at seconds 1000 to 1003. *)
Definition four_raises : list op :=
  three_raises ++ [Op_RaiseAlert 0 (call_at 1003)].

(** A backlog of three alerts, at seconds 1000, 1001 and 1002. *)
Definition tracker_three_alerts : Alertracker :=
  run tracker_unlimited three_raises.

(** Stand-ins for the helpers of the HTTP layer on the one path
    [/alerts/last-time/1000/alerts.json]. *)
Definition path_since_1000 : string := "/alerts/last-time/1000/alerts.json".
Definition tokens_since_1000 : list string :=
  [""; "alerts"; "last-time"; "1000"; "alerts.json"]%string.

(** ** Alertracker: the alert lines of the configuration

    [StrTokenize] (util.cc) and [sscanf] with the format "%d" are not part
    of the tracker and are parameters.  A function that writes through
    pointers yields, per pointer, the value written or [None] when it leaves
    the target alone.  Reading [units[1]] of a vector that is too short is
    undefined in the source; such a run has no result here ([None]). *)

(** Modelled from the spec: [StrLower] (util.cc, not among the sources)
    brings a header to lower case. *)
Definition tolower (c : ascii) : ascii :=
  let n := nat_of_ascii c in
  if ((65 <=? n)%nat && (n <=? 90)%nat)%bool then ascii_of_nat (n + 32) else c.

Fixpoint StrLower (s : string) : string :=
  match s with
  | EmptyString => EmptyString
  | String c r => String (tolower c) (StrLower r)
  end.

(** [s.c_str()] read as a C string: the characters before the first NUL. *)
Fixpoint c_str (s : string) : string :=
  match s with
  | EmptyString => EmptyString
  | String c r => if Ascii.eqb c zero then EmptyString else String c (c_str r)
  end.

(** [snprintf(err, 1024, ...)] keeps at most 1023 characters. *)
Definition snprintf_1024 (s : string) : string := String.substring 0 1023 s.

(** Modelled from the spec: [alert_conf_rec] is declared in alertracker.h,
    which is not among the sources; its fields are the ones ParseAlertConfig
    and ActivateConfiguredAlert name (the limits of one configured alert,
    under its header). *)
Record alert_conf_rec := Build_conf_rec {
  conf_header : string;
  conf_limit_unit : Z;
  conf_limit_rate : Z;
  conf_burst_unit : Z;
  conf_limit_burst : Z
}.

Record rate_unit_out := Build_ru_out {
  ru_ret : Z;
  ru_unit : option Z;
  ru_rate : option Z;
  ru_msgs : list (string * msgflag)
}.

Record alert_str_out := Build_as_out {
  as_ret : Z;
  as_name : option string;
  as_limit_unit : option Z;
  as_limit_rate : option Z;
  as_limit_burst : option Z;
  as_burst_rate : option Z;
  as_msgs : list (string * msgflag)
}.

(** The tracker together with what the constructor and the activation of
    configured alerts use besides: the parsed alert lines and the flag
    [globalreg->fatal_condition]. *)
Record AlertConfig := Build_config {
  cfg_tracker : Alertracker;
  alert_conf_map : gmap string alert_conf_rec;
  fatal_condition : Z
}.

(** The unit a keyword of an alert line names. *)
Definition unit_of_keyword (k : string) : option Z :=
  if (String.eqb k "sec" || String.eqb k "second")%bool then Some sat_second
  else if (String.eqb k "min" || String.eqb k "minute")%bool then Some sat_minute
  else if (String.eqb k "hr" || String.eqb k "hour")%bool then Some sat_hour
  else if String.eqb k "day" then Some sat_day
  else None.

Section Config.
Variable StrTokenize : string -> string -> list string.
Variable sscanf_d : string -> option Z.

(** Alertracker::ParseRateUnit *)
Definition ParseRateUnit (in_ru : string) : option rate_unit_out :=
  let units := StrTokenize in_ru "/" in
  unit_step ←
    (if (length units =? 1)%nat then Some (inl sat_minute)
     else
       u1 ← units !! 1%nat;
       match unit_of_keyword u1 with
       | Some u => Some (inl u)
       | None =>
           Some (inr [("Invalid time unit for alert rate '" +:+ u1 +:+ "'",
                       MSGFLAG_ERROR)])
       end);
  match unit_step with
  | inr msgs => Some (Build_ru_out (-1) None None msgs)
  | inl u =>
      u0 ← units !! 0%nat;
      match sscanf_d (c_str u0) with
      | None =>
          Some (Build_ru_out (-1) (Some u) None
                  [("Invalid rate '" +:+ u0 +:+ "' for alert", MSGFLAG_ERROR)])
      | Some r => Some (Build_ru_out 1 (Some u) (Some r) [])
      end
  end.

(** Alertracker::ParseAlertStr *)
Definition ParseAlertStr (alert_str : string) : option alert_str_out :=
  let tokens := StrTokenize alert_str "," in
  let err :=
    (snprintf_1024 ("Malformed limits for alert '" +:+ c_str alert_str +:+ "'"),
     MSGFLAG_ERROR) in
  if negb (length tokens =? 3)%nat then
    Some (Build_as_out (-1) None None None None None [err])
  else
    let name := StrLower (token tokens 0) in
    r1 ← ParseRateUnit (StrLower (token tokens 1));
    if negb (ru_ret r1 =? 1) then
      Some (Build_as_out (-1) (Some name) (ru_unit r1) (ru_rate r1) None None
              (ru_msgs r1 ++ [err]))
    else
      r2 ← ParseRateUnit (StrLower (token tokens 2));
      if negb (ru_ret r2 =? 1) then
        Some (Build_as_out (-1) (Some name) (ru_unit r1) (ru_rate r1)
                (ru_unit r2) (ru_rate r2) (ru_msgs r1 ++ ru_msgs r2 ++ [err]))
      else
        Some (Build_as_out 1 (Some name) (ru_unit r1) (ru_rate r1)
                (ru_unit r2) (ru_rate r2) (ru_msgs r1 ++ ru_msgs r2)).

(** The record [new alert_conf_rec] after ParseAlertStr wrote through the
    pointers to its fields; [fresh] is the record as allocated. *)
Definition conf_rec_written (fresh : alert_conf_rec) (o : alert_str_out)
    : alert_conf_rec :=
  Build_conf_rec
    (default (conf_header fresh) (as_name o))
    (default (conf_limit_unit fresh) (as_limit_unit o))
    (default (conf_limit_rate fresh) (as_limit_rate o))
    (default (conf_burst_unit fresh) (as_limit_burst o))
    (default (conf_limit_burst fresh) (as_burst_rate o)).

Definition cfg_MSGs (msgs : list (string * msgflag)) (c : AlertConfig)
    : AlertConfig :=
  Build_config (foldl (fun t m => MSG m.1 m.2 t) (cfg_tracker c) msgs)
    (alert_conf_map c) (fatal_condition c).

(** Alertracker::ParseAlertConfig, on the lines [FetchOptVec("alert")]. *)
Fixpoint ParseAlertConfig (fresh : alert_conf_rec) (clines : list string)
    (c : AlertConfig) : option (Z * AlertConfig) :=
  match clines with
  | [] => Some (1, c)
  | line :: clines =>
      o ← ParseAlertStr line;
      let c := cfg_MSGs (as_msgs o) c in
      if as_ret o <? 0 then
        Some (-1,
              Build_config
                (MSG ("Invalid alert line in config file: " +:+ line)
                   MSGFLAG_FATAL (cfg_tracker c))
                (alert_conf_map c) 1)
      else
        let rec := conf_rec_written fresh o in
        ParseAlertConfig fresh clines
          (Build_config (cfg_tracker c)
             (<[StrLower (conf_header rec) := rec]> (alert_conf_map c))
             (fatal_condition c))
  end.

(** Alertracker::ActivateConfiguredAlert, with the phy given. *)
Definition ActivateConfiguredAlert (in_header in_desc : string) (in_phy : Z)
    (c : AlertConfig) : Z * AlertConfig :=
  let hdr := StrLower in_header in
  match alert_conf_map c !! hdr with
  | None =>
      (-1,
       Build_config
         (MSG ("Alert type " +:+ in_header +:+ " not found in list of activated "
               +:+ "alerts.") MSGFLAG_INFO (cfg_tracker c))
         (alert_conf_map c) (fatal_condition c))
  | Some rec =>
      let r := RegisterAlert (conf_header rec) in_desc (conf_limit_unit rec)
                 (conf_limit_rate rec) (conf_burst_unit rec)
                 (conf_limit_burst rec) in_phy (cfg_tracker c) in
      (r.1, Build_config r.2 (alert_conf_map c) (fatal_condition c))
  end.

(** The constructor, as far as the tracker's own state goes (and with a
    configuration at hand; it exits without one): the backlog size, the
    alert lines, and the alert type of the server.  [n0] is
    what [num_backlog] holds before the constructor assigns it, [ALERT_REF]
    the ref the constructor files under [ALERT_REF_KISMET]. *)
Definition Alertracker_new (KIS_PHY_ANY n0 : Z) (fresh : alert_conf_rec)
    (opt_alertbacklog : string) (alert_lines : list string)
    : option (AlertConfig * option Z) :=
  let t0 := empty_tracker n0 in
  let backlog :=
    if String.eqb opt_alertbacklog "" then inl n0
    else
      match sscanf_d (c_str opt_alertbacklog) with
      | Some scantmp => if scantmp <? 0 then inr tt else inl scantmp
      | None => inr tt
      end in
  match backlog with
  | inr _ =>
      Some (Build_config
              (MSG ("Illegal value for 'alertbacklog' " +:+ "in config file")
                 MSGFLAG_FATAL t0) ∅ 1, None)
  | inl n =>
      let t1 := Build_tracker 0 n [] ∅ ∅ [] [] [] false in
      '(r, c) ← ParseAlertConfig fresh alert_lines (Build_config t1 ∅ 0);
      if r <? 0 then
        Some (Build_config
                (MSG "Failed to parse alert values from Kismet config file"
                   MSGFLAG_FATAL (cfg_tracker c))
                (alert_conf_map c) 1, None)
      else
        let reg := RegisterAlert "KISMET" "Server events" sat_day 0 sat_day 0
                     KIS_PHY_ANY (cfg_tracker c) in
        Some (Build_config (MSG "Created alert tracker..." MSGFLAG_INFO reg.2)
                (alert_conf_map c) (fatal_condition c), Some reg.1)
  end.
End Config.

(** ** Alertracker::Httpd_VerifyPath *)

Section HttpdVerify.
Variable Httpd_CanSerialize : string -> bool.
Variable Httpd_StripSuffix : string -> string.
Variable StrTokenize : string -> string -> list string.

Definition Httpd_VerifyPath (path method : string) : bool :=
  if negb (String.eqb method "GET") then false
  else if negb (Httpd_CanSerialize path) then false
  else
    let tokenurl := StrTokenize path "/" in
    if (length tokenurl <? 3)%nat then false
    else if String.eqb (token tokenurl 1) "alerts" then
      if String.eqb (Httpd_StripSuffix (token tokenurl 2)) "definitions" then true
      else if String.eqb (Httpd_StripSuffix (token tokenurl 2)) "all_alerts" then true
      else if String.eqb (token tokenurl 2) "last-time" then
        if (length tokenurl <? 5)%nat then false
        else if Httpd_CanSerialize (token tokenurl 4) then true else false
      else false
    else false.
End HttpdVerify.

(** ** Predicates of further properties *)

(** The containers of the tracker fit together: the list of definitions
    names every stored definition once, in the order of allocation; a ref
    leads to a stored definition that carries this ref; a name is in upper
    case and leads to a ref that is registered. *)
Definition tracker_wf (t : Alertracker) : Prop :=
  alert_defs_vec t = seq 0 (length (arec_store t)) /\
  (forall r p, alert_ref_map t !! r = Some p ->
     exists d, arec_store t !! p = Some d /\ alert_ref d = r) /\
  (forall h r, alert_name_map t !! h = Some r ->
     StrUpper h = h /\ is_Some (alert_ref_map t !! r)).

(** The messages that announce alerts. *)
Definition is_alert_msg (m : string * msgflag) : bool :=
  match m.2 with MSGFLAG_ALERT => true | _ => false end.

Definition alert_messages (bus : list (string * msgflag))
    : list (string * msgflag) :=
  List.filter is_alert_msg bus.

(** The message RaiseAlert sends for an alert. *)
Definition announcement (i : kis_alert_info) : string * msgflag :=
  (info_header i +:+ " " +:+ text i, MSGFLAG_ALERT).

(** Stand-ins for [StrTokenize] and [sscanf] on the one alert line
    "ProbeFlood,5/min,2/sec". *)
Definition line_probeflood : string := "ProbeFlood,5/min,2/sec".

Definition tokenize_probeflood (s sep : string) : list string :=
  if String.eqb sep "," then ["ProbeFlood"; "5/min"; "2/sec"]%string
  else if String.eqb s "5/min" then ["5"; "min"]%string
  else ["2"; "sec"]%string.

Definition scan_probeflood (s : string) : option Z :=
  if String.eqb s "5" then Some 5
  else if String.eqb s "2" then Some 2
  else if String.eqb s "100" then Some 100
  else None.

Definition fresh_conf_rec : alert_conf_rec := Build_conf_rec "" 0 0 0 0.

(** The configuration after the one alert line was read, on the tracker
    without definitions. *)
Definition config_probeflood : AlertConfig :=
  Build_config (empty_tracker 50)
    {[ "probeflood"%string :=
         Build_conf_rec "probeflood" sat_minute 5 sat_second 2 ]} 0.

(** The map of configured alerts after one more line was read. *)
Definition add_conf_line (StrTokenize : string -> string -> list string)
    (sscanf_d : string -> option Z) (fresh : alert_conf_rec)
    (m : gmap string alert_conf_rec) (line : string)
    : gmap string alert_conf_rec :=
  match ParseAlertStr StrTokenize sscanf_d line with
  | Some o =>
      <[StrLower (conf_header (conf_rec_written fresh o)) :=
          conf_rec_written fresh o]> m
  | None => m
  end.

(** The line parses, with its five values. *)
Definition line_parses (StrTokenize : string -> string -> list string)
    (sscanf_d : string -> option Z) (line : string) : Prop :=
  exists o, ParseAlertStr StrTokenize sscanf_d line = Some o /\ as_ret o = 1.

(** * uuid (uuid.h)

    The fields are unsigned integers of 32, 16, 16 and 16 bits and six
    bytes; [error] is an [int]. *)

Record uuid := Build_uuid {
  time_low : Z;
  time_mid : Z;
  time_hi : Z;
  clock_seq : Z;
  node : list Z;
  error : Z
}.

(** [uuid()] *)
Definition uuid_zero : uuid := Build_uuid 0 0 0 0 [0; 0; 0; 0; 0; 0] 0.

(** [memcmp(a, b, n)] on bytes, as far as its users look at it: negative,
    zero or positive as the first [n] bytes of [a] are below, equal to or
    above those of [b]. *)
Fixpoint memcmp (a b : list Z) (n : nat) : Z :=
  match n with
  | O => 0
  | S n =>
      match a, b with
      | x :: a, y :: b =>
          if x <? y then -1 else if y <? x then 1 else memcmp a b n
      | _, _ => 0
      end
  end.

(** [operator==] *)
Definition uuid_eq (u op : uuid) : bool :=
  if negb (time_low u =? time_low op) then false
  else if negb (time_mid u =? time_mid op) then false
  else if negb (time_hi u =? time_hi op) then false
  else if negb (clock_seq u =? clock_seq op) then false
  else if negb (memcmp (node u) (node op) 6 =? 0) then false
  else true.

(** [operator!=] *)
Definition uuid_ne (u op : uuid) : bool :=
  if negb (time_low u =? time_low op) then true
  else if negb (time_mid u =? time_mid op) then true
  else if negb (time_hi u =? time_hi op) then true
  else if negb (clock_seq u =? clock_seq op) then true
  else if negb (memcmp (node u) (node op) 6 =? 0) then true
  else false.

(** [operator<=] *)
Definition uuid_le (u op : uuid) : bool :=
  if time_low u <=? time_low op then true
  else if time_mid u <=? time_mid op then true
  else if time_hi u <=? time_hi op then true
  else if clock_seq u <=? clock_seq op then true
  else if memcmp (node u) (node op) 6 <=? 0 then true
  else false.

(** [operator<] *)
Definition uuid_lt (u op : uuid) : bool :=
  if time_low u <? time_low op then true
  else if time_mid u <? time_mid op then true
  else if time_hi u <? time_hi op then true
  else if clock_seq u <? clock_seq op then true
  else if memcmp (node u) (node op) 6 <? 0 then true
  else false.

(** [operator=] *)
Definition uuid_assign (u op : uuid) : uuid :=
  Build_uuid (time_low op) (time_mid op) (time_hi op) (clock_seq op)
    (take 6 (node op)) (error op).

(** The variables of [get_clock] that live across its calls. *)
Record clock_state := Build_clock_state {
  adjustment : Z;
  last : timeval;
  static_clock_seq : Z
}.

Definition clock_state_init : clock_state :=
  Build_clock_state 0 (Timeval 0 0) 0.

Definition MAX_ADJUSTMENT : Z := 10.

(** [clock_reg] for the reading [tv] and the adjustment [adj]: 64-bit
    unsigned arithmetic. *)
Definition clock_reg_of (tv : timeval) (adj : Z) : Z :=
  let clock_reg := uint64_wrap (tv_usec tv * 10 + adj) in
  let clock_reg :=
    uint64_wrap (clock_reg + uint64_wrap (uint64_wrap (tv_sec tv) * 10000000)) in
  uint64_wrap (clock_reg + (uint64_wrap (Z.shiftl 0x01B21DD2 32) + 0x13814000)).

(** [get_clock].  [readings] are the answers of [gettimeofday], one for
    each pass through [try_again]; the call has no result when they run
    out.  [rnd] is the two bytes that [get_random_bytes] delivers.  The
    result is [*in_clock_high], [*in_clock_low], [*in_clock_seq], the state
    and the readings left. *)
Fixpoint get_clock (rnd : Z) (readings : list timeval) (st : clock_state)
    : option (Z * Z * Z * clock_state * list timeval) :=
  match readings with
  | [] => None
  | tv :: readings =>
      let st :=
        if ((tv_sec (last st) =? 0) && (tv_usec (last st) =? 0))%bool then
          Build_clock_state (adjustment st)
            (Timeval (tv_sec tv - 1) (tv_usec tv))
            (Z.land (rnd mod 2 ^ 16) 0x3FFF)
        else st in
      let finish (st : clock_state) :=
        let clock_reg := clock_reg_of tv (adjustment st) in
        Some (Z.shiftr clock_reg 32, clock_reg mod 2 ^ 32,
              static_clock_seq st, st, readings) in
      if ((tv_sec tv <? tv_sec (last st))
          || ((tv_sec tv =? tv_sec (last st))
              && (tv_usec tv <? tv_usec (last st))))%bool then
        finish (Build_clock_state 0 tv
                  (Z.land (static_clock_seq st + 1) 0x3FFF))
      else if ((tv_sec tv =? tv_sec (last st))
               && (tv_usec tv =? tv_usec (last st)))%bool then
        if adjustment st >=? MAX_ADJUSTMENT then get_clock rnd readings st
        else finish (Build_clock_state (adjustment st + 1) (last st)
                       (static_clock_seq st))
      else
        finish (Build_clock_state 0 tv (static_clock_seq st))
  end.

(** Whether a pass of [get_clock] that starts in state [st] and reads [tv]
    ends at [goto try_again]: the state is not the initial one, the clock
    shows the time of the last call again, and the adjustments are used
    up. *)
Definition try_again (st : clock_state) (tv : timeval) : bool :=
  (negb ((tv_sec (last st) =? 0) && (tv_usec (last st) =? 0))
   && ((tv_sec tv =? tv_sec (last st)) && (tv_usec tv =? tv_usec (last st)))
   && (adjustment st >=? MAX_ADJUSTMENT))%bool.

(** [GenerateTimeUUID(in_node)] on the uuid [u]. *)
Definition GenerateTimeUUID (u : uuid) (in_node : list Z) (rnd : Z)
    (readings : list timeval) (st : clock_state)
    : option (uuid * clock_state * list timeval) :=
  '(clock_mid, tl, cs, st, readings) ← get_clock rnd readings st;
  let cs := Z.lor cs 0x8000 in
  let tmid := clock_mid mod 2 ^ 16 in
  let thi := Z.lor (Z.land (Z.shiftr clock_mid 16) 0x0FFF) 0x1000 in
  Some (Build_uuid tl tmid thi cs (take 6 in_node) (error u), st, readings).

(** [printf("%x")]: the hexadecimal digits of [n], the first one not 0
    unless [n] is 0. *)
Definition hex_digit (d : Z) : ascii :=
  match d with
  | 0 => "0" | 1 => "1" | 2 => "2" | 3 => "3" | 4 => "4" | 5 => "5"
  | 6 => "6" | 7 => "7" | 8 => "8" | 9 => "9" | 10 => "a" | 11 => "b"
  | 12 => "c" | 13 => "d" | 14 => "e" | _ => "f"
  end%char.

Fixpoint hex_digits_rev (fuel : nat) (n : Z) : list ascii :=
  match fuel with
  | O => []
  | S fuel =>
      hex_digit (n mod 16) ::
      (if n / 16 =? 0 then [] else hex_digits_rev fuel (n / 16))
  end.

(** [printf("%0<w>x")] of an unsigned value of at most 64 bits. *)
Definition printf_0x (w : nat) (n : Z) : list ascii :=
  let ds := rev (hex_digits_rev 16 n) in
  replicate (w - length ds) "0"%char ++ ds.

(** [UUID2String]: the format
    "%08x-%04x-%04x-%04x-%02x%02x%02x%02x%02x%02x" in a buffer of 38. *)
Definition UUID2String (u : uuid) : string :=
  let n k := default 0 (node u !! k) in
  String.string_of_list_ascii
    (take 37
       (printf_0x 8 (time_low u) ++ ["-"%char] ++
        printf_0x 4 (time_mid u) ++ ["-"%char] ++
        printf_0x 4 (time_hi u) ++ ["-"%char] ++
        printf_0x 4 (clock_seq u) ++ ["-"%char] ++
        printf_0x 2 (n 0%nat) ++ printf_0x 2 (n 1%nat) ++ printf_0x 2 (n 2%nat) ++
        printf_0x 2 (n 3%nat) ++ printf_0x 2 (n 4%nat) ++ printf_0x 2 (n 5%nat))).

(** The fields of [u] are within their types. *)
Definition uuid_in_range (u : uuid) : Prop :=
  0 <= time_low u < 2 ^ 32 /\ 0 <= time_mid u < 2 ^ 16 /\
  0 <= time_hi u < 2 ^ 16 /\ 0 <= clock_seq u < 2 ^ 16 /\
  length (node u) = 6%nat /\ Forall (fun b => 0 <= b < 2 ^ 8) (node u).

(** A reading of a clock after the epoch, with its microseconds below one
    second. *)
Definition timeval_normal (tv : timeval) : Prop :=
  0 < tv_sec tv < 2 ^ 32 /\ 0 <= tv_usec tv < 1000000.

(** The microseconds since the epoch that [tv] stands for. *)
Definition usec_of (tv : timeval) : Z := tv_sec tv * 1000000 + tv_usec tv.

(** * capture_pcapfile.c: the pace of a replay

    The part of [pcap_dispatch_cb] before the packet is handed on: what it
    computes for [delay_usec], an [unsigned long], and what it leaves in
    [last_ts]; [usleep] is called when the delay is not 0. *)

Record local_pcap_t := Build_local_pcap {
  realtime : Z;
  last_ts : timeval
}.

Definition replay_delay (local_pcap : local_pcap_t) (ts : timeval)
    : Z * local_pcap_t :=
  if realtime local_pcap =? 0 then (0, local_pcap)
  else
    let delay_usec :=
      if ((tv_sec (last_ts local_pcap) =? 0)
          && (tv_usec (last_ts local_pcap) =? 0))%bool then 0
      else
        let delay_usec :=
          if tv_sec ts <? tv_sec (last_ts local_pcap) then 0
          else uint64_wrap ((tv_sec ts - tv_sec (last_ts local_pcap)) * 1000000) in
        if tv_usec ts <? tv_usec (last_ts local_pcap) then
          uint64_wrap (delay_usec
                       + ((1000000 - tv_usec (last_ts local_pcap)) + tv_usec ts))
        else
          uint64_wrap (delay_usec + (tv_usec ts - tv_usec (last_ts local_pcap)))
    in
    (delay_usec, Build_local_pcap (realtime local_pcap) ts).

(** How many of the calls returned 1. *)
Definition count_created (rets : list Z) : nat :=
  length (filter (fun r => r = 1) rets).

(** The number that hexadecimal digits stand for (what reads back a field
    of the text of a uuid). *)
Definition hex_value (c : ascii) : Z :=
  match c with
  | "0" => 0 | "1" => 1 | "2" => 2 | "3" => 3 | "4" => 4 | "5" => 5
  | "6" => 6 | "7" => 7 | "8" => 8 | "9" => 9 | "a" => 10 | "b" => 11
  | "c" => 12 | "d" => 13 | "e" => 14 | "f" => 15 | _ => 0
  end%char.

Definition hex_number (l : list ascii) : Z :=
  foldl (fun acc c => acc * 16 + hex_value c) 0 l.

(** * Properties *)

(** ** The probe: what CheckTimes may change *)

Lemma CheckTimes_counters d now :
  counters_kept_or_reset d (CheckTimes d now).2.
Proof.
  unfold CheckTimes, counters_kept_or_reset.
  repeat case_match; simpl; tauto.
Qed.

Lemma reset_by_nil d : reset_by [] d = d.
Proof. reflexivity. Qed.

(** One more probe of a definition, before the others. *)
Lemma reset_by_cons now nows d :
  reset_by nows (CheckTimes d now).2 = reset_by (now :: nows) d.
Proof.
  unfold reset_by. cbn [existsb].
  assert (Hb : burst_passed (CheckTimes d now).2 = burst_passed d).
  { unfold burst_passed.
    pose proof (CheckTimes_counters d now) as (_&_&_&_& -> & -> & -> &_&->&_).
    reflexivity. }
  assert (Hs : sustained_passed (CheckTimes d now).2 = sustained_passed d).
  { unfold sustained_passed.
    pose proof (CheckTimes_counters d now) as (_&_&_&_& -> & -> &_&_&->&_).
    reflexivity. }
  rewrite Hb, Hs.
  generalize (existsb (burst_passed d) nows) (existsb (sustained_passed d) nows).
  intros eb es. unfold burst_passed, sustained_passed, CheckTimes.
  destruct (limit_rate d =? 0); cbn [negb andb orb]; [reflexivity|].
  destruct (time_last d <? tv_sec now - conv_at (limit_unit d)); cbn [negb andb orb snd].
  { destruct d, eb, es; reflexivity. }
  destruct (time_last d <? tv_sec now - conv_at (burst_unit d)); cbn [negb andb orb];
    match goal with |- context [under_limits ?x] => destruct (under_limits x) end;
    destruct d, eb, es; reflexivity.
Qed.

Lemma PotentialAlert_fields r now t :
  let t' := (PotentialAlert r now t).2 in
  next_alert_id t' = next_alert_id t /\ num_backlog t' = num_backlog t /\
  alert_name_map t' = alert_name_map t /\ alert_ref_map t' = alert_ref_map t /\
  alert_defs_vec t' = alert_defs_vec t /\ alert_backlog t' = alert_backlog t /\
  messagebus t' = messagebus t /\ freed_alert_used t' = freed_alert_used t.
Proof.
  unfold PotentialAlert. repeat case_match; simpl; tauto.
Qed.

Lemma probes_of_cons t q r now calls :
  probes_of t q ((r, now) :: calls) =
    if decide (alert_ref_map t !! r = Some q) then now :: probes_of t q calls
    else probes_of t q calls.
Proof. unfold probes_of. simpl. now case_decide. Qed.

(** A probe changes the definition its ref leads to, by CheckTimes, and no
    other. *)
Lemma PotentialAlert_lookup r now t q :
  arec_store (PotentialAlert r now t).2 !! q =
    (fun d => if decide (alert_ref_map t !! r = Some q)
              then (CheckTimes d now).2 else d) <$> arec_store t !! q.
Proof.
  unfold PotentialAlert.
  destruct (decide (alert_ref_map t !! r = Some q)) as [Hq|Hq].
  - rewrite Hq. destruct (arec_store t !! q) as [d|] eqn:Hp;
      [|simpl; now rewrite Hp].
    cbn [fmap option_fmap option_map].
    destruct (CheckTimes d now) as [v d'] eqn:Hc. cbn [snd arec_store set_arec].
    apply list_lookup_insert_eq. eapply lookup_lt_Some; eauto.
  - destruct (alert_ref_map t !! r) as [p|] eqn:Hr;
      [|cbn [snd]; now destruct (arec_store t !! q)].
    destruct (arec_store t !! p) as [d|] eqn:Hp;
      [|cbn [snd]; now destruct (arec_store t !! q)].
    destruct (CheckTimes d now) as [v d'] eqn:Hc. cbn [snd arec_store set_arec].
    rewrite list_lookup_insert_ne by congruence.
    now destruct (arec_store t !! q).
Qed.

(** C1, as the code has it: however many probes are made, and with
    whatever refs and clock readings, the maps, the backlog, the message
    bus and the rest of the tracker are afterwards what they were, and so is
    every definition that no probe was for.  Of a definition that was
    probed, [time_last], the limits and the units are unchanged;
    [total_sent] is 0 if the definition is rate-limited and at one of its
    probes more than its sustained window had passed since [time_last], and
    unchanged otherwise; [burst_sent] is 0 if it is rate-limited and at one
    of its probes more than its sustained or its burst window had passed,
    and unchanged otherwise. *)
Theorem probes_keep_all_but_reset_counters (t : Alertracker)
    (calls : list (Z * timeval)) :
  let t' := probes t calls in
  next_alert_id t' = next_alert_id t /\ num_backlog t' = num_backlog t /\
  alert_name_map t' = alert_name_map t /\ alert_ref_map t' = alert_ref_map t /\
  alert_defs_vec t' = alert_defs_vec t /\ alert_backlog t' = alert_backlog t /\
  messagebus t' = messagebus t /\ freed_alert_used t' = freed_alert_used t /\
  arec_store t' =
    imap (fun q d => reset_by (probes_of t q calls) d) (arec_store t).
Proof.
  unfold probes. revert t.
  induction calls as [|[r now] calls IH]; intros t; cbn [foldl fst snd].
  - repeat split. symmetry. apply list_eq. intros q.
    rewrite list_lookup_imap. now destruct (arec_store t !! q).
  - destruct (PotentialAlert_fields r now t)
      as (E1 & E2 & E3 & E4 & E5 & E6 & E7 & E8).
    destruct (IH (PotentialAlert r now t).2)
      as (H1 & H2 & H3 & H4 & H5 & H6 & H7 & H8 & H9).
    cbv zeta in *.
    split; [congruence|]. split; [congruence|]. split; [congruence|].
    split; [congruence|]. split; [congruence|]. split; [congruence|].
    split; [congruence|]. split; [congruence|].
    rewrite H9. apply list_eq. intros q.
    rewrite !list_lookup_imap, PotentialAlert_lookup, probes_of_cons.
    assert (E : probes_of (PotentialAlert r now t).2 q calls = probes_of t q calls)
      by (unfold probes_of; now rewrite E4).
    rewrite E.
    destruct (arec_store t !! q) as [d|]; [|reflexivity].
    cbn [fmap option_fmap option_map]. f_equal.
    case_decide; [apply reset_by_cons | reflexivity].
Qed.

(** C1, as the spec states it, fails: after one accepted alert at second
    1000 a probe at second 2000 answers 1 and sets [total_sent] and
    [burst_sent] of the registered definition from 1 back to 0. *)
Lemma probe_resets_counters :
  alert_ref_map tracker_raised_once !! 0 = Some 0%nat /\
  (arec_store tracker_raised_once !! 0%nat
     ≫= fun d => Some (total_sent d, burst_sent d, time_last d))
    = Some (1, 1, 1000) /\
  (PotentialAlert 0 (Timeval 2000 0) tracker_raised_once).1 = 1 /\
  (arec_store (PotentialAlert 0 (Timeval 2000 0) tracker_raised_once).2 !! 0%nat
     ≫= fun d => Some (total_sent d, burst_sent d, time_last d))
    = Some (0, 0, 1000).
Proof. vm_compute. repeat split. Qed.

(** ** The two windows of CheckTimes *)

Lemma CheckTimes_unlimited d now : limit_rate d = 0 -> CheckTimes d now = (1, d).
Proof. intros H. unfold CheckTimes. now rewrite H. Qed.

Lemma CheckTimes_sustained_elapsed d now :
  limit_rate d <> 0 ->
  time_last d < tv_sec now - conv_at (limit_unit d) ->
  CheckTimes d now = (1, set_burst_sent 0 (set_total_sent 0 d)).
Proof.
  intros Hr He. unfold CheckTimes.
  destruct (Z.eqb_spec (limit_rate d) 0); [contradiction|].
  destruct (Z.ltb_spec (time_last d) (tv_sec now - conv_at (limit_unit d)));
    [reflexivity | lia].
Qed.

Lemma CheckTimes_within_sustained d now :
  limit_rate d <> 0 ->
  tv_sec now - conv_at (limit_unit d) <= time_last d ->
  CheckTimes d now =
    if time_last d <? tv_sec now - conv_at (burst_unit d)
    then (verdict (set_burst_sent 0 d), set_burst_sent 0 d)
    else (verdict d, d).
Proof.
  intros Hr He. unfold CheckTimes, verdict.
  destruct (Z.eqb_spec (limit_rate d) 0); [contradiction|].
  destruct (Z.ltb_spec (time_last d) (tv_sec now - conv_at (limit_unit d)));
    [lia|].
  destruct (time_last d <? tv_sec now - conv_at (burst_unit d));
    match goal with |- context [under_limits ?x] => destruct (under_limits x) end;
    reflexivity.
Qed.

(** C2, as the code has it: for a definition with a sustained limit, the
    sustained window resets both counters and allows the alert exactly when
    strictly more than the duration of the sustained unit has passed since
    [time_last]; otherwise the burst counter is reset exactly when strictly
    more than the duration of the burst unit has passed.  With a burst unit
    of one second, a call exactly 1 second after [time_last] resets nothing,
    and a call more than 1 second after it (within the sustained window) is
    allowed when [total_sent] is under its limit and the burst limit is
    positive. *)
Theorem CheckTimes_windows_strict (d : tracked_alert_definition) (now : timeval) :
  limit_rate d <> 0 ->
  (tv_sec now - time_last d > conv_at (limit_unit d) ->
     CheckTimes d now = (1, set_burst_sent 0 (set_total_sent 0 d))) /\
  (tv_sec now - time_last d <= conv_at (limit_unit d) ->
   tv_sec now - time_last d > conv_at (burst_unit d) ->
     CheckTimes d now = (verdict (set_burst_sent 0 d), set_burst_sent 0 d)) /\
  (tv_sec now - time_last d <= conv_at (limit_unit d) ->
   tv_sec now - time_last d <= conv_at (burst_unit d) ->
     CheckTimes d now = (verdict d, d)) /\
  (burst_unit d = sat_second ->
   tv_sec now - time_last d = 1 ->
   1 <= conv_at (limit_unit d) ->
     CheckTimes d now = (verdict d, d)) /\
  (burst_unit d = sat_second ->
   1 < tv_sec now - time_last d <= conv_at (limit_unit d) ->
   total_sent d < limit_rate d ->
   0 < limit_burst d ->
     CheckTimes d now = (1, set_burst_sent 0 d)).
Proof.
  intros Hr. repeat split.
  - intros. apply CheckTimes_sustained_elapsed; [assumption | lia].
  - intros H1 H2. rewrite CheckTimes_within_sustained by (assumption || lia).
    destruct (Z.ltb_spec (time_last d) (tv_sec now - conv_at (burst_unit d)));
      [reflexivity | lia].
  - intros H1 H2. rewrite CheckTimes_within_sustained by (assumption || lia).
    destruct (Z.ltb_spec (time_last d) (tv_sec now - conv_at (burst_unit d)));
      [lia | reflexivity].
  - intros Hu H1 H2. rewrite CheckTimes_within_sustained by (assumption || lia).
    rewrite Hu. change (conv_at sat_second) with 1.
    destruct (Z.ltb_spec (time_last d) (tv_sec now - 1)); [lia | reflexivity].
  - intros Hu [H1 H2] Ht Hb.
    rewrite CheckTimes_within_sustained by (assumption || lia).
    rewrite Hu. change (conv_at sat_second) with 1.
    destruct (Z.ltb_spec (time_last d) (tv_sec now - 1)); [|lia].
    unfold verdict, under_limits; simpl. change (uint64_wrap 0) with 0.
    destruct (Z.ltb_spec 0 (limit_burst d)); [|lia].
    destruct (Z.ltb_spec (total_sent d) (limit_rate d)); [reflexivity | lia].
Qed.

Lemma CheckTimes_windows_strict_witness :
  limit_rate def_5m_2s_twice <> 0 /\
  burst_unit def_5m_2s_twice = sat_second /\
  1 < tv_sec (Timeval 1002 0) - time_last def_5m_2s_twice
    <= conv_at (limit_unit def_5m_2s_twice) /\
  total_sent def_5m_2s_twice < limit_rate def_5m_2s_twice /\
  0 < limit_burst def_5m_2s_twice /\
  CheckTimes def_5m_2s_twice (Timeval 1002 0)
    = (1, set_burst_sent 0 def_5m_2s_twice).
Proof.
  assert (Hr : limit_rate def_5m_2s_twice <> 0) by (simpl; lia).
  assert (Hu : burst_unit def_5m_2s_twice = sat_second) by reflexivity.
  assert (Hw : 1 < tv_sec (Timeval 1002 0) - time_last def_5m_2s_twice
               <= conv_at (limit_unit def_5m_2s_twice)) by (vm_compute; split; [reflexivity | discriminate]).
  assert (Ht : total_sent def_5m_2s_twice < limit_rate def_5m_2s_twice) by (simpl; lia).
  assert (Hb : 0 < limit_burst def_5m_2s_twice) by (simpl; lia).
  refine (conj Hr (conj Hu (conj Hw (conj Ht (conj Hb _))))).
  exact (proj2 (proj2 (proj2 (proj2
    (CheckTimes_windows_strict def_5m_2s_twice (Timeval 1002 0) Hr)))) Hu Hw Ht Hb).
Defined.

(** C2, as the spec states it, fails: after two alerts at second 1000 under
    a limit of 5 per minute and 2 per second, a call at second 1001 is
    exactly 1 second after [time_last], which is the duration of the burst
    unit, and [total_sent] = 2 is under its limit of 5; CheckTimes does not
    reset the burst counter and denies the alert, and RaiseAlert returns 0. *)
Lemma one_second_later_is_denied :
  alert_ref_map tracker_raised_twice !! 0 = Some 0%nat /\
  arec_store tracker_raised_twice !! 0%nat = Some def_5m_2s_twice /\
  tv_sec (Timeval 1001 0) - time_last def_5m_2s_twice
    >= conv_at (burst_unit def_5m_2s_twice) /\
  total_sent def_5m_2s_twice < limit_rate def_5m_2s_twice /\
  CheckTimes def_5m_2s_twice (Timeval 1001 0) = (0, def_5m_2s_twice) /\
  (RaiseAlert_call 0 (call_at 1001) tracker_raised_twice).1.1 = 0.
Proof. vm_compute. repeat split; discriminate. Qed.

(** ** RaiseAlert, case by case *)

Lemma CheckTimes_denied d now :
  (CheckTimes d now).1 <> 1 ->
  limit_rate d <> 0 /\
  tv_sec now - conv_at (limit_unit d) <= time_last d /\
  (CheckTimes d now).2 =
    if time_last d <? tv_sec now - conv_at (burst_unit d)
    then set_burst_sent 0 d else d.
Proof.
  intros Hv.
  destruct (Z.eq_dec (limit_rate d) 0) as [Hr|Hr].
  { rewrite CheckTimes_unlimited in Hv by assumption. simpl in Hv. lia. }
  destruct (Z.lt_ge_cases (time_last d) (tv_sec now - conv_at (limit_unit d)))
    as [He|He].
  { rewrite CheckTimes_sustained_elapsed in Hv by assumption. simpl in Hv. lia. }
  rewrite CheckTimes_within_sustained by assumption.
  repeat split; try assumption. now case_match.
Qed.

Lemma RaiseAlert_unfold ref c t p d :
  alert_ref_map t !! ref = Some p ->
  arec_store t !! p = Some d ->
  RaiseAlert_call ref c t =
    let chk := CheckTimes d (rc_now c) in
    if negb (chk.1 =? 1) then (0, set_arec p chk.2 t, rc_pack c)
    else
      let info :=
        Build_info (header chk.2) (phy chk.2) (rc_tm c) (rc_bssid c)
          (rc_source c) (rc_dest c) (rc_other c) (rc_channel c) (rc_text c) in
      let t1 :=
        push_backlog info
          (set_arec p
             (set_time_last (rc_time0 c)
                (inc_total_sent 1 (inc_burst_sent 1 chk.2))) t) in
      if deletes_pushed t then (1, use_freed_alert t1, rc_pack c)
      else
        (1, MSG (info_header info +:+ " " +:+ text info) MSGFLAG_ALERT t1,
         attach_alert info <$> rc_pack c).
Proof.
  intros Hr Hp. unfold RaiseAlert_call, RaiseAlert. rewrite Hr, Hp.
  now destruct (CheckTimes d (rc_now c)).
Qed.

Lemma RaiseAlert_returns_0 ref c t :
  (RaiseAlert_call ref c t).1.1 = 0 ->
  exists p d, alert_ref_map t !! ref = Some p /\ arec_store t !! p = Some d /\
    (CheckTimes d (rc_now c)).1 <> 1.
Proof.
  unfold RaiseAlert_call, RaiseAlert.
  destruct (alert_ref_map t !! ref) as [p|] eqn:Hr; [|simpl; lia].
  destruct (arec_store t !! p) as [d|] eqn:Hp; [|simpl; lia].
  destruct (CheckTimes d (rc_now c)) as [v d'] eqn:Hc.
  destruct (Z.eqb_spec v 1); simpl; [case_match; simpl; lia|]. intros _.
  exists p, d. rewrite Hc. repeat split; simpl; assumption.
Qed.

Lemma push_backlog_fields info t :
  arec_store (push_backlog info t) = arec_store t /\
  alert_ref_map (push_backlog info t) = alert_ref_map t /\
  alert_name_map (push_backlog info t) = alert_name_map t /\
  alert_defs_vec (push_backlog info t) = alert_defs_vec t /\
  next_alert_id (push_backlog info t) = next_alert_id t /\
  num_backlog (push_backlog info t) = num_backlog t /\
  messagebus (push_backlog info t) = messagebus t /\
  freed_alert_used (push_backlog info t) = freed_alert_used t.
Proof. unfold push_backlog. case_match; simpl; tauto. Qed.

Lemma CheckTimes_header d now :
  header (CheckTimes d now).2 = header d /\ phy (CheckTimes d now).2 = phy d.
Proof.
  pose proof (CheckTimes_counters d now) as H.
  unfold counters_kept_or_reset in H. tauto.
Qed.

(** What RaiseAlert does when CheckTimes allows the alert. *)
Lemma RaiseAlert_accepted ref c t p d :
  alert_ref_map t !! ref = Some p ->
  arec_store t !! p = Some d ->
  (CheckTimes d (rc_now c)).1 = 1 ->
  let t' := (RaiseAlert_call ref c t).1.2 in
  let d1 := set_time_last (rc_time0 c)
              (inc_total_sent 1 (inc_burst_sent 1 (CheckTimes d (rc_now c)).2)) in
  let info := Build_info (header d) (phy d) (rc_tm c) (rc_bssid c)
                (rc_source c) (rc_dest c) (rc_other c) (rc_channel c) (rc_text c) in
  (RaiseAlert_call ref c t).1.1 = 1 /\
  raised_info ref c t = Some info /\
  arec_store t' = <[p := d1]> (arec_store t) /\
  alert_ref_map t' = alert_ref_map t /\
  alert_name_map t' = alert_name_map t /\
  alert_defs_vec t' = alert_defs_vec t /\
  next_alert_id t' = next_alert_id t /\
  num_backlog t' = num_backlog t /\
  alert_backlog t' =
    alert_backlog (push_backlog info (set_backlog (alert_backlog t) t)) /\
  messagebus t' =
    (if deletes_pushed t then messagebus t
     else messagebus t ++ [(header d +:+ " " +:+ rc_text c, MSGFLAG_ALERT)]) /\
  (RaiseAlert_call ref c t).2 =
    (if deletes_pushed t then rc_pack c else attach_alert info <$> rc_pack c) /\
  freed_alert_used t' = (deletes_pushed t || freed_alert_used t)%bool.
Proof.
  intros Hr Hp Hv. rewrite (RaiseAlert_unfold _ _ _ _ _ Hr Hp). cbv zeta.
  rewrite Hv. change (negb (1 =? 1)) with false. cbv iota.
  destruct (CheckTimes_header d (rc_now c)) as [-> ->].
  unfold raised_info. rewrite Hr. simpl. rewrite Hp. simpl.
  destruct (deletes_pushed t); simpl;
    match goal with |- context [push_backlog ?i ?tt] =>
      destruct (push_backlog_fields i tt) as (E1 & E2 & E3 & E4 & E5 & E6 & E7 & E8)
    end;
    rewrite ?E1, ?E2, ?E3, ?E4, ?E5, ?E6, ?E7, ?E8;
    simpl; repeat split; unfold push_backlog; simpl; now case_match.
Qed.

(** What RaiseAlert does when CheckTimes denies the alert. *)
Lemma RaiseAlert_denied ref c t p d :
  alert_ref_map t !! ref = Some p ->
  arec_store t !! p = Some d ->
  (CheckTimes d (rc_now c)).1 <> 1 ->
  RaiseAlert_call ref c t =
    (0, set_arec p (CheckTimes d (rc_now c)).2 t, rc_pack c).
Proof.
  intros Hr Hp Hv. rewrite (RaiseAlert_unfold _ _ _ _ _ Hr Hp). cbv zeta.
  now destruct (Z.eqb_spec (CheckTimes d (rc_now c)).1 1).
Qed.

(** C4, as the code has it: when RaiseAlert returns 0 the ref is registered,
    no alert is built (the caller's packet is as it was), the backlog, the
    message bus, the maps and the next ref are unchanged, and so is every
    definition but the one raised; of that one [total_sent], [time_last] and
    the limits are unchanged, and [burst_sent] is unchanged unless the burst
    window has passed since [time_last], in which case it is reset to 0. *)
Theorem RaiseAlert_suppressed_frame (ref : Z) (c : raise_call) (t : Alertracker) :
  (RaiseAlert_call ref c t).1.1 = 0 ->
  exists p d,
    alert_ref_map t !! ref = Some p /\ arec_store t !! p = Some d /\
    let t' := (RaiseAlert_call ref c t).1.2 in
    let d' := if time_last d <? tv_sec (rc_now c) - conv_at (burst_unit d)
              then set_burst_sent 0 d else d in
    (RaiseAlert_call ref c t).2 = rc_pack c /\
    alert_backlog t' = alert_backlog t /\
    messagebus t' = messagebus t /\
    alert_name_map t' = alert_name_map t /\
    alert_ref_map t' = alert_ref_map t /\
    alert_defs_vec t' = alert_defs_vec t /\
    next_alert_id t' = next_alert_id t /\
    arec_store t' = <[p := d']> (arec_store t) /\
    total_sent d' = total_sent d /\ time_last d' = time_last d /\
    limit_rate d' = limit_rate d /\ limit_burst d' = limit_burst d /\
    (burst_sent d' = burst_sent d \/
     burst_sent d' = 0 /\
     time_last d < tv_sec (rc_now c) - conv_at (burst_unit d)).
Proof.
  intros H0.
  destruct (RaiseAlert_returns_0 _ _ _ H0) as (p & d & Hr & Hp & Hv).
  exists p, d. split; [assumption|]. split; [assumption|].
  rewrite (RaiseAlert_unfold _ _ _ _ _ Hr Hp). cbv zeta.
  destruct (CheckTimes_denied _ _ Hv) as (_ & _ & Hd).
  destruct (Z.eqb_spec (CheckTimes d (rc_now c)).1 1); [contradiction|].
  simpl. rewrite Hd.
  destruct (Z.ltb_spec (time_last d) (tv_sec (rc_now c) - conv_at (burst_unit d)));
    simpl; repeat split; auto.
Qed.

Lemma RaiseAlert_suppressed_frame_witness :
  (RaiseAlert_call 0 (call_at 1002) tracker_1m_1s_raised).1.1 = 0 /\
  exists p d,
    alert_ref_map tracker_1m_1s_raised !! 0 = Some p /\
    arec_store tracker_1m_1s_raised !! p = Some d /\
    alert_backlog (RaiseAlert_call 0 (call_at 1002) tracker_1m_1s_raised).1.2
      = alert_backlog tracker_1m_1s_raised.
Proof.
  assert (H0 : (RaiseAlert_call 0 (call_at 1002) tracker_1m_1s_raised).1.1 = 0)
    by (vm_compute; reflexivity).
  refine (conj H0 _).
  destruct (RaiseAlert_suppressed_frame 0 (call_at 1002) tracker_1m_1s_raised H0)
    as (p & d & Hr & Hp & _ & Hb & _).
  exists p, d. exact (conj Hr (conj Hp Hb)).
Defined.

(** C4, as the spec states it, fails: under a limit of 1 per minute and 1
    per second, with one alert sent at second 1000, RaiseAlert at second
    1002 returns 0 and leaves the backlog and the message bus alone, but
    [burst_sent] of the definition goes from 1 to 0. *)
Lemma suppressed_raise_resets_burst :
  alert_ref_map tracker_1m_1s_raised !! 0 = Some 0%nat /\
  (arec_store tracker_1m_1s_raised !! 0%nat
     ≫= fun d => Some (total_sent d, burst_sent d, time_last d))
    = Some (1, 1, 1000) /\
  (RaiseAlert_call 0 (call_at 1002) tracker_1m_1s_raised).1.1 = 0 /\
  (arec_store (RaiseAlert_call 0 (call_at 1002) tracker_1m_1s_raised).1.2 !! 0%nat
     ≫= fun d => Some (total_sent d, burst_sent d, time_last d))
    = Some (1, 0, 1000).
Proof. vm_compute. repeat split. Qed.

(** ** Definitions without a sustained limit *)

Lemma uint64_wrap_id z : is_uint64 z -> uint64_wrap z = z.
Proof. unfold is_uint64, uint64_wrap. intros. now apply Z.mod_small. Qed.

Lemma RaiseAlert_unlimited ref c t p d :
  alert_ref_map t !! ref = Some p ->
  arec_store t !! p = Some d ->
  limit_rate d = 0 ->
  let t' := (RaiseAlert_call ref c t).1.2 in
  (RaiseAlert_call ref c t).1.1 = 1 /\
  alert_ref_map t' = alert_ref_map t /\
  arec_store t' =
    <[p := set_time_last (rc_time0 c) (inc_total_sent 1 (inc_burst_sent 1 d))]>
      (arec_store t).
Proof.
  intros Hr Hp Hl. rewrite (RaiseAlert_unfold _ _ _ _ _ Hr Hp).
  rewrite CheckTimes_unlimited by assumption. cbn.
  destruct (deletes_pushed t); unfold push_backlog; now case_match.
Qed.

Lemma raise_all_unlimited ref calls : forall t p d,
  alert_ref_map t !! ref = Some p ->
  arec_store t !! p = Some d ->
  limit_rate d = 0 ->
  (raise_all ref calls t).1 = replicate (length calls) 1 /\
  exists d',
    arec_store (raise_all ref calls t).2 !! p = Some d' /\
    limit_rate d' = 0 /\
    uint64_wrap (total_sent d') =
      uint64_wrap (total_sent d + Z.of_nat (length calls)) /\
    uint64_wrap (burst_sent d') =
      uint64_wrap (burst_sent d + Z.of_nat (length calls)) /\
    (calls <> [] -> is_uint64 (total_sent d') /\ is_uint64 (burst_sent d')).
Proof.
  induction calls as [|c calls IH]; intros t p d Hr Hp Hl.
  - simpl. split; [reflexivity|]. exists d.
    rewrite !Z.add_0_r. repeat split; try assumption; congruence.
  - destruct (RaiseAlert_unlimited ref c t p d Hr Hp Hl) as (H1 & Hm & Hs).
    cbn [raise_all fst snd length replicate]. rewrite H1.
    set (d1 := set_time_last (rc_time0 c) (inc_total_sent 1 (inc_burst_sent 1 d))) in *.
    assert (Hp1 : arec_store (RaiseAlert_call ref c t).1.2 !! p = Some d1).
    { rewrite Hs. apply list_lookup_insert_eq. eapply lookup_lt_Some; eauto. }
    assert (Hr1 : alert_ref_map (RaiseAlert_call ref c t).1.2 !! ref = Some p)
      by now rewrite Hm.
    destruct (IH _ p d1 Hr1 Hp1 Hl) as (Hrets & d' & Hd' & Hl' & Ht & Hb & Hu).
    split; [now rewrite Hrets|].
    exists d'. split; [assumption|]. split; [assumption|].
    assert (Hw : forall z, uint64_wrap (uint64_wrap (z + 1) + Z.of_nat (length calls))
                 = uint64_wrap (z + Z.of_nat (S (length calls)))).
    { intros z. unfold uint64_wrap. rewrite Zplus_mod_idemp_l. f_equal. lia. }
    split; [rewrite Ht; subst d1; simpl; apply Hw|].
    split; [rewrite Hb; subst d1; simpl; apply Hw|].
    intros _. destruct calls as [|c' calls']; [|apply Hu; discriminate].
    simpl in Hd'. rewrite Hp1 in Hd'. injection Hd' as <-. subst d1; simpl.
    unfold is_uint64, uint64_wrap. split; apply Z.mod_pos_bound; lia.
Qed.

(** C5, as the code has it: for a definition registered without sustained
    limit ([limit_rate] = 0), CheckTimes allows every alert and changes
    nothing, and every call of RaiseAlert returns 1, however many calls are
    made and whatever the clock reads; each of these calls adds 1 to
    [total_sent] and to [burst_sent] (wrapping at 2^64) and sets
    [time_last]. *)
Theorem unlimited_always_created (ref : Z) (calls : list raise_call)
    (t : Alertracker) (p : nat) (d : tracked_alert_definition) :
  alert_ref_map t !! ref = Some p ->
  arec_store t !! p = Some d ->
  limit_rate d = 0 ->
  is_uint64 (total_sent d) -> is_uint64 (burst_sent d) ->
  (forall now, CheckTimes d now = (1, d)) /\
  (forall c,
     (RaiseAlert_call ref c t).1.1 = 1 /\
     arec_store (RaiseAlert_call ref c t).1.2 !! p =
       Some (set_time_last (rc_time0 c)
               (inc_total_sent 1 (inc_burst_sent 1 d)))) /\
  (raise_all ref calls t).1 = replicate (length calls) 1 /\
  exists d',
    arec_store (raise_all ref calls t).2 !! p = Some d' /\
    limit_rate d' = 0 /\
    total_sent d' = uint64_wrap (total_sent d + Z.of_nat (length calls)) /\
    burst_sent d' = uint64_wrap (burst_sent d + Z.of_nat (length calls)).
Proof.
  intros Hr Hp Hl Ht Hb.
  split; [intros; now apply CheckTimes_unlimited|].
  split.
  { intros c. destruct (RaiseAlert_unlimited ref c t p d Hr Hp Hl) as (H1 & _ & ->).
    split; [exact H1|]. apply list_lookup_insert_eq. eapply lookup_lt_Some; eauto. }
  destruct (raise_all_unlimited ref calls t p d Hr Hp Hl)
    as (Hrets & d' & Hd' & Hl' & Ht' & Hb' & Hu).
  split; [assumption|]. exists d'. repeat split; try assumption.
  - rewrite <- Ht'. symmetry. apply uint64_wrap_id.
    destruct calls; [|apply Hu; discriminate].
    simpl in Hd'. congruence.
  - rewrite <- Hb'. symmetry. apply uint64_wrap_id.
    destruct calls; [|apply Hu; discriminate].
    simpl in Hd'. congruence.
Qed.

Lemma unlimited_always_created_witness :
  (raise_all 0 [call_at 1000; call_at 1000; call_at 1000] tracker_unlimited).1
    = [1; 1; 1] /\
  exists d',
    arec_store
      (raise_all 0 [call_at 1000; call_at 1000; call_at 1000] tracker_unlimited).2
      !! 0%nat = Some d' /\
    total_sent d' = 3.
Proof.
  assert (Hr : alert_ref_map tracker_unlimited !! 0 = Some 0%nat)
    by (vm_compute; reflexivity).
  assert (Hp : arec_store tracker_unlimited !! 0%nat =
               Some (Build_def 0 "KISMET" "Server events" 0 sat_day 0 sat_day 0 0 0 0))
    by (vm_compute; reflexivity).
  destruct (unlimited_always_created 0
              [call_at 1000; call_at 1000; call_at 1000] tracker_unlimited
              0%nat _ Hr Hp eq_refl) as (_ & _ & Hrets & d' & Hd' & _ & Ht & _).
  - unfold is_uint64; simpl; lia.
  - unfold is_uint64; simpl; lia.
  - split; [exact Hrets|]. exists d'. split; [exact Hd'|]. exact Ht.
Defined.

(** C5, as the spec states it, fails in its second half: for the alert
    type registered without limits, the first RaiseAlert returns 1 and
    moves [total_sent] and [burst_sent] from 0 to 1. *)
Lemma unlimited_raise_counts :
  alert_ref_map tracker_unlimited !! 0 = Some 0%nat /\
  (arec_store tracker_unlimited !! 0%nat
     ≫= fun d => Some (limit_rate d, total_sent d, burst_sent d))
    = Some (0, 0, 0) /\
  (RaiseAlert_call 0 (call_at 1000) tracker_unlimited).1.1 = 1 /\
  (arec_store (RaiseAlert_call 0 (call_at 1000) tracker_unlimited).1.2 !! 0%nat
     ≫= fun d => Some (limit_rate d, total_sent d, burst_sent d))
    = Some (0, 1, 1).
Proof. vm_compute. repeat split. Qed.

(** ** RegisterAlert: the two refusals *)

Lemma RegisterAlert_known_header h d u r bu b ph t :
  is_Some (alert_name_map t !! h) ->
  (RegisterAlert h d u r bu b ph t).1 = -1 /\
  registry_unchanged t (RegisterAlert h d u r bu b ph t).2.
Proof.
  intros [x Hx]. unfold RegisterAlert. rewrite Hx. simpl.
  unfold registry_unchanged; simpl; tauto.
Qed.

(** Where the check for duplicates does its work: a header that is its own
    upper-case form is refused the second time. *)
Lemma RegisterAlert_twice_normalized h d u r bu b ph d2 u2 r2 bu2 b2 ph2 t :
  StrUpper h = h ->
  (RegisterAlert h d u r bu b ph t).1 <> -1 ->
  let t1 := (RegisterAlert h d u r bu b ph t).2 in
  (RegisterAlert h d2 u2 r2 bu2 b2 ph2 t1).1 = -1 /\
  registry_unchanged t1 (RegisterAlert h d2 u2 r2 bu2 b2 ph2 t1).2.
Proof.
  intros Hup Hok t1. apply RegisterAlert_known_header.
  subst t1. revert Hok. unfold RegisterAlert.
  destruct (alert_name_map t !! h); [simpl; lia|].
  destruct (clamp_unit bu >? clamp_unit u); [simpl; lia|].
  intros _. simpl. rewrite Hup. rewrite lookup_insert_eq. eauto.
Qed.

(** C6 at the header "probeflood": the first registration returns ref 0
    and files the definition under "PROBEFLOOD"; the second registration of
    the same header looks up "probeflood", finds nothing, returns ref 1 and
    stores a second definition with the header "PROBEFLOOD", to which the
    name is rebound. *)
Theorem RegisterAlert_twice_lowercase :
  tracker_lowercase.1 = 0 /\
  (RegisterAlert "probeflood" "Probe flood" sat_minute 5 sat_second 2 0
     tracker_lowercase.2).1 = 1 /\
  (let t2 := (RegisterAlert "probeflood" "Probe flood" sat_minute 5 sat_second 2 0
                tracker_lowercase.2).2 in
   header <$> arec_store t2 = ["PROBEFLOOD"; "PROBEFLOOD"]%string /\
   alert_ref <$> arec_store t2 = [0; 1] /\
   alert_defs_vec t2 = [0; 1]%nat /\
   alert_name_map tracker_lowercase.2 !! "PROBEFLOOD"%string = Some 0 /\
   alert_name_map t2 !! "PROBEFLOOD"%string = Some 1 /\
   next_alert_id t2 = 2).
Proof. vm_compute. repeat split. Qed.

(** C8: a registration whose burst unit is coarser than its sustained unit,
    both taken after units beyond [sat_day] are brought down to [sat_day],
    returns -1 and creates nothing: the definitions, the two maps, the list
    of definitions and the next ref are what they were. *)
Theorem RegisterAlert_coarser_burst_rejected
    (in_header in_description : string)
    (in_unit in_rate in_burstunit in_burst in_phy : Z) (t : Alertracker) :
  clamp_unit in_burstunit > clamp_unit in_unit ->
  (RegisterAlert in_header in_description in_unit in_rate in_burstunit
     in_burst in_phy t).1 = -1 /\
  registry_unchanged t
    (RegisterAlert in_header in_description in_unit in_rate in_burstunit
       in_burst in_phy t).2.
Proof.
  intros Hc. unfold RegisterAlert.
  destruct (alert_name_map t !! in_header).
  - simpl. unfold registry_unchanged; simpl; tauto.
  - destruct (Z.gtb_spec (clamp_unit in_burstunit) (clamp_unit in_unit)); [|lia].
    simpl. unfold registry_unchanged; simpl; tauto.
Qed.

Lemma RegisterAlert_coarser_burst_rejected_witness :
  clamp_unit 7 > clamp_unit sat_minute /\
  (RegisterAlert "DEAUTHFLOOD" "Deauth flood" sat_minute 5 7 2 0
     tracker_5m_2s).1 = -1 /\
  registry_unchanged tracker_5m_2s
    (RegisterAlert "DEAUTHFLOOD" "Deauth flood" sat_minute 5 7 2 0
       tracker_5m_2s).2.
Proof.
  assert (Hc : clamp_unit 7 > clamp_unit sat_minute) by (vm_compute; reflexivity).
  exact (conj Hc
    (RegisterAlert_coarser_burst_rejected "DEAUTHFLOOD" "Deauth flood"
       sat_minute 5 7 2 0 tracker_5m_2s Hc)).
Defined.

(** ** A sustained limit with a burst limit of 0 *)

Lemma CheckTimes_no_burst d now :
  limit_rate d <> 0 -> limit_burst d = 0 -> 0 <= burst_sent d ->
  tv_sec now - conv_at (limit_unit d) <= time_last d ->
  (CheckTimes d now).1 = 0.
Proof.
  intros Hr Hb Hs He. rewrite CheckTimes_within_sustained by assumption.
  unfold verdict, under_limits.
  destruct (time_last d <? tv_sec now - conv_at (burst_unit d)); simpl;
    rewrite Hb.
  - reflexivity.
  - destruct (Z.ltb_spec (burst_sent d) 0); [lia | reflexivity].
Qed.

(** C10: with a sustained limit, once the sustained window has passed since
    [time_last] (the test of the code: [time_last] is less than the clock
    minus the duration of the sustained unit) CheckTimes resets both
    counters and allows the alert without looking at either limit.  So a
    definition with a sustained limit and a burst limit of 0 is allowed
    exactly when that window has passed; RaiseAlert then returns 1 and
    leaves [burst_sent] = 1, above the burst limit, and [time_last] at the
    time of the call, and it returns 0 for every later call until the window
    has passed again. *)
Theorem sustained_reset_ignores_limits (ref : Z) (c c2 : raise_call)
    (t : Alertracker) (p : nat) (d : tracked_alert_definition) :
  alert_ref_map t !! ref = Some p ->
  arec_store t !! p = Some d ->
  limit_rate d <> 0 ->
  (forall now, time_last d < tv_sec now - conv_at (limit_unit d) ->
     CheckTimes d now = (1, set_burst_sent 0 (set_total_sent 0 d))) /\
  (limit_burst d = 0 -> 0 <= burst_sent d ->
     (forall now, (CheckTimes d now).1 = 1 <->
                  time_last d < tv_sec now - conv_at (limit_unit d)) /\
     (time_last d < tv_sec (rc_now c) - conv_at (limit_unit d) ->
        let t' := (RaiseAlert_call ref c t).1.2 in
        (RaiseAlert_call ref c t).1.1 = 1 /\
        exists d',
          arec_store t' !! p = Some d' /\
          burst_sent d' = 1 /\ total_sent d' = 1 /\
          time_last d' = rc_time0 c /\
          limit_burst d' = 0 /\ burst_sent d' > limit_burst d' /\
          (tv_sec (rc_now c2) - conv_at (limit_unit d) <= rc_time0 c ->
             (RaiseAlert_call ref c2 t').1.1 = 0))).
Proof.
  intros Hr Hp Hl. split.
  { intros now He. now apply CheckTimes_sustained_elapsed. }
  intros Hb Hs. split.
  { intros now. split.
    - intros H1.
      destruct (Z.lt_ge_cases (time_last d) (tv_sec now - conv_at (limit_unit d)));
        [assumption|].
      rewrite CheckTimes_no_burst in H1 by assumption. lia.
    - intros He. now rewrite CheckTimes_sustained_elapsed. }
  intros He.
  assert (Hv : (CheckTimes d (rc_now c)).1 = 1)
    by now rewrite CheckTimes_sustained_elapsed.
  destruct (RaiseAlert_accepted ref c t p d Hr Hp Hv)
    as (H1 & _ & Hst & Hrm & _).
  rewrite CheckTimes_sustained_elapsed in Hst by assumption.
  cbv zeta. split; [assumption|].
  eexists. split.
  { rewrite Hst. apply list_lookup_insert_eq. eapply lookup_lt_Some; eauto. }
  simpl. rewrite Hb. repeat split; try reflexivity.
  intros He2.
  erewrite RaiseAlert_denied; [reflexivity | rewrite Hrm; exact Hr | | ].
  - rewrite Hst. apply list_lookup_insert_eq. eapply lookup_lt_Some; eauto.
  - rewrite CheckTimes_no_burst; simpl; try assumption; try lia.
    vm_compute; discriminate.
Qed.

Lemma sustained_reset_ignores_limits_witness :
  (RaiseAlert_call 0 (call_at 1000) tracker_3m_0s).1.1 = 1 /\
  (RaiseAlert_call 0 (call_at 1030)
     (RaiseAlert_call 0 (call_at 1000) tracker_3m_0s).1.2).1.1 = 0.
Proof.
  assert (Hr : alert_ref_map tracker_3m_0s !! 0 = Some 0%nat)
    by (vm_compute; reflexivity).
  assert (Hp : arec_store tracker_3m_0s !! 0%nat =
               Some (Build_def 0 "NULLBURST" "No burst" 0 sat_minute 3 sat_second 0 0 0 0))
    by (vm_compute; reflexivity).
  assert (Hl : limit_rate
                 (Build_def 0 "NULLBURST" "No burst" 0 sat_minute 3 sat_second 0 0 0 0)
               <> 0) by (simpl; lia).
  destruct (sustained_reset_ignores_limits 0 (call_at 1000) (call_at 1030)
              tracker_3m_0s 0%nat _ Hr Hp Hl) as [_ H].
  destruct (H eq_refl ltac:(simpl; lia)) as [_ H2].
  destruct (H2 ltac:(vm_compute; reflexivity)) as (H1 & d' & _ & _ & _ & _ & _ & _ & H0).
  split; [exact H1|]. apply H0. vm_compute. discriminate.
Defined.

(** ** Counters stay within the limits *)

Lemma uint64_wrap_nonneg z : 0 <= uint64_wrap z.
Proof. unfold uint64_wrap. apply Z.mod_pos_bound. lia. Qed.

Lemma uint64_wrap_inc z l :
  0 <= z -> z < l -> is_uint64 l -> uint64_wrap (z + 1) = z + 1.
Proof. unfold is_uint64. intros. apply Z.mod_small. lia. Qed.

Lemma def_inv_new h d u r bu b ph n :
  def_inv
    (set_time_last 0
       (set_phy ph
          (set_limit_burst b
             (set_burst_unit bu
                (set_limit_rate r
                   (set_limit_unit u
                      (set_description d
                         (set_header h (set_alert_ref n new_alert_definition))))))))).
Proof.
  unfold def_inv, within_limits, is_uint64; simpl.
  pose proof (Z.mod_pos_bound r (2 ^ 64) ltac:(lia)).
  pose proof (Z.mod_pos_bound b (2 ^ 64) ltac:(lia)).
  unfold uint64_wrap. repeat split; lia.
Qed.

Lemma def_inv_CheckTimes d now : def_inv d -> def_inv (CheckTimes d now).2.
Proof.
  unfold def_inv, within_limits, is_uint64, CheckTimes.
  intros (Hr & Hb & Ht & Hs & Hw).
  repeat case_match; simpl; change (uint64_wrap 0) with 0;
    repeat split; try lia; try (intros; apply Hw; assumption).
Qed.

Lemma def_inv_commit d now time0 :
  def_inv d -> (CheckTimes d now).1 = 1 ->
  def_inv (set_time_last time0
             (inc_total_sent 1 (inc_burst_sent 1 (CheckTimes d now).2))).
Proof.
  unfold def_inv, within_limits.
  intros (Hr & Hb & Ht & Hs & Hw) Hv. simpl.
  pose proof (CheckTimes_counters d now) as (_&_&_&_&_& Elr &_& Elb &_).
  rewrite Elr, Elb.
  split; [assumption|]. split; [assumption|].
  split; [apply uint64_wrap_nonneg|]. split; [apply uint64_wrap_nonneg|].
  intros Hn Hnb. split.
  - destruct (Z.lt_ge_cases (time_last d) (tv_sec now - conv_at (limit_unit d))).
    + rewrite CheckTimes_sustained_elapsed by assumption. simpl.
      change (uint64_wrap (uint64_wrap 0 + 1)) with 1. unfold is_uint64 in Hr. lia.
    + rewrite CheckTimes_within_sustained in Hv |- * by assumption.
      unfold verdict, under_limits in Hv.
      destruct (time_last d <? tv_sec now - conv_at (burst_unit d)); simpl in *;
        match type of Hv with (if ?b then _ else _) = _ =>
          destruct b eqn:Hu; [|lia] end;
        apply andb_prop in Hu as [Hu1 Hu2];
        apply Z.ltb_lt in Hu1; apply Z.ltb_lt in Hu2;
        rewrite (uint64_wrap_inc _ (limit_rate d)); lia || assumption.
  - destruct (Z.lt_ge_cases (time_last d) (tv_sec now - conv_at (limit_unit d))).
    + rewrite CheckTimes_sustained_elapsed by assumption. simpl.
      change (uint64_wrap (uint64_wrap 0 + 1)) with 1. unfold is_uint64 in Hb. lia.
    + rewrite CheckTimes_within_sustained in Hv |- * by assumption.
      unfold verdict, under_limits in Hv.
      destruct (time_last d <? tv_sec now - conv_at (burst_unit d)); simpl in *;
        match type of Hv with (if ?b then _ else _) = _ =>
          destruct b eqn:Hu; [|lia] end;
        apply andb_prop in Hu as [Hu1 Hu2];
        apply Z.ltb_lt in Hu1; apply Z.ltb_lt in Hu2.
      * change (uint64_wrap 0) with 0 in *.
        rewrite (uint64_wrap_inc 0 (limit_burst d)); lia || assumption.
      * rewrite (uint64_wrap_inc _ (limit_burst d)); lia || assumption.
Qed.

Lemma step_def_inv t o :
  Forall def_inv (arec_store t) -> Forall def_inv (arec_store (step t o)).
Proof.
  intros Hall. destruct o as [h d u r bu b ph| h | ref now | ref c | pa me ts];
    simpl; try assumption.
  - unfold RegisterAlert. repeat case_match; simpl; try assumption.
    apply Forall_app. split; [assumption|].
    constructor; [apply def_inv_new | constructor].
  - unfold PotentialAlert.
    destruct (alert_ref_map t !! ref) as [p|]; [|assumption].
    destruct (arec_store t !! p) as [d|] eqn:Hp; [|assumption].
    pose proof (def_inv_CheckTimes d now) as Hd.
    destruct (CheckTimes d now) as [v d']. simpl in *.
    apply Forall_insert; [assumption|]. apply Hd.
    eapply Forall_lookup_1; eauto.
  - destruct (alert_ref_map t !! ref) as [p|] eqn:Hr;
      [|unfold RaiseAlert_call, RaiseAlert; now rewrite Hr].
    destruct (arec_store t !! p) as [d|] eqn:Hp;
      [|unfold RaiseAlert_call, RaiseAlert; now rewrite Hr, Hp].
    assert (Hd : def_inv d) by (eapply Forall_lookup_1; eauto).
    destruct (Z.eq_dec (CheckTimes d (rc_now c)).1 1) as [Hv|Hv].
    + destruct (RaiseAlert_accepted ref c t p d Hr Hp Hv) as (_ & _ & -> & _).
      apply Forall_insert; [assumption|]. now apply def_inv_commit.
    + rewrite (RaiseAlert_denied ref c t p d Hr Hp Hv). simpl.
      apply Forall_insert; [assumption|]. now apply def_inv_CheckTimes.
Qed.

Lemma run_def_inv ops : forall t,
  Forall def_inv (arec_store t) -> Forall def_inv (arec_store (run t ops)).
Proof.
  induction ops as [|o ops IH]; intros t H; simpl; [assumption|].
  apply IH, step_def_inv, H.
Qed.

(** C7: after any sequence of registrations, lookups, probes, raises and
    queries on a tracker that starts without definitions, every stored
    definition whose sustained limit and burst limit are both nonzero has
    [total_sent <= limit_rate] and [burst_sent <= limit_burst]. *)
Theorem counters_within_limits (n : Z) (ops : list op) :
  Forall within_limits (arec_store (run (empty_tracker n) ops)).
Proof.
  eapply Forall_impl; [apply run_def_inv; constructor|].
  unfold def_inv. tauto.
Qed.

(** ** The backlog: bounded, first in first out *)

Lemma deletes_pushed_room t : 0 < num_backlog t -> deletes_pushed t = false.
Proof.
  unfold deletes_pushed. intros Hn. destruct (alert_backlog t); cbn [length].
  - destruct (Z.gtb_spec (Z.of_nat 1) (num_backlog t)); [lia | reflexivity].
  - apply andb_false_r.
Qed.

Lemma deletes_pushed_empty t :
  num_backlog t <= 0 -> alert_backlog t = [] -> deletes_pushed t = true.
Proof.
  unfold deletes_pushed. intros Hn ->. cbn [length].
  destruct (Z.gtb_spec (Z.of_nat 1) (num_backlog t)); [reflexivity | lia].
Qed.

Lemma step_num_backlog t o : num_backlog (step t o) = num_backlog t.
Proof.
  destruct o as [hd d u r bu b ph| hd | ref now | ref c | pa me ts]; simpl;
    try reflexivity.
  - unfold RegisterAlert. repeat case_match; reflexivity.
  - unfold PotentialAlert. repeat case_match; reflexivity.
  - destruct (alert_ref_map t !! ref) as [p|] eqn:Hr;
      [|unfold RaiseAlert_call, RaiseAlert; now rewrite Hr].
    destruct (arec_store t !! p) as [d|] eqn:Hp;
      [|unfold RaiseAlert_call, RaiseAlert; now rewrite Hr, Hp].
    destruct (Z.eq_dec (CheckTimes d (rc_now c)).1 1) as [Hv|Hv].
    + now destruct (RaiseAlert_accepted ref c t p d Hr Hp Hv)
        as (_ & _ & _ & _ & _ & _ & _ & -> & _).
    + now rewrite (RaiseAlert_denied ref c t p d Hr Hp Hv).
Qed.

(** What an operation does to the mark of a used deleted alert: only a
    RaiseAlert that returns 1 on a backlog without room sets it, and
    nothing clears it. *)
Lemma step_freed_alert_used t o :
  freed_alert_used (step t o) =
    (match accepted_by t o with
     | [] => false
     | _ :: _ => deletes_pushed t
     end || freed_alert_used t)%bool.
Proof.
  destruct o as [hd d u r bu b ph| hd | ref now | ref c | pa me ts]; simpl;
    try reflexivity.
  - unfold RegisterAlert. repeat case_match; reflexivity.
  - unfold PotentialAlert. repeat case_match; reflexivity.
  - destruct (alert_ref_map t !! ref) as [p|] eqn:Hr;
      [|unfold RaiseAlert_call, RaiseAlert; now rewrite Hr].
    destruct (arec_store t !! p) as [d|] eqn:Hp;
      [|unfold RaiseAlert_call, RaiseAlert; now rewrite Hr, Hp].
    destruct (Z.eq_dec (CheckTimes d (rc_now c)).1 1) as [Hv|Hv].
    + destruct (RaiseAlert_accepted ref c t p d Hr Hp Hv)
        as (-> & -> & _ & _ & _ & _ & _ & _ & _ & _ & _ & ->).
      reflexivity.
    + now rewrite (RaiseAlert_denied ref c t p d Hr Hp Hv).
Qed.

Lemma run_keeps_freed_alert_used ops : forall t,
  0 < num_backlog t ->
  freed_alert_used (run t ops) = freed_alert_used t.
Proof.
  induction ops as [|o ops IH]; intros t Hn; simpl; [reflexivity|].
  rewrite IH by (now rewrite step_num_backlog).
  rewrite step_freed_alert_used, deletes_pushed_room by assumption.
  now destruct (accepted_by t o).
Qed.

Lemma push_backlog_drop (h : list kis_alert_info) (x : kis_alert_info)
    (t : Alertracker) :
  0 <= num_backlog t ->
  alert_backlog t = drop (length h - Z.to_nat (num_backlog t)) h ->
  alert_backlog (push_backlog x t) =
    drop (length (h ++ [x]) - Z.to_nat (num_backlog t)) (h ++ [x]).
Proof.
  intros Hn Hb. unfold push_backlog. rewrite Hb.
  set (N := Z.to_nat (num_backlog t)).
  assert (HN : num_backlog t = Z.of_nat N) by (subst N; lia).
  rewrite HN. rewrite !length_app, length_drop. simpl.
  destruct (Z.gtb_spec (Z.of_nat (length h - (length h - N) + 1)) (Z.of_nat N));
    simpl.
  - assert (N <= length h)%nat by lia.
    destruct (decide (N = 0%nat)) as [HN0|HN0].
    + rewrite HN0, Nat.sub_0_r, drop_all. simpl.
      symmetry. apply drop_ge. rewrite length_app. simpl. lia.
    + rewrite drop_app_le by (rewrite length_drop; lia).
      rewrite drop_drop. rewrite drop_app_le by lia. replace (length h - N + 1)%nat with (length h + 1 - N)%nat by lia. reflexivity.
  - assert (length h < N)%nat by lia.
    replace (length h - N)%nat with 0%nat by lia.
    replace (length h + 1 - N)%nat with 0%nat by lia. reflexivity.
Qed.

Lemma step_backlog t o h :
  0 <= num_backlog t ->
  alert_backlog t = drop (length h - Z.to_nat (num_backlog t)) h ->
  num_backlog (step t o) = num_backlog t /\
  alert_backlog (step t o) =
    drop (length (h ++ accepted_by t o) - Z.to_nat (num_backlog t))
         (h ++ accepted_by t o).
Proof.
  intros Hn Hb.
  destruct o as [hd d u r bu b ph| hd | ref now | ref c | pa me ts]; simpl;
    rewrite ?app_nil_r; auto.
  - unfold RegisterAlert. repeat case_match; simpl; auto.
  - unfold PotentialAlert. repeat case_match; simpl; auto.
  - destruct (alert_ref_map t !! ref) as [p|] eqn:Hr;
      [|unfold RaiseAlert_call, RaiseAlert; rewrite Hr; simpl;
        rewrite app_nil_r; auto].
    destruct (arec_store t !! p) as [d|] eqn:Hp;
      [|unfold RaiseAlert_call, RaiseAlert; rewrite Hr, Hp; simpl;
        rewrite app_nil_r; auto].
    destruct (Z.eq_dec (CheckTimes d (rc_now c)).1 1) as [Hv|Hv].
    + destruct (RaiseAlert_accepted ref c t p d Hr Hp Hv)
        as (-> & -> & _ & _ & _ & _ & _ & -> & -> & _).
      simpl. split; [reflexivity|].
      apply (push_backlog_drop h _ (set_backlog (alert_backlog t) t)); assumption.
    + rewrite (RaiseAlert_denied ref c t p d Hr Hp Hv). simpl.
      rewrite app_nil_r. auto.
Qed.

Lemma run_backlog ops : forall t h,
  0 <= num_backlog t ->
  alert_backlog t = drop (length h - Z.to_nat (num_backlog t)) h ->
  num_backlog (run t ops) = num_backlog t /\
  alert_backlog (run t ops) =
    drop (length (h ++ accepted t ops) - Z.to_nat (num_backlog t))
         (h ++ accepted t ops).
Proof.
  induction ops as [|o ops IH]; intros t h Hn Hb; simpl.
  - rewrite app_nil_r. auto.
  - destruct (step_backlog t o h Hn Hb) as [Hn' Hb'].
    destruct (IH (step t o) (h ++ accepted_by t o)) as [Hn2 Hb2].
    + lia.
    + now rewrite Hn'.
    + rewrite Hn' in *. rewrite <- app_assoc in Hb2. auto.
Qed.

(** X27: on a tracker whose backlog has room for N alerts, N at least 1,
    and starts empty, no sequence of operations uses a deleted alert, and
    after it the backlog holds at most N alerts: the accepted alerts,
    oldest first, without the first [k - N] of them when [k] alerts were
    accepted, so for k > N exactly the (k - N + 1)-th to the k-th. *)
Theorem backlog_bounded_fifo (t : Alertracker) (ops : list op) :
  0 < num_backlog t ->
  alert_backlog t = [] ->
  let N := Z.to_nat (num_backlog t) in
  let acc := accepted t ops in
  let k := length acc in
  freed_alert_used (run t ops) = freed_alert_used t /\
  Z.of_nat (length (alert_backlog (run t ops))) <= num_backlog t /\
  alert_backlog (run t ops) = drop (k - N) acc /\
  ((N < k)%nat ->
   length (alert_backlog (run t ops)) = N /\
   forall i, (i < N)%nat ->
     alert_backlog (run t ops) !! i = acc !! (k - N + i)%nat).
Proof.
  intros Hn Hb N acc k.
  split; [now apply run_keeps_freed_alert_used|].
  destruct (run_backlog ops t [] ltac:(lia)) as [_ Hrun]; [now rewrite Hb|].
  simpl in Hrun. fold acc in Hrun. fold N in Hrun. fold k in Hrun.
  rewrite Hrun. rewrite length_drop.
  split; [subst N; lia|]. split; [reflexivity|].
  intros Hk. split; [lia|]. intros i Hi. now rewrite lookup_drop.
Qed.

Lemma backlog_bounded_fifo_witness :
  0 < num_backlog tracker_small /\
  alert_backlog tracker_small = [] /\
  freed_alert_used (run tracker_small three_raises) = false /\
  alert_backlog (run tracker_small three_raises) =
    drop (length (accepted tracker_small three_raises)
          - Z.to_nat (num_backlog tracker_small))
         (accepted tracker_small three_raises).
Proof.
  assert (Hn : 0 < num_backlog tracker_small) by (vm_compute; reflexivity).
  assert (Hb : alert_backlog tracker_small = []) by reflexivity.
  refine (conj Hn (conj Hb _)).
  destruct (backlog_bounded_fifo tracker_small three_raises Hn Hb)
    as (Hf & _ & Hd & _).
  exact (conj Hf Hd).
Defined.

Lemma run_without_room ops : forall t,
  num_backlog t <= 0 -> alert_backlog t = [] ->
  alert_backlog (run t ops) = [] /\
  freed_alert_used (run t ops) =
    (match accepted t ops with [] => false | _ :: _ => true end
     || freed_alert_used t)%bool.
Proof.
  induction ops as [|o ops IH]; intros t Hn Hb; simpl.
  - split; [assumption | reflexivity].
  - assert (Hb' : alert_backlog (step t o) = []).
    { destruct o as [hd d u r bu b ph| hd | ref now | ref c | pa me ts]; simpl;
        try assumption.
      - unfold RegisterAlert. repeat case_match; assumption.
      - unfold PotentialAlert. repeat case_match; assumption.
      - destruct (alert_ref_map t !! ref) as [p|] eqn:Hr;
          [|unfold RaiseAlert_call, RaiseAlert; now rewrite Hr].
        destruct (arec_store t !! p) as [d|] eqn:Hp;
          [|unfold RaiseAlert_call, RaiseAlert; now rewrite Hr, Hp].
        destruct (Z.eq_dec (CheckTimes d (rc_now c)).1 1) as [Hv|Hv].
        + destruct (RaiseAlert_accepted ref c t p d Hr Hp Hv)
            as (_ & _ & _ & _ & _ & _ & _ & _ & -> & _).
          unfold push_backlog. cbn [alert_backlog num_backlog set_backlog].
          rewrite Hb. cbn [app length].
          destruct (Z.gtb_spec (Z.of_nat 1) (num_backlog t)); [reflexivity | lia].
        + now rewrite (RaiseAlert_denied ref c t p d Hr Hp Hv). }
    destruct (IH (step t o)) as [Hb2 Hf2];
      [now rewrite step_num_backlog | assumption |].
    split; [assumption|].
    rewrite Hf2, step_freed_alert_used, deletes_pushed_empty by assumption.
    destruct (accepted_by t o); simpl.
    + reflexivity.
    + now rewrite !orb_true_r.
Qed.

(** C3 fails where the backlog has no room: on a tracker with
    [num_backlog] at 0 (or below) and an empty backlog, the backlog stays
    empty over every sequence of operations, but each alert that is
    accepted is deleted by the eviction right after it was pushed and is
    used all the same; a sequence of operations has used a deleted alert
    as soon as one of its alerts was accepted. *)
Theorem backlog_without_room (t : Alertracker) (ops : list op) :
  num_backlog t <= 0 ->
  alert_backlog t = [] ->
  freed_alert_used t = false ->
  alert_backlog (run t ops) = [] /\
  (freed_alert_used (run t ops) = true <-> accepted t ops <> []).
Proof.
  intros Hn Hb Hf.
  destruct (run_without_room ops t Hn Hb) as [Hb' Hf'].
  split; [assumption|]. rewrite Hf', Hf.
  destruct (accepted t ops); simpl; split; congruence.
Qed.

Lemma backlog_without_room_witness :
  num_backlog tracker_no_room <= 0 /\
  alert_backlog tracker_no_room = [] /\
  freed_alert_used tracker_no_room = false /\
  (RaiseAlert_call 0 (call_at 1000) tracker_no_room).1.1 = 1 /\
  freed_alert_used (run tracker_no_room [Op_RaiseAlert 0 (call_at 1000)]) = true.
Proof.
  assert (Hn : num_backlog tracker_no_room <= 0) by (vm_compute; discriminate).
  assert (Hb : alert_backlog tracker_no_room = []) by reflexivity.
  assert (Hf : freed_alert_used tracker_no_room = false) by reflexivity.
  assert (H1 : (RaiseAlert_call 0 (call_at 1000) tracker_no_room).1.1 = 1)
    by (vm_compute; reflexivity).
  refine (conj Hn (conj Hb (conj Hf (conj H1 _)))).
  apply (proj2 (backlog_without_room tracker_no_room
                  [Op_RaiseAlert 0 (call_at 1000)] Hn Hb Hf)).
  vm_compute. discriminate.
Defined.

(** ** The query with a time cursor *)

Lemma collect_since_filter since_time b :
  collect_since since_time b =
    filter (fun i => since_time < tv_sec (tm i)) b.
Proof.
  unfold collect_since.
  enough (forall acc,
    foldl (fun msgvec i =>
             if since_time <? tv_sec (tm i) then msgvec ++ [i] else msgvec)
      acc b = acc ++ filter (fun i => since_time < tv_sec (tm i)) b) as H
    by apply (H []).
  induction b as [|x b IH]; intros acc; simpl.
  - now rewrite app_nil_r.
  - rewrite IH. rewrite filter_cons.
    destruct (Z.ltb_spec since_time (tv_sec (tm x))); case_decide; try lia.
    + now rewrite <- app_assoc.
    + reflexivity.
Qed.

Lemma filter_all_kept {A} (P : A -> Prop) `{forall x, Decision (P x)} (l : list A) :
  Forall P l -> filter P l = l.
Proof.
  induction 1 as [|x l Hx _ IH]; [reflexivity|].
  rewrite filter_cons_True by assumption. now rewrite IH.
Qed.

Lemma filter_after_cursor (b : list kis_alert_info) : forall k e,
  timestamps_increasing b ->
  b !! k = Some e ->
  filter (fun i => tv_sec (tm e) < tv_sec (tm i)) b = drop (S k) b.
Proof.
  unfold timestamps_increasing.
  induction b as [|x b IH]; intros k e Hs Hk; [discriminate|].
  apply StronglySorted_inv in Hs as [Hs Hx].
  rewrite filter_cons. destruct k as [|k]; simpl in Hk.
  - injection Hk as ->. case_decide; [lia|]. simpl. rewrite drop_0.
    apply filter_all_kept. exact Hx.
  - assert (tv_sec (tm x) < tv_sec (tm e)).
    { rewrite Forall_forall in Hx. apply Hx. eapply list_elem_of_lookup_2; eauto. }
    case_decide; [lia|]. simpl. now apply IH.
Qed.

Lemma filter_none_kept {A} (P : A -> Prop) `{forall x, Decision (P x)} (l : list A) :
  Forall (fun x => ~ P x) l -> filter P l = [].
Proof.
  induction 1 as [|x l Hx _ IH]; [reflexivity|].
  now rewrite filter_cons_False by assumption.
Qed.

Lemma timestamps_increasing_le (b : list kis_alert_info) : forall i k x e,
  timestamps_increasing b ->
  b !! i = Some x -> b !! k = Some e -> (i <= k)%nat ->
  tv_sec (tm x) <= tv_sec (tm e).
Proof.
  unfold timestamps_increasing.
  induction b as [|y b IH]; intros i k x e Hs Hi Hk Hle; [discriminate|].
  apply StronglySorted_inv in Hs as [Hs Hy].
  destruct i as [|i], k as [|k]; simpl in *; try lia.
  - assert (x = e) as -> by congruence. lia.
  - injection Hi as ->. rewrite Forall_forall in Hy.
    specialize (Hy e (list_elem_of_lookup_2 _ _ _ Hk)). lia.
  - eapply IH; eauto. lia.
Qed.

(** The same when the backlog has lost its first [m] alerts, none of them
    younger than the cursor. *)
Lemma filter_after_cursor_drop (b : list kis_alert_info) m k e :
  timestamps_increasing b ->
  b !! k = Some e -> (m <= S k)%nat ->
  filter (fun i => tv_sec (tm e) < tv_sec (tm i)) (drop m b) = drop (S k) b.
Proof.
  intros Hs Hk Hm. rewrite <- (filter_after_cursor b k e Hs Hk).
  rewrite <- (take_drop m b) at 2. rewrite filter_app.
  rewrite (filter_none_kept _ (take m b)); [reflexivity|].
  apply Forall_forall. intros x Hx.
  apply list_elem_of_lookup_1 in Hx as [i Hi].
  apply lookup_take_Some in Hi as [Hi Hlt].
  pose proof (timestamps_increasing_le b i k x e Hs Hi Hk ltac:(lia)). lia.
Qed.

(** The same whatever the backlog has lost: of the alerts after position
    [k], those that are left. *)
Lemma filter_after_cursor_left (b : list kis_alert_info) m k e :
  timestamps_increasing b ->
  b !! k = Some e ->
  filter (fun i => tv_sec (tm e) < tv_sec (tm i)) (drop m b)
    = drop (S k `max` m) b.
Proof.
  intros Hs Hk. destruct (le_lt_dec m (S k)) as [Hm|Hm].
  - rewrite Nat.max_l by lia. now apply filter_after_cursor_drop.
  - rewrite Nat.max_r by lia. apply filter_all_kept.
    replace m with (S k + (m - S k))%nat by lia.
    rewrite <- drop_drop. apply Forall_drop.
    rewrite <- (filter_after_cursor b k e Hs Hk).
    apply Forall_forall. intros x Hx.
    now apply list_elem_of_filter in Hx as [Hx _].
Qed.

(** C9, as the code has it: a GET request on a serializable path
    [.../alerts/last-time/<t>/...] is answered with a map of two elements:
    the alerts of the backlog whose time stamp is strictly greater than
    [t], in the order of the backlog, and the time stamp of the server.  So
    when the time stamps of the backlog grow strictly and [t] is the time
    stamp of its alert at position [k], the alerts returned are exactly
    those after position [k].  After a run of operations from an empty
    backlog with room for N alerts (N at least 1) whose accepted alerts
    have strictly growing time stamps, a query with the time stamp of the
    k-th accepted alert returns those of the accepted alerts after it that
    the backlog still holds, which are the last N accepted ones at most. *)
Theorem query_since_cursor
    (Httpd_CanSerialize : string -> bool)
    (Httpd_StripSuffix : string -> string)
    (StrTokenize : string -> string -> list string)
    (sscanf_ld : string -> option Z)
    (path : string) (timestamp : timeval) (t : Alertracker)
    (tokenurl : list string) (ts : string) (cursor : Z) :
  Httpd_CanSerialize path = true ->
  StrTokenize path "/" = tokenurl ->
  (5 <= length tokenurl)%nat ->
  tokenurl !! 1%nat = Some "alerts"%string ->
  tokenurl !! 2%nat = Some "last-time"%string ->
  Httpd_StripSuffix "last-time" <> "definitions"%string ->
  tokenurl !! 3%nat = Some ts ->
  sscanf_ld ts = Some cursor ->
  let response :=
    Httpd_CreateStreamResponse Httpd_CanSerialize Httpd_StripSuffix StrTokenize
      sscanf_ld path "GET" timestamp t in
  response =
    Some (TE_map (filter (fun i => cursor < tv_sec (tm i)) (alert_backlog t))
            (uint64_wrap (tv_sec timestamp))) /\
  (forall k e,
     timestamps_increasing (alert_backlog t) ->
     alert_backlog t !! k = Some e ->
     cursor = tv_sec (tm e) ->
     response =
       Some (TE_map (drop (S k) (alert_backlog t))
               (uint64_wrap (tv_sec timestamp)))) /\
  (forall t0 ops k e,
     0 < num_backlog t0 -> alert_backlog t0 = [] ->
     t = run t0 ops ->
     timestamps_increasing (accepted t0 ops) ->
     accepted t0 ops !! k = Some e ->
     cursor = tv_sec (tm e) ->
     response =
       Some (TE_map
               (drop (S k `max` (length (accepted t0 ops)
                                 - Z.to_nat (num_backlog t0)))
                     (accepted t0 ops))
               (uint64_wrap (tv_sec timestamp)))).
Proof.
  intros Hcan Htok Hlen H1 H2 Hstrip H3 Hscan response.
  assert (Hresp : response =
      Some (TE_map (filter (fun i => cursor < tv_sec (tm i)) (alert_backlog t))
              (uint64_wrap (tv_sec timestamp)))).
  { subst response. unfold Httpd_CreateStreamResponse. simpl.
    rewrite Hcan, Htok. simpl.
    destruct (Nat.ltb_spec (length tokenurl) 3); [lia|].
    unfold route_of, token. rewrite H1, H2, H3. simpl.
    destruct (String.eqb_spec (Httpd_StripSuffix "last-time") "definitions");
      [contradiction|].
    destruct (Nat.ltb_spec (length tokenurl) 5); [lia|].
    rewrite Hscan. now rewrite collect_since_filter. }
  split; [exact Hresp|]. split.
  - intros k e Hs Hk ->. rewrite Hresp. do 2 f_equal.
    now apply filter_after_cursor.
  - intros t0 ops k e Hn Hb -> Hs Hk ->. rewrite Hresp. do 2 f_equal.
    destruct (run_backlog ops t0 [] ltac:(lia)) as [_ ->]; [now rewrite Hb|].
    simpl. now apply filter_after_cursor_left.
Qed.

Lemma query_since_cursor_witness :
  0 < num_backlog tracker_small /\
  timestamps_increasing (accepted tracker_small four_raises) /\
  (exists e, accepted tracker_small four_raises !! 0%nat = Some e /\
             tv_sec (tm e) = 1000) /\
  Httpd_CreateStreamResponse (fun _ => true) (fun s => s)
    (fun _ _ => tokens_since_1000) (fun _ => Some 1000)
    path_since_1000 "GET" (Timeval 1004 0) (run tracker_small four_raises) =
    Some (TE_map
            (drop (1 `max` (length (accepted tracker_small four_raises)
                            - Z.to_nat (num_backlog tracker_small)))
                  (accepted tracker_small four_raises))
            (uint64_wrap 1004)).
Proof.
  assert (Hn : 0 < num_backlog tracker_small) by (vm_compute; reflexivity).
  assert (Hs : timestamps_increasing (accepted tracker_small four_raises)).
  { unfold timestamps_increasing. vm_compute.
    repeat (constructor; try reflexivity). }
  assert (Hk : accepted tracker_small four_raises !! 0%nat =
               Some (Build_info "KISMET" 0 (Timeval 1000 0) 0 0 0 0 "6" "probe flood"))
    by (vm_compute; reflexivity).
  refine (conj Hn (conj Hs (conj (ex_intro _ _ (conj Hk eq_refl)) _))).
  refine (proj2 (proj2 (query_since_cursor (fun _ => true) (fun s => s)
            (fun _ _ => tokens_since_1000) (fun _ => Some 1000)
            path_since_1000 (Timeval 1004 0) (run tracker_small four_raises)
            tokens_since_1000 "1000" 1000
            eq_refl eq_refl _ eq_refl eq_refl _ eq_refl eq_refl))
          tracker_small four_raises 0%nat _ Hn eq_refl eq_refl Hs Hk eq_refl).
  - vm_compute. repeat constructor.
  - discriminate.
Defined.

(** C9, as the spec states it, fails in its last part: with room for two
    alerts in the backlog and four alerts accepted at the seconds 1000 to
    1003, the query with the time stamp 1000 of the first returns the
    alerts of the seconds 1002 and 1003; the alert of second 1001, which
    is after the cursor as well, has left the backlog. *)
Lemma cursor_misses_evicted_alert :
  num_backlog tracker_small = 2 /\
  (tv_sec ∘ tm <$> accepted tracker_small four_raises)
    = [1000; 1001; 1002; 1003] /\
  Httpd_CreateStreamResponse (fun _ => true) (fun s => s)
    (fun _ _ => tokens_since_1000) (fun _ => Some 1000)
    path_since_1000 "GET" (Timeval 1004 0) (run tracker_small four_raises)
    = Some (TE_map [Build_info "KISMET" 0 (Timeval 1002 0) 0 0 0 0 "6" "probe flood";
                    Build_info "KISMET" 0 (Timeval 1003 0) 0 0 0 0 "6" "probe flood"]
              (uint64_wrap 1004)) /\
  Httpd_CreateStreamResponse (fun _ => true) (fun s => s)
    (fun _ _ => tokens_since_1000) (fun _ => Some 1000)
    path_since_1000 "GET" (Timeval 1004 0) (run tracker_small four_raises)
    <> Some (TE_map (drop 1 (accepted tracker_small four_raises))
               (uint64_wrap 1004)).
Proof.
  split; [reflexivity|]. split; [vm_compute; reflexivity|].
  split; [vm_compute; reflexivity|]. vm_compute. discriminate.
Qed.

(** * Further properties of the tracker *)

(** ** The containers fit together *)

Lemma toupper_idemp c : toupper (toupper c) = toupper c.
Proof.
  destruct c as [[] [] [] [] [] [] [] []]; reflexivity.
Qed.

Lemma StrUpper_idemp s : StrUpper (StrUpper s) = StrUpper s.
Proof.
  induction s as [|c s IH]; simpl; [reflexivity|].
  now rewrite toupper_idemp, IH.
Qed.

Lemma tracker_wf_empty n : tracker_wf (empty_tracker n).
Proof.
  unfold tracker_wf; simpl. split; [reflexivity|].
  split; intros ? ? H; rewrite lookup_empty in H; discriminate.
Qed.

Lemma tracker_wf_set_arec t p d d' :
  tracker_wf t -> arec_store t !! p = Some d -> alert_ref d' = alert_ref d ->
  tracker_wf (set_arec p d' t).
Proof.
  intros (Hv & Hr & Hn) Hp Href. unfold tracker_wf; simpl.
  rewrite length_insert. split; [assumption|]. split; [|assumption].
  intros r q Hq. destruct (Hr r q Hq) as (dq & Hdq & Hrq).
  destruct (decide (q = p)) as [->|Hne].
  - exists d'. split.
    + apply list_lookup_insert_eq. eapply lookup_lt_Some; eauto.
    + congruence.
  - exists dq. split; [|assumption]. now rewrite list_lookup_insert_ne.
Qed.

Lemma tracker_wf_fields t t' :
  tracker_wf t ->
  arec_store t' = arec_store t -> alert_defs_vec t' = alert_defs_vec t ->
  alert_ref_map t' = alert_ref_map t -> alert_name_map t' = alert_name_map t ->
  tracker_wf t'.
Proof. unfold tracker_wf. intros H -> -> -> ->. exact H. Qed.

Lemma RegisterAlert_new h d u r bu b ph t :
  alert_name_map t !! h = None ->
  clamp_unit bu <= clamp_unit u ->
  RegisterAlert h d u r bu b ph t =
    (next_alert_id t,
     Build_tracker (int_wrap (next_alert_id t + 1)) (num_backlog t)
       (arec_store t ++
          [Build_def (next_alert_id t) (StrUpper h) d ph (clamp_unit u)
             (uint64_wrap r) (clamp_unit bu) (uint64_wrap b) 0 0 0])
       (<[StrUpper h := next_alert_id t]> (alert_name_map t))
       (<[next_alert_id t := length (arec_store t)]> (alert_ref_map t))
       (alert_defs_vec t ++ [length (arec_store t)])
       (alert_backlog t) (messagebus t) (freed_alert_used t)).
Proof.
  intros Hn Hc. unfold RegisterAlert. rewrite Hn.
  destruct (Z.gtb_spec (clamp_unit bu) (clamp_unit u)); [lia|]. reflexivity.
Qed.

Lemma RegisterAlert_refused h d u r bu b ph t :
  is_Some (alert_name_map t !! h) \/ clamp_unit bu > clamp_unit u ->
  (RegisterAlert h d u r bu b ph t).1 = -1 /\
  registry_unchanged t (RegisterAlert h d u r bu b ph t).2.
Proof.
  intros [Hs|Hc].
  - now apply RegisterAlert_known_header.
  - unfold RegisterAlert. destruct (alert_name_map t !! h).
    + simpl. unfold registry_unchanged; simpl; tauto.
    + destruct (Z.gtb_spec (clamp_unit bu) (clamp_unit u)); [|lia].
      simpl. unfold registry_unchanged; simpl; tauto.
Qed.

Lemma tracker_wf_RegisterAlert h d u r bu b ph t :
  tracker_wf t -> tracker_wf (RegisterAlert h d u r bu b ph t).2.
Proof.
  intros Hwf.
  destruct (alert_name_map t !! h) as [x|] eqn:Hn.
  { destruct (RegisterAlert_refused h d u r bu b ph t) as (_ & H1 & H2 & H3 & H4 & _);
      [left; eauto|]. eapply tracker_wf_fields; eauto. }
  destruct (Z.le_gt_cases (clamp_unit bu) (clamp_unit u)) as [Hc|Hc].
  2:{ destruct (RegisterAlert_refused h d u r bu b ph t) as (_ & H1 & H2 & H3 & H4 & _);
      [right; lia|]. eapply tracker_wf_fields; eauto. }
  rewrite RegisterAlert_new by assumption.
  destruct Hwf as (Hv & Hr & Hm). unfold tracker_wf; simpl.
  rewrite length_app. simpl. split; [|split].
  - rewrite Hv. rewrite seq_app. reflexivity.
  - intros r' p Hp. destruct (decide (next_alert_id t = r')) as [<-|Hne].
    + rewrite lookup_insert_eq in Hp. injection Hp as <-.
      eexists. split; [apply list_lookup_middle; reflexivity|reflexivity].
    + rewrite lookup_insert_ne in Hp by assumption.
      destruct (Hr r' p Hp) as (dp & Hdp & Hrp). exists dp.
      split; [|assumption]. rewrite lookup_app_l; [assumption|].
      eapply lookup_lt_Some; eauto.
  - intros h' r' Hh. destruct (decide (StrUpper h = h')) as [<-|Hne].
    + rewrite lookup_insert_eq in Hh. injection Hh as <-.
      split; [apply StrUpper_idemp|]. rewrite lookup_insert_eq. eauto.
    + rewrite lookup_insert_ne in Hh by assumption.
      destruct (Hm h' r' Hh) as [Hu Hs]. split; [assumption|].
      destruct (decide (next_alert_id t = r')) as [<-|Hne'].
      * rewrite lookup_insert_eq. eauto.
      * now rewrite lookup_insert_ne.
Qed.

Lemma CheckTimes_alert_ref d now : alert_ref (CheckTimes d now).2 = alert_ref d.
Proof.
  pose proof (CheckTimes_counters d now) as H.
  unfold counters_kept_or_reset in H. tauto.
Qed.

Lemma tracker_wf_step t o : tracker_wf t -> tracker_wf (step t o).
Proof.
  intros Hwf. destruct o as [h d u r bu b ph| h | ref now | ref c | pa me ts];
    simpl; try assumption.
  - now apply tracker_wf_RegisterAlert.
  - unfold PotentialAlert.
    destruct (alert_ref_map t !! ref) as [p|]; [|assumption].
    destruct (arec_store t !! p) as [d|] eqn:Hp; [|assumption].
    pose proof (CheckTimes_alert_ref d now) as Hd.
    destruct (CheckTimes d now) as [v d']. simpl in *.
    eapply tracker_wf_set_arec; eauto.
  - destruct (alert_ref_map t !! ref) as [p|] eqn:Hr;
      [|unfold RaiseAlert_call, RaiseAlert; now rewrite Hr].
    destruct (arec_store t !! p) as [d|] eqn:Hp;
      [|unfold RaiseAlert_call, RaiseAlert; now rewrite Hr, Hp].
    destruct (Z.eq_dec (CheckTimes d (rc_now c)).1 1) as [Hv|Hv].
    + destruct (RaiseAlert_accepted ref c t p d Hr Hp Hv)
        as (_ & _ & Hs & Hrm & Hnm & Hdv & _).
      eapply (tracker_wf_fields (set_arec p _ t)); simpl; eauto.
      eapply tracker_wf_set_arec; eauto. simpl.
      apply CheckTimes_alert_ref.
    + rewrite (RaiseAlert_denied ref c t p d Hr Hp Hv). simpl.
      eapply tracker_wf_set_arec; eauto. apply CheckTimes_alert_ref.
Qed.

Lemma tracker_wf_run ops : forall t, tracker_wf t -> tracker_wf (run t ops).
Proof.
  induction ops as [|o ops IH]; intros t H; simpl; [assumption|].
  apply IH, tracker_wf_step, H.
Qed.

(** ** Registration and lookup *)

(** X1: a registration that is not refused returns the next ref; afterwards the
    upper-case header is found under this ref, the lookup of every other
    name is as before, and the ref leads to the new definition, which has
    the limits given (as unsigned 64-bit counts), the units clamped, and
    counters and time of the last alert at 0. *)
Theorem RegisterAlert_then_FetchAlertRef
    (h d : string) (u r bu b ph : Z) (t : Alertracker) :
  alert_name_map t !! h = None ->
  clamp_unit bu <= clamp_unit u ->
  let res := RegisterAlert h d u r bu b ph t in
  res.1 = next_alert_id t /\
  FetchAlertRef (StrUpper h) res.2 = next_alert_id t /\
  (forall h', h' <> StrUpper h -> FetchAlertRef h' res.2 = FetchAlertRef h' t) /\
  exists p,
    alert_ref_map res.2 !! next_alert_id t = Some p /\
    arec_store res.2 !! p =
      Some (Build_def (next_alert_id t) (StrUpper h) d ph (clamp_unit u)
              (uint64_wrap r) (clamp_unit bu) (uint64_wrap b) 0 0 0).
Proof.
  intros Hn Hc res. subst res. rewrite RegisterAlert_new by assumption.
  unfold FetchAlertRef. simpl. split; [reflexivity|].
  split; [now rewrite lookup_insert_eq|].
  split; [intros h' Hne; now rewrite lookup_insert_ne|].
  exists (length (arec_store t)). rewrite lookup_insert_eq.
  split; [reflexivity|]. now apply list_lookup_middle.
Qed.

Lemma RegisterAlert_then_FetchAlertRef_witness :
  alert_name_map tracker_5m_2s !! "deauthflood"%string = None /\
  clamp_unit sat_second <= clamp_unit sat_hour /\
  FetchAlertRef "DEAUTHFLOOD"
    (RegisterAlert "deauthflood" "Deauth flood" sat_hour 10 sat_second 1 0
       tracker_5m_2s).2 = 1.
Proof.
  assert (Hn : alert_name_map tracker_5m_2s !! "deauthflood"%string = None)
    by (vm_compute; reflexivity).
  assert (Hc : clamp_unit sat_second <= clamp_unit sat_hour)
    by (vm_compute; discriminate).
  refine (conj Hn (conj Hc _)).
  exact (proj1 (proj2 (RegisterAlert_then_FetchAlertRef "deauthflood"
    "Deauth flood" sat_hour 10 sat_second 1 0 tracker_5m_2s Hn Hc))).
Defined.

(** X2: FetchAlertRef compares the header as given with names that are all in
    upper case: on a tracker reached from the empty one, a header with a
    letter in lower case is never found, registered or not. *)
Theorem FetchAlertRef_lowercase_not_found (n : Z) (ops : list op) (h : string) :
  StrUpper h <> h ->
  FetchAlertRef h (run (empty_tracker n) ops) = -1.
Proof.
  intros Hh. unfold FetchAlertRef.
  destruct (tracker_wf_run ops _ (tracker_wf_empty n)) as (_ & _ & Hm).
  destruct (alert_name_map (run (empty_tracker n) ops) !! h) as [r|] eqn:E;
    [|reflexivity].
  destruct (Hm h r E) as [Hu _]. contradiction.
Qed.

Lemma FetchAlertRef_lowercase_not_found_witness :
  StrUpper "probeflood" <> "probeflood"%string /\
  FetchAlertRef "probeflood"
    (run (empty_tracker 50)
       [Op_RegisterAlert "probeflood" "Probe flood" sat_minute 5 sat_second 2 0])
    = -1.
Proof.
  assert (Hh : StrUpper "probeflood" <> "probeflood"%string)
    by (vm_compute; discriminate).
  exact (conj Hh (FetchAlertRef_lowercase_not_found 50
    [Op_RegisterAlert "probeflood" "Probe flood" sat_minute 5 sat_second 2 0]
    "probeflood" Hh)).
Defined.

Lemma RaiseAlert_registered ref c t p d :
  alert_ref_map t !! ref = Some p -> arec_store t !! p = Some d ->
  (RaiseAlert_call ref c t).1.1 = 0 \/ (RaiseAlert_call ref c t).1.1 = 1.
Proof.
  intros Hr Hp.
  destruct (Z.eq_dec (CheckTimes d (rc_now c)).1 1) as [Hv|Hv].
  - right. now destruct (RaiseAlert_accepted ref c t p d Hr Hp Hv).
  - left. now rewrite (RaiseAlert_denied ref c t p d Hr Hp Hv).
Qed.

(** X3: a ref that FetchAlertRef finds under a name is a registered one: on a
    tracker reached from the empty one, RaiseAlert with it returns 0 or 1,
    never the -1 of an unknown ref. *)
Theorem fetched_ref_is_known (n : Z) (ops : list op) (h : string) (r : Z)
    (c : raise_call) :
  alert_name_map (run (empty_tracker n) ops) !! h = Some r ->
  FetchAlertRef h (run (empty_tracker n) ops) = r /\
  ((RaiseAlert_call r c (run (empty_tracker n) ops)).1.1 = 0 \/
   (RaiseAlert_call r c (run (empty_tracker n) ops)).1.1 = 1).
Proof.
  intros Hh. split; [unfold FetchAlertRef; now rewrite Hh|].
  destruct (tracker_wf_run ops _ (tracker_wf_empty n)) as (_ & Hr & Hm).
  destruct (Hm h r Hh) as [_ [p Hp]].
  destruct (Hr r p Hp) as (d & Hd & _).
  eapply RaiseAlert_registered; eauto.
Qed.

Lemma fetched_ref_is_known_witness :
  alert_name_map (run (empty_tracker 50)
    [Op_RegisterAlert "probeflood" "Probe flood" sat_minute 5 sat_second 2 0])
    !! "PROBEFLOOD"%string = Some 0 /\
  FetchAlertRef "PROBEFLOOD" (run (empty_tracker 50)
    [Op_RegisterAlert "probeflood" "Probe flood" sat_minute 5 sat_second 2 0])
    = 0.
Proof.
  assert (Hh : alert_name_map (run (empty_tracker 50)
    [Op_RegisterAlert "probeflood" "Probe flood" sat_minute 5 sat_second 2 0])
    !! "PROBEFLOOD"%string = Some 0) by (vm_compute; reflexivity).
  exact (conj Hh (proj1 (fetched_ref_is_known 50
    [Op_RegisterAlert "probeflood" "Probe flood" sat_minute 5 sat_second 2 0]
    "PROBEFLOOD" 0 (call_at 1000) Hh))).
Defined.

(** ** A probe and the raise that follows it *)

Lemma CheckTimes_again d now now' :
  tv_sec now <= tv_sec now' ->
  CheckTimes (CheckTimes d now).2 now' = CheckTimes d now'.
Proof.
  intros Hle.
  destruct (Z.eq_dec (limit_rate d) 0) as [H0|H0].
  { now rewrite (CheckTimes_unlimited d now H0). }
  destruct (Z.lt_ge_cases (time_last d) (tv_sec now - conv_at (limit_unit d)))
    as [Hs|Hs].
  { rewrite (CheckTimes_sustained_elapsed d now H0 Hs). simpl.
    rewrite !CheckTimes_sustained_elapsed; simpl; try assumption; try lia.
    reflexivity. }
  rewrite (CheckTimes_within_sustained d now H0 Hs).
  destruct (Z.ltb_spec (time_last d) (tv_sec now - conv_at (burst_unit d)))
    as [Hb|Hb]; simpl; [|reflexivity].
  destruct (Z.lt_ge_cases (time_last d) (tv_sec now' - conv_at (limit_unit d)))
    as [Hs'|Hs'].
  { rewrite !CheckTimes_sustained_elapsed; simpl; try assumption. reflexivity. }
  rewrite !CheckTimes_within_sustained; simpl; try assumption.
  destruct (Z.ltb_spec (time_last d) (tv_sec now' - conv_at (burst_unit d)));
    [reflexivity | lia].
Qed.

Lemma set_arec_set_arec p d d' t :
  set_arec p d (set_arec p d' t) = set_arec p d t.
Proof. unfold set_arec; simpl. now rewrite list_insert_insert_eq. Qed.

(** X4: what PotentialAlert answers is what RaiseAlert decides at the same
    clock reading: the probe answers 1 exactly when the raise returns 1. *)
Theorem PotentialAlert_predicts_RaiseAlert (ref : Z) (c : raise_call)
    (t : Alertracker) :
  (PotentialAlert ref (rc_now c) t).1 = 1 <-> (RaiseAlert_call ref c t).1.1 = 1.
Proof.
  unfold PotentialAlert.
  destruct (alert_ref_map t !! ref) as [p|] eqn:Hr;
    [|unfold RaiseAlert_call, RaiseAlert; rewrite Hr; simpl; lia].
  destruct (arec_store t !! p) as [d|] eqn:Hp;
    [|unfold RaiseAlert_call, RaiseAlert; rewrite Hr, Hp; simpl; lia].
  destruct (Z.eq_dec (CheckTimes d (rc_now c)).1 1) as [Hv|Hv].
  - destruct (RaiseAlert_accepted ref c t p d Hr Hp Hv) as (-> & _).
    destruct (CheckTimes d (rc_now c)); simpl in *. tauto.
  - rewrite (RaiseAlert_denied ref c t p d Hr Hp Hv).
    destruct (CheckTimes d (rc_now c)); simpl in *. lia.
Qed.

(** X5: a probe does not change what follows: a RaiseAlert or another probe
    for the same ref, at a clock reading that is not earlier, returns the
    same values and leaves the same tracker as it would without the probe
    before it. *)
Theorem PotentialAlert_then_RaiseAlert (ref : Z) (now : timeval)
    (c : raise_call) (now' : timeval) (t : Alertracker) :
  (tv_sec now <= tv_sec (rc_now c) ->
   RaiseAlert_call ref c (PotentialAlert ref now t).2 = RaiseAlert_call ref c t) /\
  (tv_sec now <= tv_sec now' ->
   PotentialAlert ref now' (PotentialAlert ref now t).2 = PotentialAlert ref now' t).
Proof.
  destruct (alert_ref_map t !! ref) as [p|] eqn:Hr.
  2:{ assert (E : PotentialAlert ref now t = (0, t))
        by (unfold PotentialAlert; now rewrite Hr).
      rewrite E. split; reflexivity. }
  destruct (arec_store t !! p) as [d|] eqn:Hp.
  2:{ assert (E : PotentialAlert ref now t = (0, t))
        by (unfold PotentialAlert; now rewrite Hr, Hp).
      rewrite E. split; reflexivity. }
  assert (E : (PotentialAlert ref now t).2 = set_arec p (CheckTimes d now).2 t).
  { unfold PotentialAlert. rewrite Hr, Hp. now destruct (CheckTimes d now). }
  rewrite E. clear E.
  pose proof (CheckTimes_again d now) as Hagain.
  set (d' := (CheckTimes d now).2) in *.
  assert (Hp' : arec_store (set_arec p d' t) !! p = Some d').
  { simpl. apply list_lookup_insert_eq. eapply lookup_lt_Some; eauto. }
  assert (Hr' : alert_ref_map (set_arec p d' t) !! ref = Some p) by exact Hr.
  split; intros Hle.
  - rewrite (RaiseAlert_unfold ref c _ p d' Hr' Hp').
    rewrite (RaiseAlert_unfold ref c t p d Hr Hp).
    rewrite (Hagain _ Hle). cbv zeta.
    rewrite !set_arec_set_arec. reflexivity.
  - unfold PotentialAlert. rewrite Hr', Hp', Hr, Hp.
    rewrite (Hagain _ Hle). destruct (CheckTimes d now').
    now rewrite set_arec_set_arec.
Qed.

Lemma PotentialAlert_then_RaiseAlert_witness :
  tv_sec (Timeval 1500 0) <= tv_sec (rc_now (call_at 2000)) /\
  RaiseAlert_call 0 (call_at 2000)
    (PotentialAlert 0 (Timeval 1500 0) tracker_raised_twice).2
  = RaiseAlert_call 0 (call_at 2000) tracker_raised_twice.
Proof.
  assert (Hle : tv_sec (Timeval 1500 0) <= tv_sec (rc_now (call_at 2000)))
    by (vm_compute; discriminate).
  exact (conj Hle (proj1 (PotentialAlert_then_RaiseAlert 0 (Timeval 1500 0)
    (call_at 2000) (Timeval 2000 0) tracker_raised_twice) Hle)).
Defined.

(** ** Every accepted alert is announced once *)

Lemma alert_messages_app b1 b2 :
  alert_messages (b1 ++ b2) = alert_messages b1 ++ alert_messages b2.
Proof. unfold alert_messages. apply List.filter_app. Qed.

Lemma step_alert_messages t o :
  0 < num_backlog t ->
  alert_messages (messagebus (step t o)) =
    alert_messages (messagebus t) ++ (announcement <$> accepted_by t o).
Proof.
  intros Hn.
  destruct o as [h d u r bu b ph| h | ref now | ref c | pa me ts]; simpl;
    rewrite ?app_nil_r; try reflexivity.
  - unfold RegisterAlert. repeat case_match; simpl;
      rewrite ?alert_messages_app, ?app_nil_r; reflexivity.
  - unfold PotentialAlert. repeat case_match; reflexivity.
  - destruct (alert_ref_map t !! ref) as [p|] eqn:Hr;
      [|unfold RaiseAlert_call, RaiseAlert; rewrite Hr; simpl;
        now rewrite app_nil_r].
    destruct (arec_store t !! p) as [d|] eqn:Hp;
      [|unfold RaiseAlert_call, RaiseAlert; rewrite Hr, Hp; simpl;
        now rewrite app_nil_r].
    destruct (Z.eq_dec (CheckTimes d (rc_now c)).1 1) as [Hv|Hv].
    + destruct (RaiseAlert_accepted ref c t p d Hr Hp Hv)
        as (-> & -> & _ & _ & _ & _ & _ & _ & _ & -> & _).
      rewrite deletes_pushed_room by assumption.
      simpl. now rewrite alert_messages_app.
    + rewrite (RaiseAlert_denied ref c t p d Hr Hp Hv). simpl.
      now rewrite app_nil_r.
Qed.

(** X6: where the backlog has room for an alert, over any sequence of
    operations the messages flagged as alerts that reach the message bus
    are the announcements [header + " " + text] of the accepted alerts, one
    for each, in the order of acceptance; an alert that the backlog has
    dropped since was announced all the same, and neither a denied raise
    nor a probe nor a registration announces one. *)
Theorem accepted_alerts_announced_once (t : Alertracker) (ops : list op) :
  0 < num_backlog t ->
  alert_messages (messagebus (run t ops)) =
    alert_messages (messagebus t) ++ (announcement <$> accepted t ops).
Proof.
  revert t. induction ops as [|o ops IH]; intros t Hn; simpl.
  - now rewrite app_nil_r.
  - rewrite IH by (now rewrite step_num_backlog).
    rewrite step_alert_messages, fmap_app by assumption.
    now rewrite app_assoc.
Qed.

Lemma accepted_alerts_announced_once_witness :
  0 < num_backlog tracker_small /\
  alert_messages (messagebus (run tracker_small three_raises)) =
    alert_messages (messagebus tracker_small)
    ++ (announcement <$> accepted tracker_small three_raises).
Proof.
  assert (Hn : 0 < num_backlog tracker_small) by (vm_compute; reflexivity).
  exact (conj Hn (accepted_alerts_announced_once tracker_small three_raises Hn)).
Defined.

(** ** The queries for the definitions and for all alerts *)

Lemma omap_lookup_seq {A} (l pre : list A) :
  omap (fun p => (pre ++ l) !! p) (seq (length pre) (length l)) = l.
Proof.
  revert pre. induction l as [|x l IH]; intros pre; [reflexivity|].
  simpl. rewrite list_lookup_middle by reflexivity. f_equal.
  specialize (IH (pre ++ [x])). rewrite length_app in IH. simpl in IH.
  rewrite <- app_assoc in IH. simpl in IH.
  now rewrite Nat.add_1_r in IH.
Qed.

(** X8: on a tracker reached from the empty one, a GET request for
    [.../alerts/definitions] is answered with every stored definition, once
    each, in the order of registration and with its counters as they are. *)
Theorem query_definitions
    (Httpd_CanSerialize : string -> bool)
    (Httpd_StripSuffix : string -> string)
    (StrTokenize : string -> string -> list string)
    (sscanf_ld : string -> option Z)
    (path : string) (timestamp : timeval) (n : Z) (ops : list op)
    (tokenurl : list string) (t2 : string) :
  Httpd_CanSerialize path = true ->
  StrTokenize path "/" = tokenurl ->
  (3 <= length tokenurl)%nat ->
  tokenurl !! 1%nat = Some "alerts"%string ->
  tokenurl !! 2%nat = Some t2 ->
  Httpd_StripSuffix t2 = "definitions"%string ->
  Httpd_CreateStreamResponse Httpd_CanSerialize Httpd_StripSuffix StrTokenize
    sscanf_ld path "GET" timestamp (run (empty_tracker n) ops) =
    Some (TE_definitions (arec_store (run (empty_tracker n) ops))).
Proof.
  intros Hcan Htok Hlen H1 H2 Hstrip.
  destruct (tracker_wf_run ops _ (tracker_wf_empty n)) as (Hv & _ & _).
  unfold Httpd_CreateStreamResponse. simpl. rewrite Hcan, Htok. simpl.
  destruct (Nat.ltb_spec (length tokenurl) 3); [lia|].
  unfold route_of, token. rewrite H1, H2. simpl. rewrite Hstrip. simpl.
  rewrite Hv. do 2 f_equal.
  apply (omap_lookup_seq (arec_store (run (empty_tracker n) ops)) []).
Qed.

Lemma query_definitions_witness :
  Httpd_CreateStreamResponse (fun _ => true) (fun _ => "definitions"%string)
    (fun _ _ => [""; "alerts"; "definitions.json"]%string) (fun _ => None)
    "/alerts/definitions.json" "GET" (Timeval 1003 0)
    (run (empty_tracker 50)
       [Op_RegisterAlert "probeflood" "Probe flood" sat_minute 5 sat_second 2 0])
  = Some (TE_definitions
            [Build_def 0 "PROBEFLOOD" "Probe flood" 0 sat_minute 5 sat_second 2 0 0 0]).
Proof.
  exact (query_definitions (fun _ => true) (fun _ => "definitions"%string)
    (fun _ _ => [""; "alerts"; "definitions.json"]%string) (fun _ => None)
    "/alerts/definitions.json" (Timeval 1003 0) 50
    [Op_RegisterAlert "probeflood" "Probe flood" sat_minute 5 sat_second 2 0]
    [""; "alerts"; "definitions.json"]%string "definitions.json"
    eq_refl eq_refl ltac:(simpl; lia) eq_refl eq_refl eq_refl).
Defined.

(** X9: a GET request that is neither for the definitions nor for the alerts
    since a time (so the one for [.../alerts/all_alerts]) is answered with
    the alerts of the backlog whose time stamp is after second 0, in the
    order of the backlog and without a time stamp of the server around
    them: with the whole backlog, when no alert is stamped at or before the
    epoch. *)
Theorem query_all_alerts
    (Httpd_CanSerialize : string -> bool)
    (Httpd_StripSuffix : string -> string)
    (StrTokenize : string -> string -> list string)
    (sscanf_ld : string -> option Z)
    (path : string) (timestamp : timeval) (t : Alertracker)
    (tokenurl : list string) (t2 : string) :
  Httpd_CanSerialize path = true ->
  StrTokenize path "/" = tokenurl ->
  (3 <= length tokenurl)%nat ->
  tokenurl !! 2%nat = Some t2 ->
  Httpd_StripSuffix t2 <> "definitions"%string ->
  t2 <> "last-time"%string ->
  Httpd_CreateStreamResponse Httpd_CanSerialize Httpd_StripSuffix StrTokenize
    sscanf_ld path "GET" timestamp t =
    Some (TE_vector (filter (fun i => 0 < tv_sec (tm i)) (alert_backlog t))) /\
  (Forall (fun i => 0 < tv_sec (tm i)) (alert_backlog t) ->
   Httpd_CreateStreamResponse Httpd_CanSerialize Httpd_StripSuffix StrTokenize
     sscanf_ld path "GET" timestamp t = Some (TE_vector (alert_backlog t))).
Proof.
  intros Hcan Htok Hlen H2 Hstrip Hlast.
  assert (Hresp :
    Httpd_CreateStreamResponse Httpd_CanSerialize Httpd_StripSuffix StrTokenize
      sscanf_ld path "GET" timestamp t =
      Some (TE_vector (filter (fun i => 0 < tv_sec (tm i)) (alert_backlog t)))).
  { unfold Httpd_CreateStreamResponse. simpl. rewrite Hcan, Htok. simpl.
    destruct (Nat.ltb_spec (length tokenurl) 3); [lia|].
    unfold route_of, token. rewrite H2. simpl.
    destruct (String.eqb (default "" (tokenurl !! 1%nat)) "alerts");
      [|now rewrite collect_since_filter].
    destruct (String.eqb_spec (Httpd_StripSuffix t2) "definitions");
      [contradiction|].
    destruct (String.eqb_spec t2 "last-time"); [contradiction|].
    now rewrite collect_since_filter. }
  split; [exact Hresp|]. intros Hall. rewrite Hresp.
  do 2 f_equal. now apply filter_all_kept.
Qed.

Lemma query_all_alerts_witness :
  Forall (fun i => 0 < tv_sec (tm i)) (alert_backlog tracker_three_alerts) /\
  Httpd_CreateStreamResponse (fun _ => true) (fun _ => "all_alerts"%string)
    (fun _ _ => [""; "alerts"; "all_alerts.json"]%string) (fun _ => None)
    "/alerts/all_alerts.json" "GET" (Timeval 1003 0) tracker_three_alerts
  = Some (TE_vector (alert_backlog tracker_three_alerts)).
Proof.
  assert (Hall : Forall (fun i => 0 < tv_sec (tm i))
                   (alert_backlog tracker_three_alerts)).
  { vm_compute. repeat (constructor; try reflexivity). }
  refine (conj Hall _).
  refine (proj2 (query_all_alerts (fun _ => true) (fun _ => "all_alerts"%string)
    (fun _ _ => [""; "alerts"; "all_alerts.json"]%string) (fun _ => None)
    "/alerts/all_alerts.json" (Timeval 1003 0) tracker_three_alerts
    [""; "alerts"; "all_alerts.json"]%string "all_alerts.json"
    eq_refl eq_refl ltac:(simpl; lia) eq_refl _ _) Hall); discriminate.
Defined.

(** X10: a path that Httpd_VerifyPath accepts is answered by the handler, with
    one exception: for [.../alerts/last-time/<t>/...] VerifyPath does not
    look at [<t>], and the handler writes nothing when [<t>] is not a
    number.  (That stripping the suffix of "last-time" does not give
    "all_alerts" is all that is asked of the helpers.) *)
Theorem verified_path_is_answered
    (Httpd_CanSerialize : string -> bool)
    (Httpd_StripSuffix : string -> string)
    (StrTokenize : string -> string -> list string)
    (sscanf_ld : string -> option Z)
    (path method : string) (timestamp : timeval) (t : Alertracker) :
  Httpd_StripSuffix "last-time" <> "all_alerts"%string ->
  Httpd_VerifyPath Httpd_CanSerialize Httpd_StripSuffix StrTokenize path method
    = true ->
  let response :=
    Httpd_CreateStreamResponse Httpd_CanSerialize Httpd_StripSuffix StrTokenize
      sscanf_ld path method timestamp t in
  let tokenurl := StrTokenize path "/" in
  is_Some response \/
  (token tokenurl 2 = "last-time"%string /\
   sscanf_ld (token tokenurl 3) = None /\ response = None).
Proof.
  intros Hstrip.
  unfold Httpd_VerifyPath, Httpd_CreateStreamResponse. cbv zeta.
  destruct (negb (String.eqb method "GET")); [discriminate|].
  destruct (negb (Httpd_CanSerialize path)); [discriminate|].
  destruct (length (StrTokenize path "/") <? 3)%nat; [discriminate|].
  unfold route_of.
  destruct (String.eqb (token (StrTokenize path "/") 1) "alerts");
    [|discriminate].
  destruct (String.eqb (Httpd_StripSuffix (token (StrTokenize path "/") 2))
              "definitions"); [intros _; left; eauto|].
  destruct (String.eqb_spec (Httpd_StripSuffix (token (StrTokenize path "/") 2))
              "all_alerts") as [Ha|Ha].
  - intros _.
    destruct (String.eqb_spec (token (StrTokenize path "/") 2) "last-time")
      as [Hl|Hl]; [rewrite Hl in Ha; contradiction|].
    left. eauto.
  - destruct (String.eqb_spec (token (StrTokenize path "/") 2) "last-time")
      as [Hl|Hl]; [|discriminate].
    destruct (length (StrTokenize path "/") <? 5)%nat; [discriminate|].
    intros _. destruct (sscanf_ld (token (StrTokenize path "/") 3)).
    + left. eauto.
    + right. auto.
Qed.

Lemma verified_path_is_answered_witness :
  Httpd_VerifyPath (fun _ => true) (fun s => s)
    (fun _ _ => tokens_since_1000) path_since_1000 "GET" = true /\
  is_Some
    (Httpd_CreateStreamResponse (fun _ => true) (fun s => s)
       (fun _ _ => tokens_since_1000) (fun _ => Some 1000)
       path_since_1000 "GET" (Timeval 1003 0) tracker_three_alerts).
Proof.
  assert (Hv : Httpd_VerifyPath (fun _ => true) (fun s => s)
                 (fun _ _ => tokens_since_1000) path_since_1000 "GET" = true)
    by reflexivity.
  refine (conj Hv _).
  destruct (verified_path_is_answered (fun _ => true) (fun s => s)
              (fun _ _ => tokens_since_1000) (fun _ => Some 1000)
              path_since_1000 "GET" (Timeval 1003 0) tracker_three_alerts
              ltac:(discriminate) Hv) as [H|(_ & H & _)].
  - exact H.
  - discriminate H.
Defined.

(** ** The alert lines of the configuration *)

Lemma unit_of_keyword_range k u :
  unit_of_keyword k = Some u -> sat_second <= u <= sat_day /\ clamp_unit u = u.
Proof.
  unfold unit_of_keyword. repeat case_match; intros [= <-]; vm_compute;
    (split; [split; discriminate | reflexivity]).
Qed.

Lemma ParseRateUnit_cases Tok sscanf in_ru o :
  ParseRateUnit Tok sscanf in_ru = Some o ->
  (ru_ret o = 1 /\ ru_msgs o = [] /\
   exists u r, ru_unit o = Some u /\ ru_rate o = Some r /\
               sat_second <= u <= sat_day) \/
  (ru_ret o = -1 /\ ru_rate o = None /\
   exists m, ru_msgs o = [(m, MSGFLAG_ERROR)]).
Proof.
  unfold ParseRateUnit. cbv zeta.
  destruct (length (Tok in_ru "/") =? 1)%nat; simpl.
  - destruct (Tok in_ru "/" !! 0%nat) as [u0|]; simpl; [|discriminate].
    destruct (sscanf (c_str u0)) as [r|]; intros [= <-]; simpl.
    + left. repeat split. exists sat_minute, r.
      repeat split; vm_compute; discriminate.
    + right. repeat split. eauto.
  - destruct (Tok in_ru "/" !! 1%nat) as [u1|]; simpl; [|discriminate].
    destruct (unit_of_keyword u1) as [u|] eqn:Eu; simpl.
    + destruct (unit_of_keyword_range _ _ Eu) as [Hrange _].
      destruct (Tok in_ru "/" !! 0%nat) as [u0|]; simpl; [|discriminate].
      destruct (sscanf (c_str u0)) as [r|]; intros [= <-]; simpl.
      * left. repeat split. exists u, r. repeat split; apply Hrange.
      * right. repeat split. eauto.
    + intros [= <-]. simpl. right. repeat split. eauto.
Qed.

(** X11: what ParseRateUnit hands back: it returns 1 or -1.  With 1 it has
    written a unit and a rate and sent no message; the unit is one of the
    four units (RegisterAlert will not have to clamp it) and is the minute
    when the text has no "/"; the rate is what [sscanf] read in the first
    part.  With -1 it has not written the rate and has sent one error
    message. *)
Theorem ParseRateUnit_result
    (StrTokenize : string -> string -> list string)
    (sscanf_d : string -> option Z) (in_ru : string) (o : rate_unit_out) :
  ParseRateUnit StrTokenize sscanf_d in_ru = Some o ->
  (ru_ret o = 1 /\ ru_msgs o = [] /\
   exists u r u0,
     ru_unit o = Some u /\ ru_rate o = Some r /\
     sat_second <= u <= sat_day /\ clamp_unit u = u /\
     StrTokenize in_ru "/" !! 0%nat = Some u0 /\ sscanf_d (c_str u0) = Some r /\
     (length (StrTokenize in_ru "/") = 1%nat -> u = sat_minute)) \/
  (ru_ret o = -1 /\ ru_rate o = None /\
   exists m, ru_msgs o = [(m, MSGFLAG_ERROR)]).
Proof.
  unfold ParseRateUnit. cbv zeta.
  destruct (Nat.eqb_spec (length (StrTokenize in_ru "/")) 1) as [H1|H1]; simpl.
  - destruct (StrTokenize in_ru "/" !! 0%nat) as [u0|] eqn:E0; simpl;
      [|discriminate].
    destruct (sscanf_d (c_str u0)) as [r|] eqn:Es; intros [= <-]; simpl.
    + left. repeat split. exists sat_minute, r, u0.
      repeat split; auto; vm_compute; discriminate.
    + right. repeat split. eauto.
  - destruct (StrTokenize in_ru "/" !! 1%nat) as [u1|] eqn:E1; simpl;
      [|discriminate].
    destruct (unit_of_keyword u1) as [u|] eqn:Eu; simpl.
    + destruct (unit_of_keyword_range _ _ Eu) as [Hrange Hclamp].
      destruct (StrTokenize in_ru "/" !! 0%nat) as [u0|] eqn:E0; simpl;
        [|discriminate].
      destruct (sscanf_d (c_str u0)) as [r|] eqn:Es; intros [= <-]; simpl.
      * left. repeat split. exists u, r, u0.
        repeat split; auto; try apply Hrange. intros; contradiction.
      * right. repeat split. eauto.
    + intros [= <-]. simpl. right. repeat split. eauto.
Qed.

Lemma ParseRateUnit_result_witness :
  ParseRateUnit tokenize_probeflood scan_probeflood "5/min"
    = Some (Build_ru_out 1 (Some sat_minute) (Some 5) []) /\
  ru_ret (Build_ru_out 1 (Some sat_minute) (Some 5) []) = 1.
Proof.
  assert (H : ParseRateUnit tokenize_probeflood scan_probeflood "5/min"
              = Some (Build_ru_out 1 (Some sat_minute) (Some 5) []))
    by reflexivity.
  refine (conj H _).
  destruct (ParseRateUnit_result tokenize_probeflood scan_probeflood "5/min" _ H)
    as [(H1 & _)|(H1 & _)].
  - exact H1.
  - discriminate H1.
Defined.

Lemma tolower_idemp c : tolower (tolower c) = tolower c.
Proof.
  destruct c as [[] [] [] [] [] [] [] []]; reflexivity.
Qed.

Lemma StrLower_idemp s : StrLower (StrLower s) = StrLower s.
Proof.
  induction s as [|c s IH]; simpl; [reflexivity|].
  now rewrite tolower_idemp, IH.
Qed.

Lemma ParseAlertStr_cases Tok sscanf alert_str o :
  ParseAlertStr Tok sscanf alert_str = Some o ->
  (as_ret o = 1 /\ as_msgs o = [] /\
   exists name u r bu b,
     as_name o = Some name /\
     name = StrLower (token (Tok alert_str ",") 0) /\
     StrLower name = name /\
     as_limit_unit o = Some u /\ as_limit_rate o = Some r /\
     as_limit_burst o = Some bu /\ as_burst_rate o = Some b) \/
  as_ret o = -1.
Proof.
  unfold ParseAlertStr. cbv zeta.
  destruct (negb (length (Tok alert_str ",") =? 3)%nat);
    [intros [= <-]; now right|].
  destruct (ParseRateUnit Tok sscanf (StrLower (token (Tok alert_str ",") 1)))
    as [r1|] eqn:E1; simpl; [|discriminate].
  destruct (ParseRateUnit_cases _ _ _ _ E1)
    as [(Hr1 & Hm1 & u & r & Hu & Hr & _)|(Hr1 & _)];
    rewrite Hr1; simpl; [|intros [= <-]; now right].
  destruct (ParseRateUnit Tok sscanf (StrLower (token (Tok alert_str ",") 2)))
    as [r2|] eqn:E2; simpl; [|discriminate].
  destruct (ParseRateUnit_cases _ _ _ _ E2)
    as [(Hr2 & Hm2 & bu & b & Hbu & Hb & _)|(Hr2 & _)];
    rewrite Hr2; simpl; [|intros [= <-]; now right].
  intros [= <-]. simpl. left. rewrite Hm1, Hm2.
  split; [reflexivity|]. split; [reflexivity|].
  exists (StrLower (token (Tok alert_str ",") 0)), u, r, bu, b.
  repeat split; auto. apply StrLower_idemp.
Qed.

(** X12: what ParseAlertStr hands back: it returns 1 or -1.  With 1 it has
    written all five values and sent no message: the name is the first of
    three comma-separated parts in lower case, both units are among the
    four units.  With -1 the last message it has sent is the error
    "Malformed limits ...", and when the line does not have three parts it
    has written nothing. *)
Theorem ParseAlertStr_result
    (StrTokenize : string -> string -> list string)
    (sscanf_d : string -> option Z) (alert_str : string) (o : alert_str_out) :
  ParseAlertStr StrTokenize sscanf_d alert_str = Some o ->
  (as_ret o = 1 /\ as_msgs o = [] /\
   length (StrTokenize alert_str ",") = 3%nat /\
   exists name u r bu b,
     as_name o = Some name /\
     name = StrLower (token (StrTokenize alert_str ",") 0) /\
     StrLower name = name /\
     as_limit_unit o = Some u /\ as_limit_rate o = Some r /\
     as_limit_burst o = Some bu /\ as_burst_rate o = Some b /\
     sat_second <= u <= sat_day /\ sat_second <= bu <= sat_day) \/
  (as_ret o = -1 /\
   (exists ms,
      as_msgs o = ms ++
        [(snprintf_1024 ("Malformed limits for alert '" +:+ c_str alert_str
                         +:+ "'"), MSGFLAG_ERROR)]) /\
   (length (StrTokenize alert_str ",") <> 3%nat ->
    as_name o = None /\ as_limit_unit o = None /\ as_limit_rate o = None /\
    as_limit_burst o = None /\ as_burst_rate o = None)).
Proof.
  unfold ParseAlertStr. cbv zeta.
  destruct (Nat.eqb_spec (length (StrTokenize alert_str ",")) 3) as [H3|H3];
    simpl.
  2:{ intros [= <-]. simpl. right. split; [reflexivity|].
      split; [exists []; reflexivity | auto 10]. }
  destruct (ParseRateUnit StrTokenize sscanf_d
              (StrLower (token (StrTokenize alert_str ",") 1))) as [r1|] eqn:E1;
    simpl; [|discriminate].
  destruct (ParseRateUnit_cases _ _ _ _ E1)
    as [(Hr1 & Hm1 & u & r & Hu & Hr & Hrange)|(Hr1 & _)].
  2:{ rewrite Hr1. simpl. intros [= <-]. simpl. right.
      split; [reflexivity|]. split; [eauto | intros; contradiction]. }
  rewrite Hr1. simpl.
  destruct (ParseRateUnit StrTokenize sscanf_d
              (StrLower (token (StrTokenize alert_str ",") 2))) as [r2|] eqn:E2;
    simpl; [|discriminate].
  destruct (ParseRateUnit_cases _ _ _ _ E2)
    as [(Hr2 & Hm2 & bu & b & Hbu & Hb & Hbrange)|(Hr2 & _)].
  2:{ rewrite Hr2. simpl. intros [= <-]. simpl. right.
      split; [reflexivity|]. split; [|intros; contradiction].
      exists (ru_msgs r1 ++ ru_msgs r2). now rewrite app_assoc. }
  rewrite Hr2. simpl. intros [= <-]. simpl. left.
  rewrite Hm1, Hm2. repeat split; try assumption.
  exists (StrLower (token (StrTokenize alert_str ",") 0)), u, r, bu, b.
  repeat split; auto; try apply Hrange; try apply Hbrange.
  apply StrLower_idemp.
Qed.

Lemma ParseAlertStr_result_witness :
  ParseAlertStr tokenize_probeflood scan_probeflood line_probeflood
    = Some (Build_as_out 1 (Some "probeflood"%string) (Some sat_minute) (Some 5)
              (Some sat_second) (Some 2) []) /\
  as_ret (Build_as_out 1 (Some "probeflood"%string) (Some sat_minute) (Some 5)
            (Some sat_second) (Some 2) []) = 1.
Proof.
  assert (H : ParseAlertStr tokenize_probeflood scan_probeflood line_probeflood
    = Some (Build_as_out 1 (Some "probeflood"%string) (Some sat_minute) (Some 5)
              (Some sat_second) (Some 2) [])) by reflexivity.
  refine (conj H _).
  destruct (ParseAlertStr_result tokenize_probeflood scan_probeflood
              line_probeflood _ H) as [(H1 & _)|(H1 & _)].
  - exact H1.
  - discriminate H1.
Defined.

Lemma cfg_MSGs_nil c : cfg_MSGs [] c = c.
Proof. now destruct c. Qed.

Lemma ParseAlertConfig_cons Tok sscanf fresh line lines c o :
  ParseAlertStr Tok sscanf line = Some o -> as_ret o = 1 ->
  ParseAlertConfig Tok sscanf fresh (line :: lines) c =
    ParseAlertConfig Tok sscanf fresh lines
      (Build_config (cfg_tracker c)
         (add_conf_line Tok sscanf fresh (alert_conf_map c) line)
         (fatal_condition c)).
Proof.
  intros Ho Hr.
  destruct (ParseAlertStr_cases _ _ _ _ Ho) as [(_ & Hm & _)|Hneg];
    [|lia].
  cbn [ParseAlertConfig]. unfold add_conf_line. rewrite Ho.
  cbn [mbind option_bind]. rewrite Hr, Hm, cfg_MSGs_nil. reflexivity.
Qed.

Lemma ParseAlertConfig_spec Tok sscanf fresh lines : forall c r c',
  ParseAlertConfig Tok sscanf fresh lines c = Some (r, c') ->
  (r = 1 /\ cfg_tracker c' = cfg_tracker c /\
   fatal_condition c' = fatal_condition c /\
   Forall (line_parses Tok sscanf) lines /\
   alert_conf_map c' =
     foldl (add_conf_line Tok sscanf fresh) (alert_conf_map c) lines) \/
  (r = -1 /\ fatal_condition c' = 1 /\
   exists l1 line l2 o,
     lines = l1 ++ line :: l2 /\
     Forall (line_parses Tok sscanf) l1 /\
     ParseAlertStr Tok sscanf line = Some o /\ as_ret o = -1 /\
     alert_conf_map c' =
       foldl (add_conf_line Tok sscanf fresh) (alert_conf_map c) l1 /\
     registry_unchanged (cfg_tracker c) (cfg_tracker c') /\
     messagebus (cfg_tracker c') =
       messagebus (cfg_tracker c) ++ as_msgs o ++
         [("Invalid alert line in config file: " +:+ line, MSGFLAG_FATAL)]).
Proof.
  induction lines as [|line lines IH]; intros c r c' H.
  - simpl in H. injection H as <- <-. left. repeat split. constructor.
  - destruct (ParseAlertStr Tok sscanf line) as [o|] eqn:Ho;
      [|simpl in H; rewrite Ho in H; discriminate].
    destruct (ParseAlertStr_cases _ _ _ _ Ho) as [(Hr & Hm & _)|Hr].
    + rewrite (ParseAlertConfig_cons _ _ _ _ _ _ _ Ho Hr) in H.
      destruct (IH _ _ _ H) as
        [(-> & Ht & Hf & Hall & Hmap)
        |(-> & Hf & l1 & l & l2 & o' & -> & Hall & Ho' & Hr' & Hmap & Hreg & Hbus)];
        simpl in *.
      * left. repeat split; try assumption.
        constructor; [exists o; auto | assumption].
      * right. split; [reflexivity|]. split; [assumption|].
        exists (line :: l1), l, l2, o'.
        split; [reflexivity|].
        split; [constructor; [exists o; auto | assumption]|].
        split; [assumption|]. split; [assumption|].
        split; [exact Hmap|]. split; assumption.
    + simpl in H. rewrite Ho in H. simpl in H. rewrite Hr in H. simpl in H.
      injection H as <- <-. right. simpl.
      split; [reflexivity|]. split; [reflexivity|].
      exists [], line, lines, o. simpl.
      split; [reflexivity|]. split; [constructor|].
      split; [assumption|]. split; [assumption|]. split; [reflexivity|].
      split.
      * clear. generalize (as_msgs o) (cfg_tracker c).
        intros ms; induction ms as [|m ms IHm]; intros t; simpl;
          [unfold registry_unchanged; tauto|].
        destruct (IHm (MSG m.1 m.2 t)) as (?&?&?&?&?&?&?).
        unfold registry_unchanged; simpl in *; tauto.
      * clear. generalize (as_msgs o) (cfg_tracker c).
        intros ms; induction ms as [|[m f] ms IHm]; intros t; simpl;
          [reflexivity|].
        rewrite IHm. simpl. now rewrite <- app_assoc.
Qed.

(** X13: ParseAlertConfig reads the alert lines all or nothing: it returns 1
    when every line parses, and then leaves the tracker and the fatal flag
    alone; it returns -1 at the first line that does not parse, and then
    has set the fatal flag, has sent a message flagged fatal that names the
    line as its last message, has registered nothing, and keeps in the map
    the lines it had read before. *)
Theorem ParseAlertConfig_all_or_fatal
    (StrTokenize : string -> string -> list string)
    (sscanf_d : string -> option Z) (fresh : alert_conf_rec)
    (lines : list string) (c : AlertConfig) (r : Z) (c' : AlertConfig) :
  ParseAlertConfig StrTokenize sscanf_d fresh lines c = Some (r, c') ->
  (r = 1 /\ cfg_tracker c' = cfg_tracker c /\
   fatal_condition c' = fatal_condition c /\
   Forall (line_parses StrTokenize sscanf_d) lines) \/
  (r = -1 /\ fatal_condition c' = 1 /\
   exists l1 line l2 bus,
     lines = l1 ++ line :: l2 /\
     Forall (line_parses StrTokenize sscanf_d) l1 /\
     ~ line_parses StrTokenize sscanf_d line /\
     alert_conf_map c' =
       foldl (add_conf_line StrTokenize sscanf_d fresh) (alert_conf_map c) l1 /\
     registry_unchanged (cfg_tracker c) (cfg_tracker c') /\
     messagebus (cfg_tracker c') =
       bus ++ [("Invalid alert line in config file: " +:+ line, MSGFLAG_FATAL)]).
Proof.
  intros H. destruct (ParseAlertConfig_spec _ _ _ _ _ _ _ H) as
    [(-> & Ht & Hf & Hall & _)
    |(-> & Hf & l1 & l & l2 & o & -> & Hall & Ho & Hr & Hmap & Hreg & Hbus)].
  - left. auto.
  - right. split; [reflexivity|]. split; [assumption|].
    exists l1, l, l2, (messagebus (cfg_tracker c) ++ as_msgs o).
    split; [reflexivity|]. split; [assumption|].
    split.
    { intros (o' & Ho' & Hr'). rewrite Ho in Ho'. injection Ho' as <-. lia. }
    split; [assumption|]. split; [assumption|].
    rewrite Hbus. now rewrite app_assoc.
Qed.

Lemma ParseAlertConfig_all_or_fatal_witness :
  ParseAlertConfig tokenize_probeflood scan_probeflood fresh_conf_rec
    [line_probeflood] (Build_config (empty_tracker 50) ∅ 0)
    = Some (1, config_probeflood) /\
  Forall (line_parses tokenize_probeflood scan_probeflood) [line_probeflood].
Proof.
  assert (H : ParseAlertConfig tokenize_probeflood scan_probeflood fresh_conf_rec
                [line_probeflood] (Build_config (empty_tracker 50) ∅ 0)
              = Some (1, config_probeflood)) by reflexivity.
  refine (conj H _).
  destruct (ParseAlertConfig_all_or_fatal tokenize_probeflood scan_probeflood
              fresh_conf_rec [line_probeflood] _ 1 config_probeflood H)
    as [(_ & _ & _ & Hall)|(H1 & _)].
  - exact Hall.
  - discriminate H1.
Defined.

Lemma add_conf_line_key Tok sscanf fresh m line o :
  ParseAlertStr Tok sscanf line = Some o -> as_ret o = 1 ->
  exists name,
    as_name o = Some name /\ conf_header (conf_rec_written fresh o) = name /\
    add_conf_line Tok sscanf fresh m line =
      <[name := conf_rec_written fresh o]> m.
Proof.
  intros Ho Hr. unfold add_conf_line. rewrite Ho.
  destruct (ParseAlertStr_cases _ _ _ _ Ho)
    as [(_ & _ & name & u & r & bu & b & Hn & _ & Hlow & _)|Hneg];
    [|lia].
  exists name. unfold conf_rec_written at 1 2. simpl. rewrite Hn. simpl.
  rewrite Hlow. auto.
Qed.

Lemma foldl_add_conf_line_other Tok sscanf fresh lines : forall m key,
  Forall (line_parses Tok sscanf) lines ->
  Forall (fun l => forall o, ParseAlertStr Tok sscanf l = Some o ->
                     as_name o <> Some key) lines ->
  foldl (add_conf_line Tok sscanf fresh) m lines !! key = m !! key.
Proof.
  induction lines as [|l lines IH]; intros m key Hok Hne; [reflexivity|].
  inversion Hok as [|? ? (o & Ho & Hr) Hok']; subst.
  inversion Hne as [|? ? Hl Hne']; subst. simpl.
  rewrite IH by assumption.
  destruct (add_conf_line_key Tok sscanf fresh m l o Ho Hr) as (name & Hn & _ & ->).
  apply lookup_insert_ne. intros ->. exact (Hl o Ho Hn).
Qed.

(** X14: once ParseAlertConfig has returned 1, every line can be looked up under
    its name in lower case, and what is found is the record of the last
    line of that name: its header is the name, its units and rates are the
    ones the line gave. *)
Theorem ParseAlertConfig_lookup
    (StrTokenize : string -> string -> list string)
    (sscanf_d : string -> option Z) (fresh : alert_conf_rec)
    (l1 : list string) (line : string) (l2 : list string)
    (c c' : AlertConfig) (o : alert_str_out) :
  ParseAlertConfig StrTokenize sscanf_d fresh (l1 ++ line :: l2) c
    = Some (1, c') ->
  ParseAlertStr StrTokenize sscanf_d line = Some o ->
  Forall (fun l => forall o', ParseAlertStr StrTokenize sscanf_d l = Some o' ->
                     as_name o' <> as_name o) l2 ->
  exists name rec,
    name = StrLower (token (StrTokenize line ",") 0) /\
    alert_conf_map c' !! name = Some rec /\
    conf_header rec = name /\
    as_limit_unit o = Some (conf_limit_unit rec) /\
    as_limit_rate o = Some (conf_limit_rate rec) /\
    as_limit_burst o = Some (conf_burst_unit rec) /\
    as_burst_rate o = Some (conf_limit_burst rec).
Proof.
  intros H Ho Hlast.
  destruct (ParseAlertConfig_spec _ _ _ _ _ _ _ H)
    as [(_ & _ & _ & Hall & Hmap)|(Hneg & _)]; [|lia].
  apply Forall_app in Hall as [Hall1 Hall2].
  inversion Hall2 as [|? ? (o' & Ho' & Hr) Hall3]; subst.
  rewrite Ho in Ho'. injection Ho' as <-.
  destruct (ParseAlertStr_cases _ _ _ _ Ho)
    as [(_ & _ & name & u & r & bu & b & Hn & Hname & Hlow & Hu & Hrt & Hbu
         & Hb)|Hneg]; [|lia].
  exists name, (conf_rec_written fresh o). split; [assumption|].
  split.
  - rewrite Hmap, foldl_app. simpl.
    rewrite foldl_add_conf_line_other; [|assumption|].
    + destruct (add_conf_line_key StrTokenize sscanf_d fresh
                  (foldl (add_conf_line StrTokenize sscanf_d fresh)
                     (alert_conf_map c) l1) line o Ho Hr)
        as (name' & Hn' & _ & ->).
      rewrite Hn in Hn'. injection Hn' as <-. apply lookup_insert_eq.
    + rewrite <- Hn. exact Hlast.
  - unfold conf_rec_written. simpl. rewrite Hn, Hu, Hrt, Hbu, Hb. simpl. auto.
Qed.

Lemma ParseAlertConfig_lookup_witness :
  exists rec,
    alert_conf_map config_probeflood !! "probeflood"%string = Some rec /\
    conf_header rec = "probeflood"%string /\
    Some sat_minute = Some (conf_limit_unit rec).
Proof.
  destruct (ParseAlertConfig_lookup tokenize_probeflood scan_probeflood
              fresh_conf_rec [] line_probeflood []
              (Build_config (empty_tracker 50) ∅ 0) config_probeflood
              (Build_as_out 1 (Some "probeflood"%string) (Some sat_minute)
                 (Some 5) (Some sat_second) (Some 2) [])
              eq_refl eq_refl ltac:(constructor))
    as (name & rec & Hname & Hlook & Hhdr & Hunit & _).
  subst name. exists rec. exact (conj Hlook (conj Hhdr Hunit)).
Defined.

(** ** Activating configured alerts *)

(** X15: activating a header that the configuration does not name returns -1,
    sends one message flagged as information, and registers nothing: the
    definitions, the maps and the next ref are what they were. *)
Theorem ActivateConfiguredAlert_unknown (in_header in_desc : string)
    (in_phy : Z) (c : AlertConfig) :
  alert_conf_map c !! StrLower in_header = None ->
  let res := ActivateConfiguredAlert in_header in_desc in_phy c in
  res.1 = -1 /\
  registry_unchanged (cfg_tracker c) (cfg_tracker res.2) /\
  alert_conf_map res.2 = alert_conf_map c /\
  fatal_condition res.2 = fatal_condition c /\
  messagebus (cfg_tracker res.2) =
    messagebus (cfg_tracker c) ++
      [("Alert type " +:+ in_header +:+ " not found in list of activated "
        +:+ "alerts.", MSGFLAG_INFO)].
Proof.
  intros Hn. unfold ActivateConfiguredAlert. rewrite Hn. simpl.
  unfold registry_unchanged; simpl. tauto.
Qed.

Lemma ActivateConfiguredAlert_unknown_witness :
  alert_conf_map config_probeflood !! StrLower "DeauthFlood" = None /\
  (ActivateConfiguredAlert "DeauthFlood" "Deauth flood" 0 config_probeflood).1
    = -1.
Proof.
  assert (Hn : alert_conf_map config_probeflood !! StrLower "DeauthFlood" = None)
    by (vm_compute; reflexivity).
  exact (conj Hn (proj1 (ActivateConfiguredAlert_unknown "DeauthFlood"
    "Deauth flood" 0 config_probeflood Hn))).
Defined.

(** X16: activating a configured alert whose stored header has a letter in lower
    case (as every header that ParseAlertConfig stores and that has a letter
    at all) registers a new definition each time, on a tracker whose names
    are in upper case: when its burst unit is not coarser than its unit, the
    call returns the next ref, and the upper-case header is then found under
    this ref; a second activation of the same header is not refused as a
    duplicate either, returns the ref after it and takes the name over. *)
Theorem ActivateConfiguredAlert_registers (in_header in_desc in_desc2 : string)
    (in_phy in_phy2 : Z) (c : AlertConfig) (rec : alert_conf_rec) :
  tracker_wf (cfg_tracker c) ->
  alert_conf_map c !! StrLower in_header = Some rec ->
  StrUpper (conf_header rec) <> conf_header rec ->
  clamp_unit (conf_burst_unit rec) <= clamp_unit (conf_limit_unit rec) ->
  let r1 := ActivateConfiguredAlert in_header in_desc in_phy c in
  let r2 := ActivateConfiguredAlert in_header in_desc2 in_phy2 r1.2 in
  r1.1 = next_alert_id (cfg_tracker c) /\
  FetchAlertRef (StrUpper (conf_header rec)) (cfg_tracker r1.2) = r1.1 /\
  length (arec_store (cfg_tracker r1.2)) = S (length (arec_store (cfg_tracker c))) /\
  r2.1 = int_wrap (next_alert_id (cfg_tracker c) + 1) /\
  FetchAlertRef (StrUpper (conf_header rec)) (cfg_tracker r2.2) = r2.1 /\
  length (arec_store (cfg_tracker r2.2)) =
    S (S (length (arec_store (cfg_tracker c)))).
Proof.
  intros Hwf Hrec Hup Hunits r1 r2.
  assert (Hfree : forall t, tracker_wf t ->
            alert_name_map t !! conf_header rec = None).
  { intros t (_ & _ & Hm).
    destruct (alert_name_map t !! conf_header rec) as [x|] eqn:E; [|reflexivity].
    destruct (Hm _ _ E) as [Hu _]. contradiction. }
  assert (E1 : r1 =
    ((RegisterAlert (conf_header rec) in_desc (conf_limit_unit rec)
        (conf_limit_rate rec) (conf_burst_unit rec) (conf_limit_burst rec)
        in_phy (cfg_tracker c)).1,
     Build_config
       (RegisterAlert (conf_header rec) in_desc (conf_limit_unit rec)
          (conf_limit_rate rec) (conf_burst_unit rec) (conf_limit_burst rec)
          in_phy (cfg_tracker c)).2
       (alert_conf_map c) (fatal_condition c))).
  { subst r1. unfold ActivateConfiguredAlert. now rewrite Hrec. }
  assert (Hwf1 : tracker_wf (cfg_tracker r1.2)).
  { rewrite E1. simpl. now apply tracker_wf_RegisterAlert. }
  assert (E2 : r2 =
    ((RegisterAlert (conf_header rec) in_desc2 (conf_limit_unit rec)
        (conf_limit_rate rec) (conf_burst_unit rec) (conf_limit_burst rec)
        in_phy2 (cfg_tracker r1.2)).1,
     Build_config
       (RegisterAlert (conf_header rec) in_desc2 (conf_limit_unit rec)
          (conf_limit_rate rec) (conf_burst_unit rec) (conf_limit_burst rec)
          in_phy2 (cfg_tracker r1.2)).2
       (alert_conf_map c) (fatal_condition c))).
  { subst r2. unfold ActivateConfiguredAlert.
    replace (alert_conf_map r1.2) with (alert_conf_map c) by now rewrite E1.
    rewrite Hrec. now rewrite E1. }
  rewrite E2. simpl.
  rewrite (RegisterAlert_new _ _ _ _ _ _ _ _ (Hfree _ Hwf1) Hunits).
  rewrite E1. simpl.
  rewrite (RegisterAlert_new _ _ _ _ _ _ _ _ (Hfree _ Hwf) Hunits).
  unfold FetchAlertRef. simpl. rewrite !lookup_insert_eq.
  rewrite !length_app. simpl. repeat split; lia.
Qed.

Lemma ActivateConfiguredAlert_registers_witness :
  (ActivateConfiguredAlert "ProbeFlood" "Probe flood" 0 config_probeflood).1 = 0 /\
  (ActivateConfiguredAlert "ProbeFlood" "Probe flood" 0
     (ActivateConfiguredAlert "ProbeFlood" "Probe flood" 0 config_probeflood).2).1
    = int_wrap (0 + 1).
Proof.
  assert (Hrec : alert_conf_map config_probeflood !! StrLower "ProbeFlood"
                 = Some (Build_conf_rec "probeflood" sat_minute 5 sat_second 2))
    by (vm_compute; reflexivity).
  destruct (ActivateConfiguredAlert_registers "ProbeFlood" "Probe flood"
              "Probe flood" 0 0 config_probeflood _
              (tracker_wf_empty 50) Hrec
              ltac:(vm_compute; discriminate) ltac:(vm_compute; discriminate))
    as (H1 & _ & _ & H2 & _).
  exact (conj H1 H2).
Defined.

(** ** The constructor *)

(** X17: a construction that does not end fatal, with a backlog size given in
    the configuration: the size read is not negative and is the capacity of
    the backlog; every alert line parsed; the alert type "KISMET" is
    registered under ref 0 without limits and is the only definition; the
    backlog is empty.  When the size read is at least 1, whatever
    operations follow use no deleted alert, and the backlog never holds
    more alerts than the size read. *)
Theorem Alertracker_new_ready
    (StrTokenize : string -> string -> list string)
    (sscanf_d : string -> option Z)
    (KIS_PHY_ANY n0 : Z) (fresh : alert_conf_rec)
    (opt_alertbacklog : string) (alert_lines : list string)
    (c : AlertConfig) (ref : Z) :
  Alertracker_new StrTokenize sscanf_d KIS_PHY_ANY n0 fresh opt_alertbacklog
    alert_lines = Some (c, Some ref) ->
  opt_alertbacklog <> ""%string ->
  exists n,
    sscanf_d (c_str opt_alertbacklog) = Some n /\ 0 <= n /\
    num_backlog (cfg_tracker c) = n /\
    ref = 0 /\ fatal_condition c = 0 /\
    Forall (line_parses StrTokenize sscanf_d) alert_lines /\
    FetchAlertRef "KISMET" (cfg_tracker c) = 0 /\
    alert_ref_map (cfg_tracker c) !! 0 = Some 0%nat /\
    arec_store (cfg_tracker c) =
      [Build_def 0 "KISMET" "Server events" KIS_PHY_ANY sat_day 0 sat_day 0
         0 0 0] /\
    alert_backlog (cfg_tracker c) = [] /\
    tracker_wf (cfg_tracker c) /\
    freed_alert_used (cfg_tracker c) = false /\
    (0 < n ->
     forall ops,
       freed_alert_used (run (cfg_tracker c) ops) = false /\
       Z.of_nat (length (alert_backlog (run (cfg_tracker c) ops))) <= n).
Proof.
  unfold Alertracker_new. intros H Hopt.
  destruct (String.eqb_spec opt_alertbacklog "") as [|_]; [contradiction|].
  destruct (sscanf_d (c_str opt_alertbacklog)) as [n|]; [|discriminate].
  destruct (Z.ltb_spec n 0) as [|Hn0]; [discriminate|].
  destruct (ParseAlertConfig StrTokenize sscanf_d fresh alert_lines _)
    as [[r c1]|] eqn:Hparse; [|discriminate].
  simpl in H.
  destruct (ParseAlertConfig_spec _ _ _ _ _ _ _ Hparse)
    as [(-> & Ht & Hf & Hall & _)|(-> & _)]; [|discriminate].
  simpl in H, Ht, Hf. rewrite Ht in H. injection H as <- <-.
  exists n. simpl. rewrite Hf.
  split; [reflexivity|]. split; [assumption|]. split; [reflexivity|].
  split; [reflexivity|]. split; [reflexivity|]. split; [assumption|].
  split; [reflexivity|]. split; [reflexivity|]. split; [reflexivity|].
  split; [reflexivity|].
  assert (Hwf : tracker_wf
    (MSG "Created alert tracker..." MSGFLAG_INFO
       (RegisterAlert "KISMET" "Server events" sat_day 0 sat_day 0 KIS_PHY_ANY
          (Build_tracker 0 n [] ∅ ∅ [] [] [] false)).2)).
  { eapply tracker_wf_fields;
      [apply (tracker_wf_RegisterAlert "KISMET" "Server events" sat_day 0
                sat_day 0 KIS_PHY_ANY (Build_tracker 0 n [] ∅ ∅ [] [] [] false)),
             (tracker_wf_empty n) | reflexivity ..]. }
  split; [exact Hwf|]. split; [reflexivity|].
  intros Hn1 ops.
  match goal with |- context [run ?t ops] =>
    assert (Hnb : num_backlog t = n) by reflexivity;
    rewrite (run_keeps_freed_alert_used ops t) by (rewrite Hnb; exact Hn1);
    destruct (run_backlog ops t [] ltac:(rewrite Hnb; exact Hn0) eq_refl)
      as [_ ->];
    rewrite Hnb
  end.
  split; [reflexivity|].
  simpl. rewrite length_drop. lia.
Qed.

(** X18: a construction that ends fatal has set the fatal flag and has
    registered no alert type, not even "KISMET"; its last message is
    flagged fatal. *)
Theorem Alertracker_new_fatal
    (StrTokenize : string -> string -> list string)
    (sscanf_d : string -> option Z)
    (KIS_PHY_ANY n0 : Z) (fresh : alert_conf_rec)
    (opt_alertbacklog : string) (alert_lines : list string)
    (c : AlertConfig) :
  Alertracker_new StrTokenize sscanf_d KIS_PHY_ANY n0 fresh opt_alertbacklog
    alert_lines = Some (c, None) ->
  fatal_condition c = 1 /\
  arec_store (cfg_tracker c) = [] /\
  alert_name_map (cfg_tracker c) = ∅ /\
  alert_ref_map (cfg_tracker c) = ∅ /\
  (exists bus m, messagebus (cfg_tracker c) = bus ++ [(m, MSGFLAG_FATAL)]) /\
  ((opt_alertbacklog <> ""%string /\
    (sscanf_d (c_str opt_alertbacklog) = None \/
     exists n, sscanf_d (c_str opt_alertbacklog) = Some n /\ n < 0)) \/
   ~ Forall (line_parses StrTokenize sscanf_d) alert_lines).
Proof.
  unfold Alertracker_new. intros H.
  match type of H with
  | match ?b with _ => _ end = _ => destruct b as [n|[]] eqn:Hb
  end.
  - destruct (ParseAlertConfig StrTokenize sscanf_d fresh alert_lines _)
      as [[r c1]|] eqn:Hparse; [|discriminate].
    simpl in H.
    destruct (ParseAlertConfig_spec _ _ _ _ _ _ _ Hparse)
      as [(-> & _)
         |(-> & Hf & l1 & line & l2 & o & -> & Hall & Ho & Hret & _ & Hreg & _)];
      [discriminate|].
    simpl in H. injection H as <-. simpl.
    destruct Hreg as (Hs & _ & Hn & Hr & _). simpl in *.
    split; [reflexivity|]. split; [assumption|]. split; [assumption|].
    split; [assumption|]. split; [eauto|].
    right. intros Hall'. apply Forall_app in Hall' as [_ Hall'].
    inversion Hall' as [|? ? (o' & Ho' & Hret') ?]; subst.
    rewrite Ho in Ho'. injection Ho' as <-. lia.
  - injection H as <-. simpl.
    split; [reflexivity|]. split; [reflexivity|]. split; [reflexivity|].
    split; [reflexivity|]. split; [exists []; eauto|].
    left. destruct (String.eqb_spec opt_alertbacklog "") as [|Hne];
      [discriminate|].
    split; [assumption|].
    destruct (sscanf_d (c_str opt_alertbacklog)) as [k|]; [|auto].
    right. exists k. split; [reflexivity|].
    destruct (Z.ltb_spec k 0); [assumption | discriminate].
Qed.

Lemma Alertracker_new_ready_witness :
  exists c,
    Alertracker_new tokenize_probeflood scan_probeflood (-1) 0 fresh_conf_rec
      "100" [line_probeflood] = Some (c, Some 0) /\
    "100"%string <> ""%string /\
    num_backlog (cfg_tracker c) = 100 /\
    FetchAlertRef "KISMET" (cfg_tracker c) = 0 /\
    forall ops,
      freed_alert_used (run (cfg_tracker c) ops) = false /\
      Z.of_nat (length (alert_backlog (run (cfg_tracker c) ops))) <= 100.
Proof.
  eexists. 
  assert (H : Alertracker_new tokenize_probeflood scan_probeflood (-1) 0
                fresh_conf_rec "100" [line_probeflood]
              = Some (Build_config
                        (MSG "Created alert tracker..." MSGFLAG_INFO
                           (RegisterAlert "KISMET" "Server events" sat_day 0
                              sat_day 0 (-1)
                              (Build_tracker 0 100 [] ∅ ∅ [] [] [] false)).2)
                        (alert_conf_map config_probeflood) 0, Some 0))
    by (vm_compute; reflexivity).
  assert (Hne : "100"%string <> ""%string) by discriminate.
  refine (conj H (conj Hne _)).
  destruct (Alertracker_new_ready tokenize_probeflood scan_probeflood (-1) 0
              fresh_conf_rec "100" [line_probeflood] _ 0 H Hne)
    as (n & Hscan & _ & Hnum & _ & _ & _ & Hfetch & _ & _ & _ & _ & _ & Hrun).
  injection Hscan as <-.
  assert (H100 : 0 < 100) by lia.
  exact (conj Hnum (conj Hfetch (Hrun H100))).
Defined.

Lemma Alertracker_new_fatal_witness :
  exists c,
    Alertracker_new tokenize_probeflood scan_probeflood (-1) 0 fresh_conf_rec
      "many" [line_probeflood] = Some (c, None) /\
    fatal_condition c = 1 /\ arec_store (cfg_tracker c) = [].
Proof.
  eexists.
  assert (H : Alertracker_new tokenize_probeflood scan_probeflood (-1) 0
                fresh_conf_rec "many" [line_probeflood]
              = Some (Build_config
                        (MSG ("Illegal value for 'alertbacklog' " +:+
                              "in config file") MSGFLAG_FATAL (empty_tracker 0))
                        ∅ 1, None)) by (vm_compute; reflexivity).
  refine (conj H _).
  destruct (Alertracker_new_fatal tokenize_probeflood scan_probeflood (-1) 0
              fresh_conf_rec "many" [line_probeflood] _ H) as (Hf & Hs & _).
  exact (conj Hf Hs).
Defined.

(** ** The burst limit within one second *)

Lemma conv_at_nonneg u : 0 <= conv_at u.
Proof.
  unfold conv_at. destruct (u <? 0); [lia|].
  destruct (Z.to_nat u) as [|[|[|[|k]]]]; simpl; lia.
Qed.

Lemma CheckTimes_same_second d now :
  limit_rate d <> 0 -> time_last d = tv_sec now ->
  CheckTimes d now = (verdict d, d).
Proof.
  intros Hr Hs. pose proof (conv_at_nonneg (limit_unit d)).
  pose proof (conv_at_nonneg (burst_unit d)).
  rewrite CheckTimes_within_sustained by (assumption || lia).
  destruct (Z.ltb_spec (time_last d) (tv_sec now - conv_at (burst_unit d)));
    [lia | reflexivity].
Qed.

Lemma count_created_cons r rets :
  count_created (r :: rets) =
    ((if decide (r = 1%Z) then 1 else 0) + count_created rets)%nat.
Proof.
  unfold count_created. rewrite filter_cons. now case_decide.
Qed.

Lemma raise_all_cons ref c calls t :
  (raise_all ref (c :: calls) t).1 =
    (RaiseAlert_call ref c t).1.1 ::
    (raise_all ref calls (RaiseAlert_call ref c t).1.2).1.
Proof. reflexivity. Qed.

Lemma same_second_after_first ref s calls : forall t p d,
  alert_ref_map t !! ref = Some p -> arec_store t !! p = Some d ->
  limit_rate d <> 0 -> is_uint64 (limit_burst d) -> 0 <= burst_sent d ->
  time_last d = s ->
  Forall (fun c => tv_sec (rc_now c) = s /\ rc_time0 c = s) calls ->
  Z.of_nat (count_created (raise_all ref calls t).1)
    <= Z.max 0 (limit_burst d - burst_sent d).
Proof.
  induction calls as [|c calls IH]; intros t p d Hr Hp Hl Hlb Hb Hs Hall.
  - change (count_created (raise_all ref [] t).1) with 0%nat. lia.
  - inversion Hall as [|c' calls' [Hnow Ht0] Hall']. clear Hall.
    rewrite raise_all_cons, count_created_cons.
    assert (Hc : CheckTimes d (rc_now c) = (verdict d, d))
      by (apply CheckTimes_same_second; [assumption | congruence]).
    unfold verdict in Hc. destruct (under_limits d) eqn:Hu.
    + destruct (RaiseAlert_accepted ref c t p d Hr Hp) as (H1 & _ & Hst & Hrm & _);
        [now rewrite Hc|].
      rewrite Hc in Hst. simpl in Hst.
      unfold under_limits in Hu. apply andb_prop in Hu as [Hu1 _].
      apply Z.ltb_lt in Hu1.
      set (d1 := set_time_last (rc_time0 c) (inc_total_sent 1 (inc_burst_sent 1 d)))
        in *.
      assert (Hb1 : burst_sent d1 = burst_sent d + 1).
      { subst d1; simpl. apply (uint64_wrap_inc _ (limit_burst d)); assumption. }
      assert (Hr1 : alert_ref_map (RaiseAlert_call ref c t).1.2 !! ref = Some p)
        by now rewrite Hrm.
      assert (Hp1 : arec_store (RaiseAlert_call ref c t).1.2 !! p = Some d1).
      { rewrite Hst. apply list_lookup_insert_eq. eapply lookup_lt_Some; eauto. }
      pose proof (IH _ p d1 Hr1 Hp1 Hl Hlb ltac:(lia) Ht0 Hall') as Hrest.
      rewrite Hb1 in Hrest. change (limit_burst d1) with (limit_burst d) in Hrest.
      rewrite H1. try case_decide; lia.
    + assert (Hv : (CheckTimes d (rc_now c)).1 <> 1) by (rewrite Hc; simpl; lia).
      rewrite (RaiseAlert_denied ref c t p d Hr Hp Hv). simpl.
      rewrite Hc. simpl.
      assert (Hp1 : arec_store (set_arec p d t) !! p = Some d).
      { simpl. apply list_lookup_insert_eq. eapply lookup_lt_Some; eauto. }
      pose proof (IH (set_arec p d t) p d Hr Hp1 Hl Hlb Hb Hs Hall') as Hrest.
      try case_decide; lia.
Qed.

(** X7: however many calls of RaiseAlert are made for a rate-limited
    definition while the clock shows one and the same second, at most
    [limit_burst] of them return 1, or one when the burst limit is 0 (the
    one that a passed sustained window lets through). *)
Theorem same_second_burst_bound (ref : Z) (s : Z) (calls : list raise_call)
    (t : Alertracker) (p : nat) (d : tracked_alert_definition) :
  alert_ref_map t !! ref = Some p -> arec_store t !! p = Some d ->
  limit_rate d <> 0 -> is_uint64 (limit_burst d) -> 0 <= burst_sent d ->
  Forall (fun c => tv_sec (rc_now c) = s /\ rc_time0 c = s) calls ->
  Z.of_nat (count_created (raise_all ref calls t).1)
    <= Z.max 1 (limit_burst d).
Proof.
  revert t p d.
  induction calls as [|c calls IH]; intros t p d Hr Hp Hl Hlb Hb Hall.
  - change (count_created (raise_all ref [] t).1) with 0%nat. lia.
  - inversion Hall as [|c' calls' [Hnow Ht0] Hall']. clear Hall.
    rewrite raise_all_cons, count_created_cons.
    pose proof (CheckTimes_counters d (rc_now c)) as Hk.
    destruct Hk as (_&_&_&_&_& Elr &_& Elb &_&_& Ebs).
    destruct (Z.eq_dec (CheckTimes d (rc_now c)).1 1) as [Hv|Hv].
    + destruct (RaiseAlert_accepted ref c t p d Hr Hp Hv)
        as (H1 & _ & Hst & Hrm & _).
      set (d' := (CheckTimes d (rc_now c)).2) in *.
      set (d1 := set_time_last (rc_time0 c) (inc_total_sent 1 (inc_burst_sent 1 d')))
        in *.
      assert (Hr1 : alert_ref_map (RaiseAlert_call ref c t).1.2 !! ref = Some p)
        by now rewrite Hrm.
      assert (Hp1 : arec_store (RaiseAlert_call ref c t).1.2 !! p = Some d1).
      { rewrite Hst. apply list_lookup_insert_eq. eapply lookup_lt_Some; eauto. }
      assert (Hb1 : 1 <= burst_sent d1).
      { subst d1; simpl.
        destruct (Z.lt_ge_cases (time_last d)
                    (tv_sec (rc_now c) - conv_at (limit_unit d))) as [He|He].
        - subst d'. rewrite CheckTimes_sustained_elapsed by assumption.
          simpl. vm_compute. discriminate.
        - subst d'. rewrite CheckTimes_within_sustained in Hv |- * by assumption.
          unfold verdict, under_limits in Hv.
          destruct (time_last d <? tv_sec (rc_now c) - conv_at (burst_unit d));
            simpl in *;
            match type of Hv with (if ?b then _ else _) = _ =>
              destruct b eqn:Hu; [|lia] end;
            apply andb_prop in Hu as [Hu1 _]; apply Z.ltb_lt in Hu1.
          + change (uint64_wrap 0) with 0 in *.
            rewrite (uint64_wrap_inc 0 (limit_burst d)); lia || assumption.
          + rewrite (uint64_wrap_inc _ (limit_burst d)); lia || assumption. }
      pose proof (same_second_after_first ref s calls _ p d1 Hr1 Hp1) as Hrest.
      change (limit_rate d1) with (limit_rate d') in Hrest.
      change (limit_burst d1) with (limit_burst d') in Hrest.
      rewrite Elr, Elb in Hrest.
      specialize (Hrest Hl Hlb ltac:(lia) Ht0 Hall').
      rewrite H1. try case_decide; lia.
    + rewrite (RaiseAlert_denied ref c t p d Hr Hp Hv). simpl.
      set (d' := (CheckTimes d (rc_now c)).2) in *.
      assert (Hp1 : arec_store (set_arec p d' t) !! p = Some d').
      { simpl. apply list_lookup_insert_eq. eapply lookup_lt_Some; eauto. }
      pose proof (IH (set_arec p d' t) p d' Hr Hp1) as Hrest.
      rewrite Elr, Elb in Hrest.
      specialize (Hrest Hl Hlb ltac:(destruct Ebs; lia) Hall').
      assert ((CheckTimes d (rc_now c)).1 = 0).
      { unfold CheckTimes in *. repeat case_match; simpl in *; lia. }
      try case_decide; lia.
Qed.

Lemma same_second_burst_bound_witness :
  Z.of_nat (count_created
    (raise_all 0 [call_at 1000; call_at 1000; call_at 1000] tracker_5m_2s).1)
  <= Z.max 1 2.
Proof.
  exact (same_second_burst_bound 0 1000
    [call_at 1000; call_at 1000; call_at 1000] tracker_5m_2s 0%nat
    (Build_def 0 "PROBEFLOOD" "Probe flood" 0 sat_minute 5 sat_second 2 0 0 0)
    ltac:(vm_compute; reflexivity) ltac:(vm_compute; reflexivity)
    ltac:(simpl; lia) ltac:(unfold is_uint64; simpl; lia) ltac:(simpl; lia)
    ltac:(repeat constructor)).
Defined.

(** * Properties of uuid *)

(** ** The comparison operators *)

Lemma memcmp_refl a n : memcmp a a n = 0.
Proof.
  revert a. induction n as [|n IH]; intros [|x a]; simpl; try reflexivity.
  rewrite Z.ltb_irrefl. apply IH.
Qed.

Lemma memcmp_eq n : forall a b,
  length a = n -> length b = n -> (memcmp a b n = 0 <-> a = b).
Proof.
  induction n as [|n IH]; intros [|x a] [|y b] Ha Hb; simpl in *;
    try discriminate; try tauto.
  destruct (Z.ltb_spec x y); [split; [lia | intros [= -> _]; lia]|].
  destruct (Z.ltb_spec y x); [split; [lia | intros [= -> _]; lia]|].
  assert (x = y) as -> by lia.
  rewrite (IH a b) by lia. split; [now intros -> | now intros [= ->]].
Qed.

(** X19: [==] holds exactly when the four numbers and the six bytes of the node
    agree, whatever the [error] flags are; [!=] is its negation. *)
Theorem uuid_eq_fields (u op : uuid) :
  length (node u) = 6%nat -> length (node op) = 6%nat ->
  (uuid_eq u op = true <->
   time_low u = time_low op /\ time_mid u = time_mid op /\
   time_hi u = time_hi op /\ clock_seq u = clock_seq op /\
   node u = node op) /\
  uuid_ne u op = negb (uuid_eq u op).
Proof.
  intros Hu Hop. pose proof (memcmp_eq 6 (node u) (node op) Hu Hop) as Hm.
  unfold uuid_eq, uuid_ne.
  destruct (Z.eqb_spec (time_low u) (time_low op)); simpl;
    [|split; [split; [discriminate | tauto] | reflexivity]].
  destruct (Z.eqb_spec (time_mid u) (time_mid op)); simpl;
    [|split; [split; [discriminate | tauto] | reflexivity]].
  destruct (Z.eqb_spec (time_hi u) (time_hi op)); simpl;
    [|split; [split; [discriminate | tauto] | reflexivity]].
  destruct (Z.eqb_spec (clock_seq u) (clock_seq op)); simpl;
    [|split; [split; [discriminate | tauto] | reflexivity]].
  destruct (Z.eqb_spec (memcmp (node u) (node op) 6) 0); simpl.
  - split; [|reflexivity]. split; [|reflexivity]. intros _.
    repeat split; try assumption. now apply Hm.
  - split; [|reflexivity]. split; [discriminate|].
    intros (_&_&_&_&Hn). apply Hm in Hn. contradiction.
Qed.

Lemma uuid_eq_fields_witness :
  uuid_eq (Build_uuid 7 1 0x1001 0x8000 [1; 2; 3; 4; 5; 6] 0)
          (Build_uuid 7 1 0x1001 0x8000 [1; 2; 3; 4; 5; 6] 1) = true.
Proof.
  apply (proj1 (uuid_eq_fields
    (Build_uuid 7 1 0x1001 0x8000 [1; 2; 3; 4; 5; 6] 0)
    (Build_uuid 7 1 0x1001 0x8000 [1; 2; 3; 4; 5; 6] 1) eq_refl eq_refl)).
  repeat split.
Defined.

(** X20: [<] and [<=] fit [==] this far: no uuid is below itself, equal uuids
    are [<=] and not [<], [<] implies [<=], and of two uuids one is [<=]
    the other. *)
Theorem uuid_order_consistent (u op : uuid) :
  uuid_lt u u = false /\ uuid_le u u = true /\
  (uuid_eq u op = true -> uuid_lt u op = false /\ uuid_le u op = true) /\
  (uuid_lt u op = true -> uuid_le u op = true) /\
  (uuid_le u op = true \/ uuid_le op u = true).
Proof.
  split; [|split; [|split; [|split]]].
  - unfold uuid_lt. rewrite !Z.ltb_irrefl, memcmp_refl. reflexivity.
  - unfold uuid_le. now rewrite Z.leb_refl.
  - unfold uuid_eq, uuid_lt, uuid_le.
    destruct (Z.eqb_spec (time_low u) (time_low op)) as [->|]; [|discriminate].
    destruct (Z.eqb_spec (time_mid u) (time_mid op)) as [->|]; [|discriminate].
    destruct (Z.eqb_spec (time_hi u) (time_hi op)) as [->|]; [|discriminate].
    destruct (Z.eqb_spec (clock_seq u) (clock_seq op)) as [->|]; [|discriminate].
    destruct (Z.eqb_spec (memcmp (node u) (node op) 6) 0) as [->|];
      [|discriminate].
    intros _. rewrite !Z.ltb_irrefl, Z.leb_refl. split; reflexivity.
  - unfold uuid_lt, uuid_le.
    repeat match goal with
           | |- context [?a <? ?b] => destruct (Z.ltb_spec a b)
           | |- context [?a <=? ?b] => destruct (Z.leb_spec a b)
           end; try reflexivity; try discriminate; lia.
  - unfold uuid_le.
    destruct (Z.leb_spec (time_low u) (time_low op)); [now left|].
    destruct (Z.leb_spec (time_low op) (time_low u)); [now right | lia].
Qed.

Lemma uuid_order_consistent_witness :
  uuid_lt (Build_uuid 1 5 0 0 [0; 0; 0; 0; 0; 0] 0)
          (Build_uuid 2 3 0 0 [0; 0; 0; 0; 0; 0] 0) = true /\
  uuid_le (Build_uuid 1 5 0 0 [0; 0; 0; 0; 0; 0] 0)
          (Build_uuid 2 3 0 0 [0; 0; 0; 0; 0; 0] 0) = true.
Proof.
  assert (H : uuid_lt (Build_uuid 1 5 0 0 [0; 0; 0; 0; 0; 0] 0)
                      (Build_uuid 2 3 0 0 [0; 0; 0; 0; 0; 0] 0) = true)
    by reflexivity.
  refine (conj H _).
  exact (proj1 (proj2 (proj2 (proj2 (uuid_order_consistent
    (Build_uuid 1 5 0 0 [0; 0; 0; 0; 0; 0] 0)
    (Build_uuid 2 3 0 0 [0; 0; 0; 0; 0; 0] 0))))) H).
Defined.

(** X21: [<] is not the order of the fields one after the other: it holds as
    soon as one field of the left uuid is smaller, so two uuids of which
    each has one smaller field are each below the other (and not [==]). *)
Theorem uuid_lt_both_ways (u op : uuid) :
  time_low u < time_low op -> time_mid op < time_mid u ->
  uuid_lt u op = true /\ uuid_lt op u = true /\
  uuid_le u op = true /\ uuid_le op u = true /\ uuid_eq u op = false.
Proof.
  intros H1 H2. unfold uuid_lt, uuid_le, uuid_eq.
  destruct (Z.ltb_spec (time_low u) (time_low op)); [|lia].
  destruct (Z.ltb_spec (time_low op) (time_low u)); [lia|].
  destruct (Z.ltb_spec (time_mid op) (time_mid u)); [|lia].
  destruct (Z.leb_spec (time_low u) (time_low op)); [|lia].
  destruct (Z.leb_spec (time_low op) (time_low u)); [lia|].
  destruct (Z.leb_spec (time_mid op) (time_mid u)); [|lia].
  destruct (Z.eqb_spec (time_low u) (time_low op)); [lia|].
  repeat split.
Qed.

Lemma uuid_lt_both_ways_witness :
  uuid_lt (Build_uuid 1 5 0 0 [0; 0; 0; 0; 0; 0] 0)
          (Build_uuid 2 3 0 0 [0; 0; 0; 0; 0; 0] 0) = true /\
  uuid_lt (Build_uuid 2 3 0 0 [0; 0; 0; 0; 0; 0] 0)
          (Build_uuid 1 5 0 0 [0; 0; 0; 0; 0; 0] 0) = true.
Proof.
  destruct (uuid_lt_both_ways (Build_uuid 1 5 0 0 [0; 0; 0; 0; 0; 0] 0)
              (Build_uuid 2 3 0 0 [0; 0; 0; 0; 0; 0] 0)
              ltac:(simpl; lia) ltac:(simpl; lia)) as (H1 & H2 & _).
  exact (conj H1 H2).
Defined.

(** * Properties of the time-based uuid *)

Lemma land_3FFF_range x : 0 <= Z.land x 0x3FFF <= 0x3FFF.
Proof.
  change 0x3FFF with (Z.ones 14). rewrite Z.land_ones by lia.
  pose proof (Z.mod_pos_bound x (2 ^ 14) ltac:(lia)).
  change (Z.ones 14) with (2 ^ 14 - 1). lia.
Qed.

Lemma lor_high_bit x k :
  0 <= k -> 0 <= x < 2 ^ k -> Z.lor x (2 ^ k) = x + 2 ^ k.
Proof.
  intros Hk Hx.
  assert (Hland : Z.land x (2 ^ k) = 0).
  { destruct (Z.eq_dec x 0) as [->|Hx0]; [apply Z.land_0_l|].
    apply Z.bits_inj'. intros n Hn. rewrite Z.land_spec, Z.bits_0.
    destruct (Z.eq_dec n k) as [->|Hne].
    - rewrite (Z.bits_above_log2 x k); [reflexivity | lia |].
      apply Z.log2_lt_pow2; lia.
    - rewrite Z.pow2_bits_false by lia. apply andb_false_r. }
  rewrite <- Z.lxor_lor by assumption.
  symmetry. apply Z.add_nocarry_lxor. assumption.
Qed.

(** [get_clock] returns at the first reading that does not send it back to
    [try_again], and only there: it has a result exactly when there is such
    a reading. *)
Lemma get_clock_returns rnd readings st :
  is_Some (get_clock rnd readings st) <->
  Exists (fun tv => try_again st tv = false) readings.
Proof.
  induction readings as [|tv readings IH].
  - split; [intros [x Hx]; discriminate | intros H; inversion H].
  - rewrite Exists_cons. cbn [get_clock]. unfold try_again.
    destruct ((tv_sec (last st) =? 0) && (tv_usec (last st) =? 0))%bool eqn:Hinit.
    + cbn [last tv_sec tv_usec negb andb].
      destruct (Z.ltb_spec (tv_sec tv) (tv_sec tv - 1)); [lia|].
      destruct (Z.eqb_spec (tv_sec tv) (tv_sec tv - 1)); [lia|].
      cbn [andb orb]. split; [now left | intros _; eauto].
    + cbn [negb andb].
      destruct ((tv_sec tv <? tv_sec (last st))
                || ((tv_sec tv =? tv_sec (last st))
                    && (tv_usec tv <? tv_usec (last st))))%bool eqn:Hback.
      * split; [intros _; left | intros _; eauto].
        apply orb_prop in Hback as [Hb|Hb].
        -- apply Z.ltb_lt in Hb.
           destruct (Z.eqb_spec (tv_sec tv) (tv_sec (last st))); [lia|].
           reflexivity.
        -- apply andb_prop in Hb as [_ Hb]. apply Z.ltb_lt in Hb.
           destruct (Z.eqb_spec (tv_usec tv) (tv_usec (last st))); [lia|].
           now rewrite andb_false_r.
      * destruct ((tv_sec tv =? tv_sec (last st))
                  && (tv_usec tv =? tv_usec (last st)))%bool; cbn [andb].
        -- destruct (adjustment st >=? MAX_ADJUSTMENT) eqn:Hmax.
           ++ rewrite IH. unfold try_again. rewrite Hinit, Hmax. cbn [negb andb].
              split; [now right | intros [?|?]; [discriminate | assumption]].
           ++ split; [now left | intros _; eauto].
        -- split; [now left | intros _; eauto].
Qed.

Lemma get_clock_spec rnd readings : forall st hi lo cs st' rest,
  get_clock rnd readings st = Some (hi, lo, cs, st', rest) ->
  0 <= static_clock_seq st <= 0x3FFF -> 0 <= adjustment st <= MAX_ADJUSTMENT ->
  exists tv,
    tv ∈ readings /\ last st' = tv /\
    hi = Z.shiftr (clock_reg_of tv (adjustment st')) 32 /\
    lo = clock_reg_of tv (adjustment st') mod 2 ^ 32 /\
    cs = static_clock_seq st' /\
    0 <= static_clock_seq st' <= 0x3FFF /\
    0 <= adjustment st' <= MAX_ADJUSTMENT.
Proof.
  unfold MAX_ADJUSTMENT.
  induction readings as [|tv readings IH]; intros st hi lo cs st' rest H Hseq Hadj;
    [discriminate|].
  cbn [get_clock] in H.
  set (st1 := if ((tv_sec (last st) =? 0) && (tv_usec (last st) =? 0))%bool
              then Build_clock_state (adjustment st)
                     (Timeval (tv_sec tv - 1) (tv_usec tv))
                     (Z.land (rnd mod 2 ^ 16) 0x3FFF)
              else st) in *.
  assert (Hseq1 : 0 <= static_clock_seq st1 <= 0x3FFF).
  { unfold st1.
    destruct ((tv_sec (last st) =? 0) && (tv_usec (last st) =? 0))%bool;
      [apply land_3FFF_range | assumption]. }
  assert (Hadj1 : 0 <= adjustment st1 <= 10).
  { unfold st1.
    destruct ((tv_sec (last st) =? 0) && (tv_usec (last st) =? 0))%bool;
      assumption. }
  clearbody st1.
  destruct ((tv_sec tv <? tv_sec (last st1))
            || ((tv_sec tv =? tv_sec (last st1))
                && (tv_usec tv <? tv_usec (last st1))))%bool.
  - injection H as <- <- <- <- <-. exists tv. simpl.
    split; [left|]. repeat split; try lia; apply land_3FFF_range.
  - destruct ((tv_sec tv =? tv_sec (last st1))
              && (tv_usec tv =? tv_usec (last st1)))%bool eqn:Heq.
    + destruct (Z.geb_spec (adjustment st1) MAX_ADJUSTMENT) as [Hge|Hlt].
      * destruct (IH _ _ _ _ _ _ H Hseq1 Hadj1) as (tv' & Hin & Hrest).
        exists tv'. split; [now right | exact Hrest].
      * unfold MAX_ADJUSTMENT in Hlt.
        injection H as <- <- <- <- <-. exists tv. simpl.
        apply andb_prop in Heq as [E1 E2].
        apply Z.eqb_eq in E1. apply Z.eqb_eq in E2.
        split; [left|]. split.
        { destruct (last st1), tv; simpl in *; congruence. }
        repeat split; lia.
    + injection H as <- <- <- <- <-. exists tv. simpl.
      split; [left|]. repeat split; lia.
Qed.

(** X22: GenerateTimeUUID returns once the clock gives a reading that does
    not send [get_clock] back to [try_again].  It leaves in the uuid the
    version 1 in the top four bits of [time_hi] and the variant bits 10 on
    top of [clock_seq], the low 60 bits of the clock register spread over
    [time_low], [time_mid] and the rest of [time_hi], the six bytes of the
    node given, and the [error] flag it had.  The clock sequence kept
    between the calls stays below 0x4000. *)
Theorem GenerateTimeUUID_fields (u : uuid) (in_node : list Z) (rnd : Z)
    (readings : list timeval) (st : clock_state) :
  Exists (fun tv => try_again st tv = false) readings ->
  0 <= static_clock_seq st <= 0x3FFF ->
  0 <= adjustment st <= MAX_ADJUSTMENT ->
  length in_node = 6%nat ->
  exists u' st' rest,
    GenerateTimeUUID u in_node rnd readings st = Some (u', st', rest) /\
    0x1000 <= time_hi u' < 0x2000 /\
    0x8000 <= clock_seq u' < 0xC000 /\
    clock_seq u' = static_clock_seq st' + 0x8000 /\
    0 <= time_low u' < 2 ^ 32 /\ 0 <= time_mid u' < 2 ^ 16 /\
    node u' = in_node /\ error u' = error u /\
    0 <= static_clock_seq st' <= 0x3FFF /\
    0 <= adjustment st' <= MAX_ADJUSTMENT /\
    exists tv,
      tv ∈ readings /\ last st' = tv /\
      time_low u' + 2 ^ 32 * time_mid u' + 2 ^ 48 * (time_hi u' - 0x1000) =
        clock_reg_of tv (adjustment st') mod 2 ^ 60.
Proof.
  unfold GenerateTimeUUID. intros Hret Hseq Hadj Hlen.
  apply get_clock_returns with (rnd := rnd) in Hret as [r Hg].
  destruct r as [[[[mid tl] cs] st1] rest1]. rewrite Hg.
  do 3 eexists. split; [reflexivity|].
  destruct (get_clock_spec _ _ _ _ _ _ _ _ Hg Hseq Hadj)
    as (tv & Hin & Hlast & Hmid & Htl & Hcs & Hseq' & Hadj').
  cbn [time_hi clock_seq time_low time_mid node error].
  set (reg := clock_reg_of tv (adjustment st1)) in *.
  assert (Hreg : 0 <= reg < 2 ^ 64).
  { subst reg. unfold clock_reg_of, uint64_wrap. apply Z.mod_pos_bound. lia. }
  assert (Hmid' : mid = reg / 2 ^ 32) by (rewrite Hmid; apply Z.shiftr_div_pow2; lia).
  assert (Hhi : Z.land (Z.shiftr mid 16) 0x0FFF = (mid / 2 ^ 16) mod 2 ^ 12).
  { change 0x0FFF with (Z.ones 12). rewrite Z.land_ones by lia.
    now rewrite Z.shiftr_div_pow2 by lia. }
  pose proof (Z.mod_pos_bound (mid / 2 ^ 16) (2 ^ 12) ltac:(lia)) as Hb12.
  pose proof (Z.mod_pos_bound mid (2 ^ 16) ltac:(lia)) as Hb16.
  pose proof (Z.mod_pos_bound reg (2 ^ 32) ltac:(lia)) as Hb32.
  rewrite Hhi.
  change 0x1000 with (2 ^ 12). change 0x8000 with (2 ^ 15).
  rewrite (lor_high_bit _ 12) by lia.
  rewrite (lor_high_bit cs 15) by (subst cs; change (2 ^ 15) with 32768; lia).
  rewrite firstn_all2 by lia.
  assert (Hsum : reg mod 2 ^ 32 + 2 ^ 32 * (mid mod 2 ^ 16)
                 + 2 ^ 48 * ((mid / 2 ^ 16) mod 2 ^ 12) = reg mod 2 ^ 60).
  { change (2 ^ 60) with (2 ^ 32 * 2 ^ 28).
    rewrite (Z.rem_mul_r reg) by lia. rewrite <- Hmid'.
    change (2 ^ 28) with (2 ^ 16 * 2 ^ 12).
    rewrite (Z.rem_mul_r mid) by lia.
    change (2 ^ 48) with (2 ^ 32 * 2 ^ 16). ring. }
  subst tl cs.
  change (2 ^ 12) with 4096 in *. change (2 ^ 15) with 32768 in *.
  repeat split; try lia; try assumption.
  exists tv. split; [assumption|]. split; [assumption|].
  fold reg. rewrite <- Hsum. ring.
Qed.

Lemma GenerateTimeUUID_fields_witness :
  Exists (fun tv => try_again clock_state_init tv = false)
    [Timeval 1700000000 5] /\
  exists u' st' rest,
    GenerateTimeUUID uuid_zero [1; 2; 3; 4; 5; 6] 0xFFFF
      [Timeval 1700000000 5] clock_state_init = Some (u', st', rest) /\
    0x1000 <= time_hi u' < 0x2000 /\ 0x8000 <= clock_seq u' < 0xC000.
Proof.
  assert (He : Exists (fun tv => try_again clock_state_init tv = false)
                 [Timeval 1700000000 5]) by (left; reflexivity).
  refine (conj He _).
  destruct (GenerateTimeUUID_fields uuid_zero [1; 2; 3; 4; 5; 6] 0xFFFF
              [Timeval 1700000000 5] clock_state_init He
              ltac:(simpl; lia) ltac:(vm_compute; split; discriminate) eq_refl)
    as (u' & st' & rest & H & H1 & H2 & _).
  exists u', st', rest. exact (conj H (conj H1 H2)).
Defined.

(** ** Successive readings of the clock *)

Lemma clock_reg_of_normal tv adj :
  timeval_normal tv -> 0 <= adj <= MAX_ADJUSTMENT ->
  clock_reg_of tv adj = usec_of tv * 10 + adj + 0x01B21DD213814000.
Proof.
  unfold timeval_normal, MAX_ADJUSTMENT, clock_reg_of, usec_of, uint64_wrap.
  intros [Hs Hu] Ha.
  change (Z.shiftl 0x01B21DD2 32) with 0x01B21DD200000000.
  change (2 ^ 32) with 4294967296 in Hs.
  change (2 ^ 64) with 18446744073709551616.
  rewrite (Z.mod_small (tv_usec tv * 10 + adj)) by lia.
  rewrite (Z.mod_small (tv_sec tv)) by lia.
  rewrite (Z.mod_small (tv_sec tv * 10000000)) by lia.
  rewrite (Z.mod_small 0x01B21DD200000000) by lia.
  rewrite (Z.mod_small (tv_usec tv * 10 + adj + tv_sec tv * 10000000)) by lia.
  rewrite Z.mod_small by lia. lia.
Qed.

Lemma clock_reg_split reg :
  Z.shiftr reg 32 * 2 ^ 32 + reg mod 2 ^ 32 = reg.
Proof.
  rewrite Z.shiftr_div_pow2 by lia.
  pose proof (Z.div_mod reg (2 ^ 32) ltac:(lia)). lia.
Qed.

Lemma get_clock_next rnd readings : forall st hi lo cs st' rest,
  get_clock rnd readings st = Some (hi, lo, cs, st', rest) ->
  timeval_normal (last st) -> 0 <= adjustment st <= MAX_ADJUSTMENT ->
  Forall timeval_normal readings ->
  Forall (fun tv => usec_of (last st) <= usec_of tv) readings ->
  cs = static_clock_seq st /\ static_clock_seq st' = static_clock_seq st /\
  timeval_normal (last st') /\ 0 <= adjustment st' <= MAX_ADJUSTMENT /\
  hi = Z.shiftr (clock_reg_of (last st') (adjustment st')) 32 /\
  lo = clock_reg_of (last st') (adjustment st') mod 2 ^ 32 /\
  usec_of (last st) * 10 + adjustment st
    <= usec_of (last st') * 10 + adjustment st' /\
  (usec_of (last st) * 10 + adjustment st
     = usec_of (last st') * 10 + adjustment st' ->
   adjustment st = MAX_ADJUSTMENT).
Proof.
  unfold MAX_ADJUSTMENT.
  induction readings as [|tv readings IH];
    intros st hi lo cs st' rest H Hlast Hadj Hnorm Hfwd; [discriminate|].
  inversion Hnorm as [|? ? Htv Hnorm']; subst.
  inversion Hfwd as [|? ? Hle Hfwd']; subst.
  cbn [get_clock] in H.
  assert (Hinit : ((tv_sec (last st) =? 0) && (tv_usec (last st) =? 0))%bool
                  = false).
  { destruct Hlast as [Hs _]. destruct (Z.eqb_spec (tv_sec (last st)) 0); [lia|].
    reflexivity. }
  rewrite Hinit in H.
  unfold timeval_normal, usec_of in *.
  destruct (last st) as [ls lu] eqn:El. destruct tv as [s u]. simpl in *.
  assert (Hback : ((s <? ls) || ((s =? ls) && (u <? lu)))%bool = false).
  { destruct (Z.ltb_spec s ls); [lia|]. simpl.
    destruct (Z.eqb_spec s ls); [|reflexivity]. simpl.
    destruct (Z.ltb_spec u lu); [lia | reflexivity]. }
  rewrite Hback in H.
  destruct ((s =? ls) && (u =? lu))%bool eqn:Heq.
  - apply andb_prop in Heq as [E1 E2].
    apply Z.eqb_eq in E1. apply Z.eqb_eq in E2. subst s u.
    destruct (Z.geb_spec (adjustment st) MAX_ADJUSTMENT) as [Hge|Hlt];
      unfold MAX_ADJUSTMENT in *.
    + specialize (IH st hi lo cs st' rest H). rewrite ?El in IH. simpl in IH.
      apply IH; assumption.
    + injection H as <- <- <- <- <-. simpl. rewrite ?El. simpl.
      repeat split; try lia.
  - injection H as <- <- <- <- <-. simpl.
    assert (ls * 1000000 + lu < s * 1000000 + u).
    { apply andb_false_iff in Heq.
      destruct (Z.eqb_spec s ls), (Z.eqb_spec u lu); try lia;
        destruct Heq; discriminate. }
    repeat split; try lia.
Qed.

(** X23: two calls of [get_clock] one after the other, on a clock after the
    epoch that does not run backwards between them, each with a reading
    that does not send it back to [try_again]: both calls return, they
    deliver the same clock sequence, and the 64-bit time of the second
    (high and low word together) is not below that of the first; the two
    times are equal only when the first call had used up its
    adjustments. *)
Theorem get_clock_monotone (rnd1 rnd2 : Z) (rs1 rs2 : list timeval)
    (st0 : clock_state) :
  0 <= static_clock_seq st0 <= 0x3FFF ->
  0 <= adjustment st0 <= MAX_ADJUSTMENT ->
  Forall timeval_normal rs1 ->
  Exists (fun tv => try_again st0 tv = false) rs1 ->
  exists h1 l1 c1 st1 rest1,
    get_clock rnd1 rs1 st0 = Some (h1, l1, c1, st1, rest1) /\
    (Forall timeval_normal rs2 ->
     Forall (fun tv => usec_of (last st1) <= usec_of tv) rs2 ->
     Exists (fun tv => try_again st1 tv = false) rs2 ->
     exists h2 l2 c2 st2 rest2,
       get_clock rnd2 rs2 st1 = Some (h2, l2, c2, st2, rest2) /\
       c2 = c1 /\
       h1 * 2 ^ 32 + l1 <= h2 * 2 ^ 32 + l2 /\
       (h1 * 2 ^ 32 + l1 = h2 * 2 ^ 32 + l2 -> adjustment st1 = MAX_ADJUSTMENT)).
Proof.
  intros Hseq Hadj Hn1 Hret1.
  apply get_clock_returns with (rnd := rnd1) in Hret1 as [r1 H1].
  destruct r1 as [[[[h1 l1] c1] st1] rest1].
  exists h1, l1, c1, st1, rest1. split; [exact H1|].
  intros Hn2 Hfwd Hret2.
  apply get_clock_returns with (rnd := rnd2) in Hret2 as [r2 H2].
  destruct r2 as [[[[h2 l2] c2] st2] rest2].
  exists h2, l2, c2, st2, rest2. split; [exact H2|].
  destruct (get_clock_spec _ _ _ _ _ _ _ _ H1 Hseq Hadj)
    as (tv & Hin & Hlast & Hh1 & Hl1 & Hc1 & _ & Hadj1).
  assert (Hnorm1 : timeval_normal (last st1)).
  { rewrite Hlast. rewrite Forall_forall in Hn1. now apply Hn1. }
  destruct (get_clock_next _ _ _ _ _ _ _ _ H2 Hnorm1 Hadj1 Hn2 Hfwd)
    as (Hc2 & _ & Hnorm2 & Hadj2 & Hh2 & Hl2 & Hle & Heq).
  split; [congruence|].
  assert (E1 : h1 * 2 ^ 32 + l1 = clock_reg_of (last st1) (adjustment st1)).
  { rewrite Hh1, Hl1, Hlast. apply clock_reg_split. }
  assert (E2 : h2 * 2 ^ 32 + l2 = clock_reg_of (last st2) (adjustment st2)).
  { rewrite Hh2, Hl2. apply clock_reg_split. }
  rewrite E1, E2.
  rewrite !clock_reg_of_normal by assumption.
  split; [lia|]. intros E. apply Heq. lia.
Qed.

Lemma get_clock_monotone_witness :
  Forall timeval_normal [Timeval 1700000000 5] /\
  Exists (fun tv => try_again clock_state_init tv = false)
    [Timeval 1700000000 5] /\
  exists h1 l1 c1 st1 rest1 h2 l2 c2 st2 rest2,
    get_clock 0 [Timeval 1700000000 5] clock_state_init
      = Some (h1, l1, c1, st1, rest1) /\
    get_clock 0 [Timeval 1700000000 5] st1 = Some (h2, l2, c2, st2, rest2) /\
    c2 = c1 /\ h1 * 2 ^ 32 + l1 <= h2 * 2 ^ 32 + l2.
Proof.
  assert (Hn : Forall timeval_normal [Timeval 1700000000 5]).
  { constructor; [|constructor]. unfold timeval_normal. simpl.
    change (2 ^ 32) with 4294967296. lia. }
  assert (He : Exists (fun tv => try_again clock_state_init tv = false)
                 [Timeval 1700000000 5]) by (left; reflexivity).
  refine (conj Hn (conj He _)).
  destruct (get_clock_monotone 0 0 [Timeval 1700000000 5]
              [Timeval 1700000000 5] clock_state_init
              ltac:(simpl; lia) ltac:(vm_compute; split; discriminate) Hn He)
    as (h1 & l1 & c1 & st1 & rest1 & H1 & Hnext).
  assert (Hst : st1 = Build_clock_state 0 (Timeval 1700000000 5) 0).
  { assert (Hc : get_clock 0 [Timeval 1700000000 5] clock_state_init
      = Some (Z.shiftr (clock_reg_of (Timeval 1700000000 5) 0) 32,
              clock_reg_of (Timeval 1700000000 5) 0 mod 2 ^ 32, 0,
              Build_clock_state 0 (Timeval 1700000000 5) 0, []))
      by (vm_compute; reflexivity).
    rewrite Hc in H1. now injection H1. }
  destruct Hnext as (h2 & l2 & c2 & st2 & rest2 & H2 & Hc & Hle & _).
  - exact Hn.
  - rewrite Hst. constructor; [vm_compute; discriminate | constructor].
  - rewrite Hst. left. reflexivity.
  - exists h1, l1, c1, st1, rest1, h2, l2, c2, st2, rest2.
    exact (conj H1 (conj H2 (conj Hc Hle))).
Defined.

(** ** The text of a uuid *)

Lemma hex_value_digit d : 0 <= d < 16 -> hex_value (hex_digit d) = d.
Proof.
  intros H.
  assert (d = 0 \/ d = 1 \/ d = 2 \/ d = 3 \/ d = 4 \/ d = 5 \/ d = 6 \/ d = 7 \/
          d = 8 \/ d = 9 \/ d = 10 \/ d = 11 \/ d = 12 \/ d = 13 \/ d = 14 \/
          d = 15) as Hd by lia.
  repeat (destruct Hd as [->|Hd]; [reflexivity|]). subst. reflexivity.
Qed.

Lemma hex_digits_rev_length fuel : forall k n,
  0 <= n < 16 ^ Z.of_nat k -> (1 <= k <= fuel)%nat ->
  (1 <= length (hex_digits_rev fuel n) <= k)%nat.
Proof.
  induction fuel as [|fuel IH]; intros k n Hn Hk; [lia|].
  simpl. destruct (Z.eqb_spec (n / 16) 0) as [E|E]; simpl; [lia|].
  destruct k as [|[|k]]; [lia| |].
  - change (16 ^ Z.of_nat 1) with 16 in Hn.
    rewrite Z.div_small in E by lia. contradiction.
  - assert (0 <= n / 16 < 16 ^ Z.of_nat (S k)).
    { replace (Z.of_nat (S (S k))) with (Z.of_nat (S k) + 1) in Hn by lia.
      rewrite Z.pow_add_r in Hn by lia. change (16 ^ 1) with 16 in Hn.
      split; [apply Z.div_pos; lia|].
      apply Z.div_lt_upper_bound; lia. }
    specialize (IH (S k) (n / 16) H ltac:(lia)). lia.
Qed.

Lemma printf_0x_length w n :
  0 <= n < 16 ^ Z.of_nat w -> (1 <= w <= 16)%nat ->
  length (printf_0x w n) = w.
Proof.
  intros Hn Hw. unfold printf_0x.
  pose proof (hex_digits_rev_length 16 w n Hn Hw) as Hl.
  rewrite length_app, length_replicate, length_rev. lia.
Qed.

Lemma hex_number_snoc l c : hex_number (l ++ [c]) = hex_number l * 16 + hex_value c.
Proof. unfold hex_number. now rewrite foldl_app. Qed.

Lemma hex_number_zeros k l : hex_number (replicate k "0"%char ++ l) = hex_number l.
Proof.
  unfold hex_number. rewrite foldl_app. f_equal.
  induction k as [|k IH]; [reflexivity|]. simpl. exact IH.
Qed.

Lemma hex_number_digits fuel : forall n,
  0 <= n < 16 ^ Z.of_nat fuel ->
  hex_number (rev (hex_digits_rev fuel n)) = n.
Proof.
  induction fuel as [|fuel IH]; intros n Hn.
  - change (16 ^ Z.of_nat 0) with 1 in Hn. assert (n = 0) as -> by lia.
    reflexivity.
  - simpl. pose proof (Z.mod_pos_bound n 16 ltac:(lia)) as Hm.
    pose proof (Z.div_mod n 16 ltac:(lia)) as Hdm.
    destruct (Z.eqb_spec (n / 16) 0) as [E|E].
    + simpl. unfold hex_number. simpl. rewrite hex_value_digit by lia. lia.
    + change (rev (hex_digit (n mod 16) :: hex_digits_rev fuel (n / 16)))
        with (rev (hex_digits_rev fuel (n / 16)) ++ [hex_digit (n mod 16)]).
      rewrite hex_number_snoc, hex_value_digit by lia.
      rewrite IH; [lia|].
      replace (Z.of_nat (S fuel)) with (Z.of_nat fuel + 1) in Hn by lia.
      rewrite Z.pow_add_r in Hn by lia. change (16 ^ 1) with 16 in Hn.
      split; [apply Z.div_pos; lia|]. apply Z.div_lt_upper_bound; lia.
Qed.

Lemma hex_number_printf w n :
  0 <= n < 16 ^ 16 -> hex_number (printf_0x w n) = n.
Proof.
  intros Hn. unfold printf_0x. rewrite hex_number_zeros.
  now apply (hex_number_digits 16).
Qed.

Lemma printf_0x_inj w n m :
  0 <= n < 16 ^ 16 -> 0 <= m < 16 ^ 16 ->
  printf_0x w n = printf_0x w m -> n = m.
Proof.
  intros Hn Hm E. rewrite <- (hex_number_printf w n Hn).
  rewrite <- (hex_number_printf w m Hm). now rewrite E.
Qed.

Lemma string_get_of_list l n :
  String.get n (String.string_of_list_ascii l) = nth_error l n.
Proof.
  revert n. induction l as [|c l IH]; intros [|n]; simpl; auto.
Qed.

Lemma string_length_of_list l :
  String.length (String.string_of_list_ascii l) = length l.
Proof. induction l as [|c l IH]; simpl; auto. Qed.

Lemma nth_error_skip {A} (l1 : list A) x l2 n :
  length l1 = n -> nth_error (l1 ++ x :: l2) n = Some x.
Proof.
  intros <-. rewrite nth_error_app2 by lia. now rewrite Nat.sub_diag.
Qed.

Lemma nth_error_past {A} (l1 : list A) x l2 n m :
  length l1 = m -> nth_error (l1 ++ x :: l2) (S (m + n)) = nth_error l2 n.
Proof.
  intros <-. rewrite nth_error_app2 by lia.
  replace (S (length l1 + n) - length l1)%nat with (S n) by lia. reflexivity.
Qed.

Lemma node_byte_range (l : list Z) k :
  Forall (fun b => 0 <= b < 2 ^ 8) l -> 0 <= default 0 (l !! k) < 16 ^ Z.of_nat 2.
Proof.
  intros H. change (16 ^ Z.of_nat 2) with 256.
  destruct (l !! k) as [b|] eqn:E; simpl; [|lia].
  rewrite Forall_forall in H.
  specialize (H b (list_elem_of_lookup_2 _ _ _ E)).
  change (2 ^ 8) with 256 in H. lia.
Qed.

(** X24: the text of a uuid whose fields are within their types has 36
    characters, so the buffer of 38 cuts nothing off, with "-" as the 9th,
    14th, 19th and 24th of them. *)
Theorem UUID2String_shape (u : uuid) :
  uuid_in_range u ->
  String.length (UUID2String u) = 36%nat /\
  String.get 8 (UUID2String u) = Some "-"%char /\
  String.get 13 (UUID2String u) = Some "-"%char /\
  String.get 18 (UUID2String u) = Some "-"%char /\
  String.get 23 (UUID2String u) = Some "-"%char.
Proof.
  intros (Htl & Htm & Hth & Hcs & Hlen & Hbytes). unfold UUID2String.
  assert (H8 : length (printf_0x 8 (time_low u)) = 8%nat)
    by (apply printf_0x_length; [change (16 ^ Z.of_nat 8) with (2 ^ 32)|]; lia).
  assert (H4a : length (printf_0x 4 (time_mid u)) = 4%nat)
    by (apply printf_0x_length; [change (16 ^ Z.of_nat 4) with (2 ^ 16)|]; lia).
  assert (H4b : length (printf_0x 4 (time_hi u)) = 4%nat)
    by (apply printf_0x_length; [change (16 ^ Z.of_nat 4) with (2 ^ 16)|]; lia).
  assert (H4c : length (printf_0x 4 (clock_seq u)) = 4%nat)
    by (apply printf_0x_length; [change (16 ^ Z.of_nat 4) with (2 ^ 16)|]; lia).
  assert (H2 : forall k, length (printf_0x 2 (default 0 (node u !! k))) = 2%nat)
    by (intros k; apply printf_0x_length; [now apply node_byte_range | lia]).
  set (p8 := printf_0x 8 (time_low u)) in *.
  set (p4a := printf_0x 4 (time_mid u)) in *.
  set (p4b := printf_0x 4 (time_hi u)) in *.
  set (p4c := printf_0x 4 (clock_seq u)) in *.
  set (tail := printf_0x 2 (default 0 (node u !! 0%nat)) ++ _).
  assert (Htail : length tail = 12%nat).
  { subst tail. rewrite !length_app, !H2. reflexivity. }
  clearbody tail p8 p4a p4b p4c.
  rewrite take_ge by (rewrite !length_app; simpl; lia).
  rewrite string_length_of_list, !string_get_of_list.
  split; [rewrite !length_app; simpl; lia|].
  cbn [app].
  split; [now apply nth_error_skip|].
  split.
  { change 13%nat with (S (8 + 4)). rewrite (nth_error_past _ _ _ _ _ H8).
    now apply nth_error_skip. }
  split.
  { change 18%nat with (S (8 + S (4 + 4))).
    rewrite (nth_error_past _ _ _ _ _ H8), (nth_error_past _ _ _ _ _ H4a).
    now apply nth_error_skip. }
  change 23%nat with (S (8 + S (4 + S (4 + 4)))).
  rewrite (nth_error_past _ _ _ _ _ H8), (nth_error_past _ _ _ _ _ H4a),
    (nth_error_past _ _ _ _ _ H4b).
  now apply nth_error_skip.
Qed.

Lemma UUID2String_shape_witness :
  uuid_in_range (Build_uuid 0xdeadbeef 0x12 0x1abc 0x8001 [1; 2; 3; 255; 0; 16] 0) /\
  String.length
    (UUID2String (Build_uuid 0xdeadbeef 0x12 0x1abc 0x8001 [1; 2; 3; 255; 0; 16] 0))
    = 36%nat.
Proof.
  assert (Hr : uuid_in_range
                 (Build_uuid 0xdeadbeef 0x12 0x1abc 0x8001 [1; 2; 3; 255; 0; 16] 0)).
  { unfold uuid_in_range. simpl.
    change (2 ^ 32) with 4294967296. change (2 ^ 16) with 65536.
    change (2 ^ 8) with 256.
    repeat split; try lia; repeat (constructor; [lia|]); constructor. }
  exact (conj Hr (proj1 (UUID2String_shape _ Hr))).
Defined.

(** X25: the text tells uuids apart: two uuids whose fields are within their
    types and whose texts are the same have the same four numbers and the
    same node (they are [==]). *)
Theorem UUID2String_injective (u1 u2 : uuid) :
  uuid_in_range u1 -> uuid_in_range u2 ->
  UUID2String u1 = UUID2String u2 ->
  time_low u1 = time_low u2 /\ time_mid u1 = time_mid u2 /\
  time_hi u1 = time_hi u2 /\ clock_seq u1 = clock_seq u2 /\
  node u1 = node u2.
Proof.
  intros (Htl1 & Htm1 & Hth1 & Hcs1 & Hlen1 & Hb1)
         (Htl2 & Htm2 & Hth2 & Hcs2 & Hlen2 & Hb2) E.
  apply (f_equal String.list_ascii_of_string) in E. unfold UUID2String in E.
  rewrite !String.list_ascii_of_string_of_list_ascii in E.
  assert (Hlen : forall w n, 0 <= n < 16 ^ Z.of_nat w -> (1 <= w <= 16)%nat ->
                   length (printf_0x w n) = w) by (intros; now apply printf_0x_length).
  assert (P32 : 16 ^ Z.of_nat 8 = 2 ^ 32) by reflexivity.
  assert (P16 : 16 ^ Z.of_nat 4 = 2 ^ 16) by reflexivity.
  assert (Hbig : 2 ^ 32 < 16 ^ 16 /\ 2 ^ 16 < 16 ^ 16 /\ 16 ^ Z.of_nat 2 < 16 ^ 16)
    by (vm_compute; repeat split).
  destruct (node u1) as [|a1 [|b1 [|c1 [|d1 [|e1 [|f1 [|]]]]]]]; try discriminate.
  destruct (node u2) as [|a2 [|b2 [|c2 [|d2 [|e2 [|f2 [|]]]]]]]; try discriminate.
  simpl in E.
  rewrite !Forall_cons in Hb1, Hb2.
  destruct Hb1 as (Ha1 & Hbb1 & Hc1 & Hd1 & He1 & Hf1 & _).
  destruct Hb2 as (Ha2 & Hbb2 & Hc2 & Hd2 & He2 & Hf2 & _).
  change (2 ^ 8) with (16 ^ Z.of_nat 2) in *.
  clear Hlen1 Hlen2.
  assert (Hl8 : forall x, 0 <= x < 2 ^ 32 -> length (printf_0x 8 x) = 8%nat)
    by (intros; apply Hlen; [rewrite P32|]; lia).
  assert (Hl4 : forall x, 0 <= x < 2 ^ 16 -> length (printf_0x 4 x) = 4%nat)
    by (intros; apply Hlen; [rewrite P16|]; lia).
  assert (Hl2 : forall x, 0 <= x < 16 ^ Z.of_nat 2 ->
                  length (printf_0x 2 x) = 2%nat)
    by (intros; apply Hlen; [assumption | lia]).
  assert (Hlens : forall tl tm th cs a b c d e f,
    0 <= tl < 2 ^ 32 -> 0 <= tm < 2 ^ 16 -> 0 <= th < 2 ^ 16 ->
    0 <= cs < 2 ^ 16 ->
    0 <= a < 16 ^ Z.of_nat 2 -> 0 <= b < 16 ^ Z.of_nat 2 ->
    0 <= c < 16 ^ Z.of_nat 2 -> 0 <= d < 16 ^ Z.of_nat 2 ->
    0 <= e < 16 ^ Z.of_nat 2 -> 0 <= f < 16 ^ Z.of_nat 2 ->
    length (printf_0x 8 tl ++ "-"%char :: printf_0x 4 tm ++ "-"%char ::
            printf_0x 4 th ++ "-"%char :: printf_0x 4 cs ++ "-"%char ::
            printf_0x 2 a ++ printf_0x 2 b ++ printf_0x 2 c ++
            printf_0x 2 d ++ printf_0x 2 e ++ printf_0x 2 f) = 36%nat).
  { intros. repeat (rewrite length_app || rewrite length_cons).
    rewrite Hl8, !Hl4, !Hl2 by assumption. reflexivity. }
  rewrite !take_ge in E by (rewrite Hlens by assumption; lia).
  apply app_inj_1 in E as [F1 E]; [|now rewrite !Hl8].
  injection E as E.
  apply app_inj_1 in E as [F2 E]; [|now rewrite !Hl4].
  injection E as E.
  apply app_inj_1 in E as [F3 E]; [|now rewrite !Hl4].
  injection E as E.
  apply app_inj_1 in E as [F4 E]; [|now rewrite !Hl4].
  injection E as E.
  apply app_inj_1 in E as [G1 E]; [|now rewrite !Hl2].
  apply app_inj_1 in E as [G2 E]; [|now rewrite !Hl2].
  apply app_inj_1 in E as [G3 E]; [|now rewrite !Hl2].
  apply app_inj_1 in E as [G4 E]; [|now rewrite !Hl2].
  apply app_inj_1 in E as [G5 G6]; [|now rewrite !Hl2].
  apply printf_0x_inj in F1; [|lia..]. apply printf_0x_inj in F2; [|lia..].
  apply printf_0x_inj in F3; [|lia..]. apply printf_0x_inj in F4; [|lia..].
  apply printf_0x_inj in G1; [|lia..]. apply printf_0x_inj in G2; [|lia..].
  apply printf_0x_inj in G3; [|lia..]. apply printf_0x_inj in G4; [|lia..].
  apply printf_0x_inj in G5; [|lia..]. apply printf_0x_inj in G6; [|lia..].
  subst. repeat split; assumption.
Qed.

Lemma UUID2String_injective_witness :
  UUID2String (Build_uuid 0xdeadbeef 0x12 0x1abc 0x8001 [1; 2; 3; 255; 0; 16] 0)
  = UUID2String (Build_uuid 0xdeadbeef 0x12 0x1abc 0x8001 [1; 2; 3; 255; 0; 16] 1) /\
  node (Build_uuid 0xdeadbeef 0x12 0x1abc 0x8001 [1; 2; 3; 255; 0; 16] 0)
  = node (Build_uuid 0xdeadbeef 0x12 0x1abc 0x8001 [1; 2; 3; 255; 0; 16] 1).
Proof.
  assert (Hr : forall e, uuid_in_range
                 (Build_uuid 0xdeadbeef 0x12 0x1abc 0x8001 [1; 2; 3; 255; 0; 16] e)).
  { intros e. unfold uuid_in_range. simpl.
    change (2 ^ 32) with 4294967296. change (2 ^ 16) with 65536.
    change (2 ^ 8) with 256.
    repeat split; try lia; repeat (constructor; [lia|]); constructor. }
  assert (E : UUID2String
                (Build_uuid 0xdeadbeef 0x12 0x1abc 0x8001 [1; 2; 3; 255; 0; 16] 0)
              = UUID2String
                (Build_uuid 0xdeadbeef 0x12 0x1abc 0x8001 [1; 2; 3; 255; 0; 16] 1))
    by reflexivity.
  refine (conj E _).
  exact (proj2 (proj2 (proj2 (proj2
    (UUID2String_injective _ _ (Hr 0) (Hr 1) E))))).
Defined.


(** * Properties of the replay of a pcap file *)

(** X26: the pace of a realtime replay: [last_ts] becomes the time stamp of the
    packet; the first packet is not delayed; for a later packet whose time
    stamp is not before that of the one before it, the delay is the time
    between the two in microseconds when the microseconds of its time
    stamp are not below those of the one before, and one second more than
    that when they are.  Without realtime nothing is kept and nothing
    delayed. *)
Theorem replay_delay_pace (local_pcap : local_pcap_t) (ts : timeval) :
  (realtime local_pcap = 0 -> replay_delay local_pcap ts = (0, local_pcap)) /\
  (realtime local_pcap <> 0 ->
   (replay_delay local_pcap ts).2 = Build_local_pcap (realtime local_pcap) ts /\
   (last_ts local_pcap = Timeval 0 0 -> (replay_delay local_pcap ts).1 = 0) /\
   (timeval_normal (last_ts local_pcap) -> timeval_normal ts ->
    usec_of (last_ts local_pcap) <= usec_of ts ->
    (tv_usec (last_ts local_pcap) <= tv_usec ts ->
     (replay_delay local_pcap ts).1 =
       usec_of ts - usec_of (last_ts local_pcap)) /\
    (tv_usec ts < tv_usec (last_ts local_pcap) ->
     (replay_delay local_pcap ts).1 =
       usec_of ts - usec_of (last_ts local_pcap) + 1000000))).
Proof.
  unfold replay_delay. split.
  - intros ->. reflexivity.
  - intros Hr. destruct (Z.eqb_spec (realtime local_pcap) 0); [contradiction|].
    split; [reflexivity|]. split.
    + intros ->. reflexivity.
    + unfold timeval_normal, usec_of.
      destruct (last_ts local_pcap) as [ls lu], ts as [s u]. simpl.
      intros [Hls Hlu] [Hs Hu] Hle.
      destruct (Z.eqb_spec ls 0); [lia|]. simpl.
      assert (H32 : 2 ^ 32 = 4294967296) by reflexivity.
      assert (H64 : 2 ^ 64 = 18446744073709551616) by reflexivity.
      split; intros Hcmp.
      * destruct (Z.ltb_spec s ls); [lia|].
        destruct (Z.ltb_spec u lu); [lia|].
        unfold uint64_wrap. rewrite (Z.mod_small ((s - ls) * 1000000)) by lia.
        rewrite Z.mod_small by lia. lia.
      * destruct (Z.ltb_spec s ls); [lia|].
        destruct (Z.ltb_spec u lu); [|lia].
        unfold uint64_wrap. rewrite (Z.mod_small ((s - ls) * 1000000)) by lia.
        rewrite Z.mod_small by lia. lia.
Qed.

Lemma replay_delay_pace_witness :
  realtime (Build_local_pcap 1 (Timeval 1 900000)) <> 0 /\
  timeval_normal (Timeval 1 900000) /\ timeval_normal (Timeval 2 100000) /\
  usec_of (Timeval 1 900000) <= usec_of (Timeval 2 100000) /\
  tv_usec (Timeval 2 100000) < tv_usec (Timeval 1 900000) /\
  (replay_delay (Build_local_pcap 1 (Timeval 1 900000)) (Timeval 2 100000)).1
    = usec_of (Timeval 2 100000) - usec_of (Timeval 1 900000) + 1000000.
Proof.
  assert (Hr : realtime (Build_local_pcap 1 (Timeval 1 900000)) <> 0)
    by (simpl; lia).
  assert (Hn1 : timeval_normal (Timeval 1 900000))
    by (unfold timeval_normal; simpl; lia).
  assert (Hn2 : timeval_normal (Timeval 2 100000))
    by (unfold timeval_normal; simpl; lia).
  assert (Hle : usec_of (Timeval 1 900000) <= usec_of (Timeval 2 100000))
    by (vm_compute; discriminate).
  assert (Hlt : tv_usec (Timeval 2 100000) < tv_usec (Timeval 1 900000))
    by (simpl; lia).
  refine (conj Hr (conj Hn1 (conj Hn2 (conj Hle (conj Hlt _))))).
  exact (proj2 (proj2 (proj2 (proj2 (replay_delay_pace
    (Build_local_pcap 1 (Timeval 1 900000)) (Timeval 2 100000)) Hr))
    Hn1 Hn2 Hle) Hlt).
Defined.
